(** * Shotlin backend: the web-analytics controller

    A shallow embedding of [src/modules/analytics/analytics.controller.ts]
    (traffic-source categorisation, the [collect] and [heartbeat] ingestion
    handlers over the Prisma store, and the summary, time-series, top-pages,
    geography, device, referrer and realtime aggregations), with the
    properties of the specification that concern them.

    Conventions of the embedding.
    - Instants ([Date]) are integers: milliseconds since the epoch.
    - A JavaScript number is an IEEE-754 double.  Integers (counts, sums
      of integer columns, instants) are kept as [Z]: they are doubles, and
      their sums are exact, as long as they stay below 2^53.  Every other
      number is the rational value of a finite double, and every division,
      multiplication and subtraction rounds its exact result to the nearest
      double, ties to even ([JS.toDouble]).  Infinities and NaN do not
      arise: every division of the controller is guarded.
    - A string is the sequence of the bytes of its UTF-8 encoding, so
      that equality, prefix and substring tests are those of the text.
      White space is the white space of ECMAScript.  Lower-casing folds
      the ASCII letters; what the platform makes of the other characters
      is a parameter ([lowerOther]).
    - A nullable column or an optional property is an [option]. *)

From Stdlib Require Import List String Ascii Bool ZArith QArith Qround Qabs Qpower.
From Stdlib Require Import Qreduction Lia Lqa.
From Stdlib Require Import Sorting.Sorted Sorting.Permutation.
Import ListNotations.
Local Open Scope string_scope.
Local Open Scope Z_scope.

Set Implicit Arguments.

(** ** The JavaScript runtime operations the controller relies on *)

Module JS.

(** Truthiness of an optional string: [null], [undefined] and the empty
    string are falsy. *)
Definition truthy (o : option string) : bool :=
  match o with
  | Some s => negb (s =? "")%string
  | None => false
  end.

(** [a || b] on optional strings with a string default. *)
Definition orElse (o : option string) (d : string) : string :=
  match o with
  | Some s => if (s =? "")%string then d else s
  | None => d
  end.

(** Truthiness of an optional number: [null] and [0] are falsy. *)
Definition truthyZ (o : option Z) : bool :=
  match o with
  | Some n => negb (n =? 0)
  | None => false
  end.

(** [o || 0] on an optional number. *)
Definition orZero (o : option Z) : Z :=
  match o with
  | Some n => n
  | None => 0
  end.

(** *** Strings *)

(** The UTF-8 encoding of a code point. *)
Definition byte (n : Z) : ascii := ascii_of_nat (Z.to_nat n).

Definition utf8 (cp : Z) : string :=
  if cp <? 128 then String (byte cp) ""
  else if cp <? 2048 then
    String (byte (192 + cp / 64)) (String (byte (128 + cp mod 64)) "")
  else if cp <? 65536 then
    String (byte (224 + cp / 4096))
      (String (byte (128 + cp / 64 mod 64)) (String (byte (128 + cp mod 64)) ""))
  else
    String (byte (240 + cp / 262144))
      (String (byte (128 + cp / 4096 mod 64))
         (String (byte (128 + cp / 64 mod 64)) (String (byte (128 + cp mod 64)) ""))).

(** A byte below 128 is an ASCII character; the bytes of every other
    character are 128 or more. *)
Definition isAscii (c : ascii) : bool := (nat_of_ascii c <? 128)%nat.

Definition lowerChar (c : ascii) : ascii :=
  let n := nat_of_ascii c in
  if ((65 <=? n)%nat && (n <=? 90)%nat)%bool then ascii_of_nat (n + 32) else c.

Section Lowering.

(** [lowerOther before run after]: what [toLowerCase] makes of [run], a
    maximal run of characters outside ASCII that stands between [before]
    and [after].  It is the Unicode lower-casing of the platform (the
    Kelvin sign gives k, a capital sigma one of the two small sigmas by
    what surrounds it). *)
Variable lowerOther : string -> string -> string -> string.

Definition flush (before run after : string) : string :=
  if (run =? "")%string then "" else lowerOther before run after.

(** The lower-casing of [s], which follows [before] and the pending run
    [run]. *)
Fixpoint lowerFrom (before run s : string) : string :=
  match s with
  | EmptyString => flush before run ""
  | String c r =>
      if isAscii c
      then flush before run s
           ++ String (lowerChar c) (lowerFrom (before ++ run ++ String c "") "" r)
      else lowerFrom before (run ++ String c "") r
  end.

(** [String.prototype.toLowerCase]: an ASCII letter is folded wherever
    it stands, every other ASCII character is kept. *)
Definition toLowerCase (s : string) : string := lowerFrom "" "" s.

End Lowering.

(** A platform that leaves the characters outside ASCII as they are. *)
Definition keepOther (before run after : string) : string := run.

(** [String.prototype.includes]: substring test. *)
Fixpoint includes (s sub : string) : bool :=
  if String.prefix sub s then true
  else match s with
       | EmptyString => false
       | String _ r => includes r sub
       end.

(** [Array.prototype.includes] on an array of strings: membership. *)
Definition arrayIncludes (l : list string) (s : string) : bool :=
  existsb (String.eqb s) l.

(** The code points of [WhiteSpace] and [LineTerminator]: tab, line
    feed, vertical tab, form feed, carriage return, space, no-break
    space, the other space separators, line and paragraph separator, and
    the byte-order mark. *)
Definition whiteSpacePoints : list Z :=
  [9; 10; 11; 12; 13; 32; 160; 5760;
   8192; 8193; 8194; 8195; 8196; 8197; 8198; 8199; 8200; 8201; 8202;
   8232; 8233; 8239; 8287; 12288; 65279].

Definition whiteSpace : list string := map utf8 whiteSpacePoints.

(** [s] without its prefix [p]. *)
Fixpoint dropPrefix (p s : string) : option string :=
  match p, s with
  | EmptyString, _ => Some s
  | String a p', String b s' => if (a =? b)%char then dropPrefix p' s' else None
  | String _ _, EmptyString => None
  end.

(** [s] without the white space character it starts with, if any. *)
Fixpoint dropAny (ps : list string) (s : string) : option string :=
  match ps with
  | [] => None
  | p :: rest =>
      match dropPrefix p s with
      | Some r => Some r
      | None => dropAny rest s
      end
  end.

Definition dropSpace (s : string) : option string := dropAny whiteSpace s.

Fixpoint trimStartN (fuel : nat) (s : string) : string :=
  match fuel with
  | O => s
  | S k =>
      match dropSpace s with
      | Some r => trimStartN k r
      | None => s
      end
  end.

(** [String.prototype.trimStart]; the length of [s] bounds the number of
    characters to drop. *)
Definition trimStart (s : string) : string := trimStartN (String.length s) s.

(** [String.prototype.trimEnd]: a string of white space only becomes
    empty, any other keeps its first byte. *)
Fixpoint trimEnd (s : string) : string :=
  match s with
  | EmptyString => EmptyString
  | String c r => if (trimStart s =? "")%string then EmptyString else String c (trimEnd r)
  end.

(** [String.prototype.trim] *)
Definition trim (s : string) : string := trimEnd (trimStart s).

Definition digitValue (c : ascii) : option Z :=
  let n := nat_of_ascii c in
  if ((48 <=? n) && (n <=? 57))%nat%bool then Some (Z.of_nat (n - 48)) else None.

(** The values of the longest prefix of decimal digits. *)
Fixpoint leadingDigits (s : string) : list Z :=
  match s with
  | EmptyString => []
  | String c r =>
      match digitValue c with
      | Some d => d :: leadingDigits r
      | None => []
      end
  end.

(** [parseInt(s, 10)]: leading white space is skipped, a sign is read,
    then the longest run of digits; [None] stands for [NaN]. *)
Definition parseInt (s : string) : option Z :=
  let s1 := trimStart s in
  let '(sign, s2) :=
    match s1 with
    | String "-" r => (-1, r)
    | String "+" r => (1, r)
    | _ => (1, s1)
    end in
  match leadingDigits s2 with
  | [] => None
  | ds => Some (sign * fold_left (fun acc d => acc * 10 + d) ds 0)
  end.

(** *** Numbers *)

(** The binade of a rational [x] that is not 0: the [e] with
    [2^e <= |x| < 2^(e+1)]. *)
Definition binade (x : Q) : Z :=
  let e := Z.log2 (Z.abs (Qnum x)) - Z.log2 (Zpos (Qden x)) in
  if Qle_bool (2 ^ e) (Qabs x) then e else e - 1.

(** The integer nearest to [q], the even one of the two when [q] is
    half-way. *)
Definition nearestEven (q : Q) : Z :=
  let f := Qfloor q in
  match (q - inject_Z f ?= 1 # 2)%Q with
  | Lt => f
  | Gt => f + 1
  | Eq => if Z.even f then f else f + 1
  end.

(** The double nearest to [x], ties to even: 53 significant bits down
    to the exponent -1022, and the multiples of 2^-1074 below.  The
    result is in lowest terms. *)
Definition toDouble (x : Q) : Q :=
  if Qeq_bool x 0 then 0%Q
  else
    let e := Z.max (binade x) (-1022) in
    let ulp := (2 ^ (e - 52))%Q in
    let m := nearestEven (Qabs x / ulp) in
    Qred ((if Qle_bool 0 x then 1 else -1) * (inject_Z m * ulp)).

(** The exponent at which [x] is rounded, half the relative spacing of
    the doubles (2^-53), and a bound (2^-100) on half the spacing of the
    smallest ones (2^-1075). *)
Definition expo (x : Q) : Z := Z.max (binade x) (-1022).

Definition ulpHalf : Q := 1 # 9007199254740992.

Definition tiny : Q := 1 # 1267650600228229401496703205376.

(** [a / b], [a * b] and [a - b] on numbers. *)
Definition div (a b : Q) : Q := toDouble (a / b).
Definition mul (a b : Q) : Q := toDouble (a * b).
Definition sub (a b : Q) : Q := toDouble (a - b).

(** [Math.round]: the nearest integer, halves towards plus infinity. *)
Definition round (x : Q) : Z := Qfloor (x + (1 # 2)).

(** [Math.floor (a / b)] for integers [a] and a positive integer [b]. *)
Definition floorDiv (a b : Z) : Z := a / b.

(** *** Arrays, sets and maps *)

(** [Array.prototype.slice(0, e)]: a negative end counts from the end of
    the array, [NaN] (here [None]) is read as 0. *)
Definition slice0 {A : Type} (e : option Z) (l : list A) : list A :=
  match e with
  | None => []
  | Some n =>
      if n <? 0 then firstn (Z.to_nat (Z.max 0 (Z.of_nat (List.length l) + n))) l
      else firstn (Z.to_nat n) l
  end.

(** [Array.prototype.sort] with a comparator: a stable sort.  [le a b]
    holds when the comparator does not put [b] strictly before [a]. *)
Section Sort.
Variable A : Type.
Variable le : A -> A -> bool.

Fixpoint insert (x : A) (l : list A) : list A :=
  match l with
  | [] => [x]
  | y :: r => if le x y then x :: l else y :: insert x r
  end.

Definition sort (l : list A) : list A :=
  fold_right insert [] l.
End Sort.

(** [new Set(l).size] needs the distinct elements of [l]; they are kept
    in first-occurrence order, as a JavaScript [Set] does. *)
Fixpoint distinct (l : list string) : list string :=
  match l with
  | [] => []
  | x :: r => x :: filter (fun y => negb (y =? x)%string) (distinct r)
  end.

Definition setSize (l : list string) : Z := Z.of_nat (List.length (distinct l)).

(** A [Map] with string keys, as the list of its entries in insertion
    order. *)
Fixpoint mapGet {V : Type} (k : string) (m : list (string * V)) : option V :=
  match m with
  | [] => None
  | (k', v) :: r => if (k' =? k)%string then Some v else mapGet k r
  end.

(** [if (!m.has(k)) m.set(k, fresh); const e = m.get(k); e becomes f(e)]:
    the entry of [k] is created from [fresh] when absent, then updated; a
    new entry goes last. *)
Fixpoint upsert {V : Type} (k : string) (fresh : V) (f : V -> V)
    (m : list (string * V)) : list (string * V) :=
  match m with
  | [] => [(k, f fresh)]
  | (k', v) :: r =>
      if (k' =? k)%string then (k', f v) :: r else (k', v) :: upsert k fresh f r
  end.

(** [set.add(x)] on a [Set] of strings, as the list of its elements in
    insertion order. *)
Definition setAdd (x : string) (l : list string) : list string :=
  if existsb (String.eqb x) l then l else l ++ [x].

End JS.

(** ** Traffic-source categorisation *)

Module Traffic.

Definition utmSearchEngines : list string :=
  ["google"; "bing"; "duckduckgo"; "yahoo"; "baidu"].

Definition utmSocialPlatforms : list string :=
  ["facebook"; "instagram"; "linkedin"; "twitter"; "tiktok"; "reddit"; "x"].

Definition searchDomains : list string :=
  ["google.com"; "bing.com"; "duckduckgo.com"; "yahoo.com"; "baidu.com"; "yandex.com"].

Definition socialDomains : list string :=
  ["facebook.com"; "instagram.com"; "linkedin.com"; "twitter.com"; "x.com";
   "tiktok.com"; "reddit.com"; "t.co"].

Section Lowering.
Variable lowerOther : string -> string -> string -> string.

(** The branch taken when [utmSource] is truthy. *)
Definition categorizeUtm (utmSource : string) : string :=
  let s := JS.toLowerCase lowerOther utmSource in
  if JS.arrayIncludes utmSearchEngines s then "Organic Search"
  else if JS.arrayIncludes utmSocialPlatforms s then "Social Media"
  else if (JS.includes s "email" || JS.includes s "newsletter")%bool then "Email"
  else if (JS.includes s "cpc" || JS.includes s "ads" || JS.includes s "paid")%bool
       then "Paid Ads"
  else "Campaign".

(** The fall-through branch, on the referrer domain. *)
Definition categorizeReferrer (referrerDomain : option string) : string :=
  if negb (JS.truthy referrerDomain) then "Direct"
  else
    let d := JS.toLowerCase lowerOther (JS.orElse referrerDomain "") in
    if existsb (fun s => JS.includes d s) searchDomains then "Organic Search"
    else if existsb (fun s => JS.includes d s) socialDomains then "Social Media"
    else "Referral".

Definition categorizeTrafficSource
    (referrerDomain utmSource : option string) : string :=
  if JS.truthy utmSource then categorizeUtm (JS.orElse utmSource "")
  else categorizeReferrer referrerDomain.

End Lowering.

End Traffic.


(** ** The Prisma store: the two tables and the queries the handlers issue *)

Module Store.

Record AnalyticsSession : Type := mkSession {
  id : string;
  visitorId : string;
  entryPage : string;
  exitPage : option string;
  startedAt : Z;
  lastActiveAt : Z;
  duration : Z;
  pageViewCount : Z;
  bounced : bool;
  referrer : option string;
  referrerDomain : option string;
  utmSource : option string;
  utmMedium : option string;
  utmCampaign : option string;
  deviceType : option string;
  browser : option string;
  browserVersion : option string;
  os : option string;
  osVersion : option string;
  screenWidth : option Z;
  screenHeight : option Z;
  language : option string;
  country : option string;
  countryCode : option string;
  city : option string;
  region : option string;
  latitude : option Q;
  longitude : option Q;
  timezone : option string
}.

Record PageView : Type := mkPageView {
  pvId : string;
  sessionId : string;
  path : string;
  title : option string;
  pvReferrer : option string;
  timestamp : Z;
  timeOnPage : option Z;
  scrollDepth : option Z
}.

Record t : Type := mkStore {
  sessions : list AnalyticsSession;
  pageViews : list PageView
}.

(** A query either returns or throws; what was written before a throw
    stays written (the handlers run no transaction). *)
Inductive Outcome (A : Type) : Type :=
| Returned (a : A)
| Thrown.
Arguments Thrown {A}.

Definition Prisma (A : Type) : Type := t -> Outcome A * t.

Definition ret {A : Type} (a : A) : Prisma A := fun st => (Returned a, st).

Definition bind {A B : Type} (m : Prisma A) (k : A -> Prisma B) : Prisma B :=
  fun st =>
    match m st with
    | (Returned a, st') => k a st'
    | (Thrown, st') => (Thrown, st')
    end.

(** [try { m } catch { h }] *)
Definition tryCatch {A : Type} (m : Prisma A) (h : Prisma A) : Prisma A :=
  fun st =>
    match m st with
    | (Returned a, st') => (Returned a, st')
    | (Thrown, st') => h st'
    end.

Definition hasSession (i : string) (st : t) : bool :=
  existsb (fun s => (id s =? i)%string) (sessions st).

Definition hasPageView (i : string) (st : t) : bool :=
  existsb (fun v => (pvId v =? i)%string) (pageViews st).

(** [analyticsSession.findFirst({ where: { id, visitorId,
    lastActiveAt: { gte } }, select: { id } })] *)
Definition sessionFindFirst (i v : string) (gte : Z) : Prisma (option string) :=
  fun st =>
    (Returned
       (option_map id
          (find (fun s => (id s =? i)%string && (visitorId s =? v)%string
                          && (gte <=? lastActiveAt s))%bool
                (sessions st))),
     st).

(** [analyticsSession.findUnique({ where: { id } })] *)
Definition sessionFindUnique (i : string) : Prisma (option AnalyticsSession) :=
  fun st => (Returned (find (fun s => (id s =? i)%string) (sessions st)), st).

(** [analyticsSession.update({ where: { id }, data })]; Prisma throws
    when no row has that id. *)
Definition sessionUpdate (i : string) (data : AnalyticsSession -> AnalyticsSession)
  : Prisma unit :=
  fun st =>
    if hasSession i st then
      (Returned tt,
       mkStore (map (fun s => if (id s =? i)%string then data s else s) (sessions st))
               (pageViews st))
    else (Thrown, st).

(** [analyticsSession.create({ data })]: the row is appended; the
    primary-key constraint makes the insertion throw on a duplicate id. *)
Definition sessionCreate (row : AnalyticsSession) : Prisma AnalyticsSession :=
  fun st =>
    if hasSession (id row) st then (Thrown, st)
    else (Returned row, mkStore (sessions st ++ [row]) (pageViews st)).

(** [pageView.create({ data })] *)
Definition pageViewCreate (row : PageView) : Prisma PageView :=
  fun st =>
    if hasPageView (pvId row) st then (Thrown, st)
    else (Returned row, mkStore (sessions st) (pageViews st ++ [row])).

(** The row with the greatest timestamp; among equal timestamps the
    first in table order. *)
Fixpoint latest (l : list PageView) : option PageView :=
  match l with
  | [] => None
  | v :: r =>
      match latest r with
      | None => Some v
      | Some w => if timestamp w <=? timestamp v then Some v else Some w
      end
  end.

(** [pageView.findFirst({ where: { sessionId, path },
    orderBy: { timestamp: "desc" } })] *)
Definition pageViewFindFirst (sid p : string) : Prisma (option PageView) :=
  fun st =>
    (Returned
       (latest (filter (fun v => (sessionId v =? sid)%string && (path v =? p)%string)%bool
                       (pageViews st))),
     st).

(** [pageView.update({ where: { id }, data })] *)
Definition pageViewUpdate (i : string) (data : PageView -> PageView) : Prisma unit :=
  fun st =>
    if hasPageView i st then
      (Returned tt,
       mkStore (sessions st)
               (map (fun v => if (pvId v =? i)%string then data v else v) (pageViews st)))
    else (Thrown, st).

End Store.

Notation "x <- c ;; k" := (Store.bind c (fun x => k))
  (at level 61, c at next level, right associativity).
Notation "c ;;; k" := (Store.bind c (fun _ => k))
  (at level 61, right associativity).

(** ** Ingestion: [collect] and [heartbeat] *)

Module Ingest.
Import Store.

(** What the geolocation service answers: the JSON fields the handler
    reads. *)
Record GeoData : Type := mkGeoData {
  country_name : option string;
  country_code : option string;
  geo_city : option string;
  geo_region : option string;
  geo_latitude : option Q;
  geo_longitude : option Q;
  geo_timezone : option string
}.

(** The object [geoLookup] resolves to. *)
Record Geo : Type := mkGeo {
  gCountry : option string;
  gCountryCode : option string;
  gCity : option string;
  gRegion : option string;
  gLatitude : option Q;
  gLongitude : option Q;
  gTimezone : option string
}.

Record CollectBody : Type := mkCollectBody {
  bVisitorId : string;
  bSessionId : option string;
  bPath : string;
  bTitle : option string;
  bReferrer : option string;
  bUtmSource : option string;
  bUtmMedium : option string;
  bUtmCampaign : option string;
  bDeviceType : option string;
  bBrowser : option string;
  bBrowserVersion : option string;
  bOs : option string;
  bOsVersion : option string;
  bScreenWidth : option Z;
  bScreenHeight : option Z;
  bLanguage : option string
}.

Record CollectRequest : Type := mkCollectRequest {
  xForwardedFor : option string;
  requestIp : option string;
  body : CollectBody
}.

Record HeartbeatBody : Type := mkHeartbeatBody {
  hSessionId : string;
  hScrollDepth : option Z;
  hPath : option string
}.

(** What the environment supplies during one request: the clock (read
    as one instant per request) and the identifiers the database
    generates for rows it inserts. *)
Record Runtime : Type := mkRuntime {
  now : Z;
  newSessionId : string;
  newPageViewId : string
}.

Record Reply : Type := mkReply {
  code : Z;
  status : string;
  replySessionId : option string
}.

(** [s.split(",")[0]] *)
Fixpoint firstField (s : string) : string :=
  match s with
  | EmptyString => EmptyString
  | String c r => if (c =? ",")%char then EmptyString else String c (firstField r)
  end.

(** [s.replace(/^www\./, "")] *)
Definition stripWww (s : string) : string :=
  if String.prefix "www." s then String.substring 4 (String.length s - 4) s else s.

(** [x || undefined] on the service's fields. *)
Definition orUndefined (o : option string) : option string :=
  if JS.truthy o then o else None.

Definition orUndefinedQ (o : option Q) : option Q :=
  match o with
  | Some q => if Qeq_bool q 0 then None else Some q
  | None => None
  end.

Section Handlers.

(** [new URL(u).hostname], [None] when the constructor throws. *)
Variable urlHostname : string -> option string.

(** The answer of [https://ipapi.co/<ip>/json/], [None] when the
    request fails, is not [ok], or its body is not JSON. *)
Variable ipapi : string -> option GeoData.

Definition extractReferrerDomain (referrer : option string) : option string :=
  if negb (JS.truthy referrer) then None
  else option_map stripWww (urlHostname (JS.orElse referrer "")).

Definition geoLookup (ip : string) : Geo :=
  if ((ip =? "") || (ip =? "127.0.0.1") || (ip =? "::1")
      || String.prefix "192.168." ip || String.prefix "10." ip)%string%bool
  then mkGeo (Some "Local") (Some "LO") (Some "Localhost") None None None None
  else
    match ipapi ip with
    | None => mkGeo None None None None None None None
    | Some data =>
        mkGeo (orUndefined (country_name data))
              (orUndefined (country_code data))
              (orUndefined (geo_city data))
              (orUndefined (geo_region data))
              (orUndefinedQ (geo_latitude data))
              (orUndefinedQ (geo_longitude data))
              (orUndefined (geo_timezone data))
    end.

Definition clientIpOf (request : CollectRequest) : string :=
  JS.orElse
    (option_map (fun h => JS.trim (firstField h)) (xForwardedFor request))
    (JS.orElse (requestIp request) "127.0.0.1").

(** The [data] of the update that [collect] issues on an open session. *)
Definition collectUpdate (rt : Runtime) (b : CollectBody)
    (s : AnalyticsSession) : AnalyticsSession :=
  mkSession (id s) (visitorId s) (entryPage s)
    (Some (bPath b))
    (startedAt s)
    (now rt)
    (duration s)
    (pageViewCount s + 1)
    false
    (referrer s) (referrerDomain s) (utmSource s) (utmMedium s) (utmCampaign s)
    (deviceType s) (browser s) (browserVersion s) (os s) (osVersion s)
    (screenWidth s) (screenHeight s) (language s)
    (country s) (countryCode s) (city s) (region s)
    (latitude s) (longitude s) (timezone s).

(** Modelled from the spec: the column defaults of the Prisma schema,
    which is not among the sources.  A session starts at the instant of
    its creation with duration 0, one page view and [bounced = true]; a
    page view is stamped with the instant of its creation and has
    neither time-on-page nor scroll depth. *)
Definition newSessionRow (rt : Runtime) (b : CollectBody)
    (referrerDomain : option string) (geo : Geo) : AnalyticsSession :=
  mkSession (newSessionId rt) (bVisitorId b) (bPath b)
    (Some (bPath b))
    (now rt) (now rt) 0 1 true
    (bReferrer b) referrerDomain (bUtmSource b) (bUtmMedium b) (bUtmCampaign b)
    (bDeviceType b) (bBrowser b) (bBrowserVersion b) (bOs b) (bOsVersion b)
    (bScreenWidth b) (bScreenHeight b) (bLanguage b)
    (gCountry geo) (gCountryCode geo) (gCity geo) (gRegion geo)
    (gLatitude geo) (gLongitude geo) (gTimezone geo).

Definition newPageViewRow (rt : Runtime) (sid p : string)
    (title referrer : option string) : PageView :=
  mkPageView (newPageViewId rt) sid p title referrer (now rt) None None.

Definition collectHandler (rt : Runtime) (request : CollectRequest) : Prisma Reply :=
  let b := body request in
  tryCatch
    (session <-
       (if JS.truthy (bSessionId b)
        then sessionFindFirst (JS.orElse (bSessionId b) "") (bVisitorId b)
                              (now rt - 30 * 60 * 1000)
        else ret None) ;;
     match session with
     | Some sid =>
         sessionUpdate sid (collectUpdate rt b) ;;;
         pageViewCreate (newPageViewRow rt sid (bPath b) (bTitle b) (bReferrer b)) ;;;
         ret (mkReply 200 "ok" (Some sid))
     | None =>
         let clientIp := clientIpOf request in
         let geo := geoLookup clientIp in
         let referrerDomain := extractReferrerDomain (bReferrer b) in
         newSession <- sessionCreate (newSessionRow rt b referrerDomain geo) ;;
         pageViewCreate (newPageViewRow rt (id newSession) (bPath b) (bTitle b) None) ;;;
         ret (mkReply 200 "ok" (Some (id newSession)))
     end)
    (ret (mkReply 500 "error" None)).

(** The [data] of the two updates that [heartbeat] issues. *)
Definition heartbeatUpdate (rt : Runtime) (d : Z)
    (s : AnalyticsSession) : AnalyticsSession :=
  mkSession (id s) (visitorId s) (entryPage s) (exitPage s)
    (startedAt s)
    (now rt)
    d
    (pageViewCount s) (bounced s)
    (referrer s) (referrerDomain s) (utmSource s) (utmMedium s) (utmCampaign s)
    (deviceType s) (browser s) (browserVersion s) (os s) (osVersion s)
    (screenWidth s) (screenHeight s) (language s)
    (country s) (countryCode s) (city s) (region s)
    (latitude s) (longitude s) (timezone s).

Definition scrollUpdate (rt : Runtime) (depth : Z) (latestView v : PageView)
  : PageView :=
  mkPageView (pvId v) (sessionId v) (path v) (title v) (pvReferrer v) (timestamp v)
    (Some (JS.floorDiv (now rt - timestamp latestView) 1000))
    (Some (Z.max depth (JS.orZero (scrollDepth latestView)))).

Definition heartbeatHandler (rt : Runtime) (b : HeartbeatBody) : Prisma Reply :=
  tryCatch
    (session <- sessionFindUnique (hSessionId b) ;;
     match session with
     | None => ret (mkReply 404 "not_found" None)
     | Some s =>
         let d := JS.floorDiv (now rt - startedAt s) 1000 in
         sessionUpdate (hSessionId b) (heartbeatUpdate rt d) ;;;
         (match hScrollDepth b with
          | Some depth =>
              if JS.truthy (hPath b) then
                latestView <- pageViewFindFirst (hSessionId b)
                                                (JS.orElse (hPath b) "") ;;
                match latestView with
                | Some lv => pageViewUpdate (pvId lv) (scrollUpdate rt depth lv)
                | None => ret tt
                end
              else ret tt
          | None => ret tt
          end) ;;;
         ret (mkReply 200 "ok" None)
     end)
    (ret (mkReply 500 "error" None)).

(** A client call, for runs of several requests. *)
Inductive Call : Type :=
| Collect (rt : Runtime) (request : CollectRequest)
| Heartbeat (rt : Runtime) (b : HeartbeatBody).

Definition handle (c : Call) : Prisma Reply :=
  match c with
  | Collect rt request => collectHandler rt request
  | Heartbeat rt b => heartbeatHandler rt b
  end.

(** The store after a run of calls, in order. *)
Definition run (calls : list Call) (st : Store.t) : Store.t :=
  fold_left (fun acc c => snd (handle c acc)) calls st.

End Handlers.

End Ingest.

(** ** Dates: the local-time accessors of [Date]

    The server's zone is taken at a fixed offset [tz] (milliseconds east of
    UTC); daylight-saving transitions are outside the model.  The calendar
    is the proleptic Gregorian one of ECMAScript. *)

Module JSDate.

Definition msPerDay : Z := 86400000.
Definition msPerHour : Z := 3600000.

(** Year, month (1..12) and day of month of a day number counted from
    1970-01-01.  Days are grouped in eras of 400 years that start on a
    first of March; a year of the era starts in March too. *)
Definition eraOf (days : Z) : Z := (days + 719468) / 146097.

Definition dayOfEra (days : Z) : Z := (days + 719468) - eraOf days * 146097.

Definition yearOfEra (doe : Z) : Z :=
  (doe - doe / 1460 + doe / 36524 - doe / 146096) / 365.

Definition dayOfYear (doe : Z) : Z :=
  let yoe := yearOfEra doe in doe - (365 * yoe + yoe / 4 - yoe / 100).

(** The date of day [doy] of the year that starts in March of [y]. *)
Definition ofMarch (y doy : Z) : Z * Z * Z :=
  let mp := (5 * doy + 2) / 153 in
  let d := doy - (153 * mp + 2) / 5 + 1 in
  let m := if mp <? 10 then mp + 3 else mp - 9 in
  (y + (if m <=? 2 then 1 else 0), m, d).

Definition civil (days : Z) : Z * Z * Z :=
  let doe := dayOfEra days in
  ofMarch (yearOfEra doe + eraOf days * 400) (dayOfYear doe).

Section Zone.
Variable tz : Z.

Definition localDay (t : Z) : Z := (t + tz) / msPerDay.

Definition getFullYear (t : Z) : Z := fst (fst (civil (localDay t))).
Definition getMonth (t : Z) : Z := snd (fst (civil (localDay t))) - 1.
Definition getDate (t : Z) : Z := snd (civil (localDay t)).
Definition getHours (t : Z) : Z := ((t + tz) mod msPerDay) / msPerHour.

(** [new Date(d.getFullYear(), d.getMonth(), d.getDate())]: local
    midnight of the day of [t]. *)
Definition startOfDay (t : Z) : Z := localDay t * msPerDay - tz.
End Zone.

Definition digitChar (d : Z) : ascii := ascii_of_nat (48 + Z.to_nat d).

Fixpoint digitsOf (fuel : nat) (n : Z) (acc : string) : string :=
  let acc' := String (digitChar (n mod 10)) acc in
  match fuel with
  | O => acc'
  | S f => if n <? 10 then acc' else digitsOf f (n / 10) acc'
  end.

(** [String(n)] for an integer. *)
Definition toString (n : Z) : string :=
  if n <? 0 then String "-" (digitsOf (Z.to_nat (Z.log2 (- n))) (- n) "")
  else digitsOf (Z.to_nat (Z.log2 n)) n "".

Fixpoint repeatChar (n : nat) (c : ascii) : string :=
  match n with
  | O => EmptyString
  | S k => String c (repeatChar k c)
  end.

(** [s.padStart(n, c)] with a one-character filler. *)
Definition padStart (n : nat) (c : ascii) (s : string) : string :=
  repeatChar (n - String.length s) c ++ s.

Definition pad2 (n : Z) : string := padStart 2 "0" (toString n).

End JSDate.

(** ** Aggregation: summary statistics, time series and top pages *)

Module Aggregate.
Import Store.

(** A JSON value of a reply: a number or a string. *)
Inductive Json : Type :=
| JNum (q : Q)
| JStr (s : string).

(** A JSON object: its properties in the order they are written. *)
Definition JsonObject : Type := list (string * Json).

Fixpoint property (k : string) (o : JsonObject) : option Json :=
  match o with
  | [] => None
  | (k', v) :: r => if (k' =? k)%string then Some v else property k r
  end.

Definition count {A : Type} (l : list A) : Z := Z.of_nat (List.length l).

Definition sumZ (l : list Z) : Z := fold_left Z.add l 0.

(** [a / b] on two integers: the double nearest to the quotient. *)
Definition quot (a b : Z) : Q := JS.div (inject_Z a) (inject_Z b).

(** [a > b] on numbers. *)
Definition gtQ (a b : Q) : bool := negb (Qle_bool a b).

(** *** Summary statistics *)

Definition pctChange (curr prev : Q) : Q :=
  if Qeq_bool prev 0 then (if gtQ curr 0 then 100 else 0)%Q
  else JS.div
         (inject_Z
            (JS.round (JS.mul (JS.mul (JS.div (JS.sub curr prev) prev) 100) 10)))
         10.

Definition uniqueVisitors (ss : list AnalyticsSession) : Z :=
  JS.setSize (map visitorId ss).

Definition avgDuration (ss : list AnalyticsSession) : Z :=
  if count ss >? 0 then JS.round (quot (sumZ (map duration ss)) (count ss)) else 0.

Definition bounceRate (ss : list AnalyticsSession) : Q :=
  if count ss >? 0
  then JS.div
         (inject_Z
            (JS.round (JS.mul (JS.mul (quot (count (filter bounced ss)) (count ss)) 100)
                              10)))
         10
  else 0%Q.

Definition pagesPerSession (ss : list AnalyticsSession) : Q :=
  if count ss >? 0
  then JS.div
         (inject_Z (JS.round (JS.mul (quot (sumZ (map pageViewCount ss)) (count ss)) 10)))
         10
  else 0%Q.

Section Zone.
Variable tz : Z.

(** [since], [prevSince] and [prevUntil] of the summary statistics. *)
Definition statsWindow (now : Z) (range : string) : Z * Z * Z :=
  if (range =? "today")%string then
    let since := JSDate.startOfDay tz now in (since, since - 86400000, since)
  else if (range =? "30d")%string then
    let since := now - 30 * 86400000 in (since, since - 30 * 86400000, since)
  else if (range =? "all")%string then (0, 0, 0)
  else
    let since := now - 7 * 86400000 in (since, since - 7 * 86400000, since).

Definition wSince (w : Z * Z * Z) : Z := fst (fst w).
Definition wPrevSince (w : Z * Z * Z) : Z := snd (fst w).
Definition wPrevUntil (w : Z * Z * Z) : Z := snd w.

Definition sessionsSince (since : Z) (st : Store.t) : list AnalyticsSession :=
  filter (fun s => since <=? startedAt s) (sessions st).

Definition sessionsBetween (from until : Z) (st : Store.t) : list AnalyticsSession :=
  filter (fun s => (from <=? startedAt s) && (startedAt s <? until))%bool (sessions st).

Definition pageViewsSince (since : Z) (st : Store.t) : list PageView :=
  filter (fun v => since <=? timestamp v) (pageViews st).

Definition pageViewsBetween (from until : Z) (st : Store.t) : list PageView :=
  filter (fun v => (from <=? timestamp v) && (timestamp v <? until))%bool (pageViews st).

(** The [data] object of the reply of [getStatsHandler]. *)
Definition getStatsHandler (now : Z) (queryRange : option string) (st : Store.t)
  : JsonObject :=
  let range := JS.orElse queryRange "7d" in
  let w := statsWindow now range in
  let since := wSince w in
  let prevSince := wPrevSince w in
  let prevUntil := wPrevUntil w in
  let sessions := sessionsSince since st in
  let pageViews := count (pageViewsSince since st) in
  let prevSessions :=
    if negb (range =? "all")%string then sessionsBetween prevSince prevUntil st
    else [] in
  let prevPageViews :=
    if negb (range =? "all")%string then count (pageViewsBetween prevSince prevUntil st)
    else 0 in
  [ ("visitors", JNum (inject_Z (uniqueVisitors sessions)));
    ("visitorsChange",
       JNum (pctChange (inject_Z (uniqueVisitors sessions))
                       (inject_Z (uniqueVisitors prevSessions))));
    ("sessions", JNum (inject_Z (count sessions)));
    ("sessionsChange",
       JNum (pctChange (inject_Z (count sessions)) (inject_Z (count prevSessions))));
    ("pageViews", JNum (inject_Z pageViews));
    ("pageViewsChange", JNum (pctChange (inject_Z pageViews) (inject_Z prevPageViews)));
    ("avgDuration", JNum (inject_Z (avgDuration sessions)));
    ("avgDurationChange",
       JNum (pctChange (inject_Z (avgDuration sessions))
                       (inject_Z (avgDuration prevSessions))));
    ("bounceRate", JNum (bounceRate sessions));
    ("bounceRateChange", JNum (pctChange (bounceRate sessions) (bounceRate prevSessions)));
    ("pagesPerSession", JNum (pagesPerSession sessions));
    ("range", JStr range) ].

(** *** Time series *)

Inductive Granularity : Type := Hour | Day.

Definition seriesWindow (now : Z) (range : string) : Z * Granularity :=
  if (range =? "today")%string then (JSDate.startOfDay tz now, Hour)
  else if (range =? "30d")%string then (now - 30 * 86400000, Day)
  else if (range =? "all")%string then (now - 90 * 86400000, Day)
  else (now - 7 * 86400000, Day).

Definition dayKey (t : Z) : string :=
  JSDate.toString (JSDate.getFullYear tz t) ++ "-"
  ++ JSDate.pad2 (JSDate.getMonth tz t + 1) ++ "-"
  ++ JSDate.pad2 (JSDate.getDate tz t).

Definition bucketKey (g : Granularity) (t : Z) : string :=
  match g with
  | Hour => dayKey t ++ "T" ++ JSDate.pad2 (JSDate.getHours tz t) ++ ":00"
  | Day => dayKey t
  end.

Record Bucket : Type := mkBucket {
  bViews : Z;
  bSessions : list string
}.

(** One turn of the grouping loop on the [Map] of buckets. *)
Definition addToBucket (key sid : string) (m : list (string * Bucket))
  : list (string * Bucket) :=
  JS.upsert key (mkBucket 0 [])
            (fun b => mkBucket (bViews b + 1) (JS.setAdd sid (bSessions b)))
            m.

Record SeriesPoint : Type := mkPoint {
  time : string;
  views : Z;
  visitors : Z
}.

(** [pageView.findMany({ where: { timestamp: { gte: since } },
    orderBy: { timestamp: "asc" } })] *)
Definition seriesRows (since : Z) (st : Store.t) : list PageView :=
  JS.sort (fun a b => timestamp a <=? timestamp b) (pageViewsSince since st).

Definition bucketsOf (g : Granularity) (rows : list PageView)
  : list (string * Bucket) :=
  fold_left (fun m pv => addToBucket (bucketKey g (timestamp pv)) (sessionId pv) m)
            rows [].

(** The [series] and [granularity] of the reply of
    [getTimeSeriesHandler]; [a.time.localeCompare(b.time)] is the
    order of the character codes, with which it agrees on these keys. *)
Definition getTimeSeriesHandler (now : Z) (queryRange : option string) (st : Store.t)
  : list SeriesPoint * Granularity :=
  let range := JS.orElse queryRange "7d" in
  let '(since, granularity) := seriesWindow now range in
  let buckets := bucketsOf granularity (seriesRows since st) in
  (JS.sort (fun a b => String.leb (time a) (time b))
           (map (fun kb => mkPoint (fst kb) (bViews (snd kb))
                                   (count (bSessions (snd kb))))
                buckets),
   granularity).

(** *** Top pages *)

Definition pagesSince (now : Z) (range : string) : Z :=
  if (range =? "today")%string then JSDate.startOfDay tz now
  else if (range =? "30d")%string then now - 30 * 86400000
  else if (range =? "all")%string then 0
  else now - 7 * 86400000.

Record PageAgg : Type := mkPageAgg {
  aTitle : string;
  aViews : Z;
  totalTime : Z;
  timeCount : Z;
  totalScroll : Z;
  scrollCount : Z;
  aSessions : list string
}.

(** The body of the aggregation loop, applied to the entry of the
    view's path. *)
Definition addView (v : PageView) (p : PageAgg) : PageAgg :=
  mkPageAgg
    (if JS.truthy (title v) then JS.orElse (title v) "" else aTitle p)
    (aViews p + 1)
    (if JS.truthyZ (timeOnPage v) then totalTime p + JS.orZero (timeOnPage v)
     else totalTime p)
    (if JS.truthyZ (timeOnPage v) then timeCount p + 1 else timeCount p)
    (if JS.truthyZ (scrollDepth v) then totalScroll p + JS.orZero (scrollDepth v)
     else totalScroll p)
    (if JS.truthyZ (scrollDepth v) then scrollCount p + 1 else scrollCount p)
    (JS.setAdd (sessionId v) (aSessions p)).

Definition emptyAgg (v : PageView) : PageAgg :=
  mkPageAgg (JS.orElse (title v) (path v)) 0 0 0 0 0 [].

Definition addToPage (v : PageView) (m : list (string * PageAgg))
  : list (string * PageAgg) :=
  JS.upsert (path v) (emptyAgg v) (addView v) m.

Definition pageMap (vs : list PageView) : list (string * PageAgg) :=
  fold_left (fun m v => addToPage v m) vs [].

(** [sessionPageCounts.set(s, (sessionPageCounts.get(s) || 0) + 1)] *)
Definition bumpCount (sid : string) (m : list (string * Z)) : list (string * Z) :=
  JS.upsert sid 0 (fun n => n + 1) m.

Definition sessionPageCounts (vs : list PageView) : list (string * Z) :=
  fold_left (fun m v => bumpCount (sessionId v) m) vs [].

(** [sessionPageCounts.get(s) === 1] *)
Definition viewedOnce (counts : list (string * Z)) (s : string) : bool :=
  match JS.mapGet s counts with
  | Some n => n =? 1
  | None => false
  end.

Record PageRow : Type := mkPageRow {
  rPath : string;
  rTitle : string;
  rViews : Z;
  rUniqueVisitors : Z;
  rAvgTime : Z;
  rAvgScroll : Z;
  rBounceRate : Z
}.

Definition pageRow (vs : list PageView) (entry : string * PageAgg) : PageRow :=
  let '(p, data) := entry in
  let bouncedSessions :=
    count (filter (viewedOnce (sessionPageCounts vs)) (aSessions data)) in
  mkPageRow p (aTitle data) (aViews data) (count (aSessions data))
    (if timeCount data >? 0 then JS.round (quot (totalTime data) (timeCount data))
     else 0)
    (if scrollCount data >? 0 then JS.round (quot (totalScroll data) (scrollCount data))
     else 0)
    (if count (aSessions data) >? 0
     then JS.round (JS.mul (quot bouncedSessions (count (aSessions data))) 100)
     else 0).

(** The rows before [slice]. *)
Definition rankedPages (vs : list PageView) : list PageRow :=
  JS.sort (fun a b => rViews b <=? rViews a) (map (pageRow vs) (pageMap vs)).

(** The [data] of the reply of [getTopPagesHandler]. *)
Definition getTopPagesHandler (now : Z) (queryRange queryLimit : option string)
    (st : Store.t) : list PageRow :=
  let range := JS.orElse queryRange "7d" in
  let limit := JS.parseInt (JS.orElse queryLimit "20") in
  let views := pageViewsSince (pagesSince now range) st in
  JS.slice0 limit (rankedPages views).

End Zone.

End Aggregate.

(** ** Aggregation: geography, devices, referrers and realtime *)

Module Dashboards.
Import Store.

(** [Math.round(x * 100 * 10) / 10] of a share [part / total], 0 when
    [total] is 0: the percentage of the geography, device and referrer
    views. *)
Definition share (part total : Z) : Q :=
  if total >? 0
  then JS.div
         (inject_Z (JS.round (JS.mul (JS.mul (Aggregate.quot part total) 100) 10)))
         10
  else 0%Q.

(** *** Geography *)

Record CityAgg : Type := mkCityAgg {
  ciSessions : Z;
  ciVisitors : list string
}.

Record CountryAgg : Type := mkCountryAgg {
  coCountry : string;
  coCountryCode : string;
  coVisitors : list string;
  coSessions : Z;
  coTotalDuration : Z;
  coCities : list (string * CityAgg)
}.

(** The entry created for a country code that is not in the map yet. *)
Definition newCountry (s : AnalyticsSession) : CountryAgg :=
  mkCountryAgg (JS.orElse (country s) "Unknown") (JS.orElse (countryCode s) "XX")
               [] 0 0 [].

(** The body of the loop over the sessions, applied to the entry of the
    country code of [s]. *)
Definition addToCountry (s : AnalyticsSession) (c : CountryAgg) : CountryAgg :=
  mkCountryAgg (coCountry c) (coCountryCode c)
    (JS.setAdd (visitorId s) (coVisitors c))
    (coSessions c + 1)
    (coTotalDuration c + duration s)
    (if JS.truthy (city s)
     then JS.upsert (JS.orElse (city s) "") (mkCityAgg 0 [])
                    (fun ci => mkCityAgg (ciSessions ci + 1)
                                         (JS.setAdd (visitorId s) (ciVisitors ci)))
                    (coCities c)
     else coCities c).

Definition countryMap (ss : list AnalyticsSession) : list (string * CountryAgg) :=
  fold_left (fun m s => JS.upsert (JS.orElse (countryCode s) "XX") (newCountry s)
                                  (addToCountry s) m)
            ss [].

Record CityRow : Type := mkCityRow {
  cityName : string;
  citySessions : Z;
  cityVisitors : Z
}.

Record CountryRow : Type := mkCountryRow {
  rowCountry : string;
  rowCountryCode : string;
  rowVisitors : Z;
  rowSessions : Z;
  rowPercentage : Q;
  rowAvgDuration : Z;
  rowTopCities : list CityRow
}.

Definition cityRow (entry : string * CityAgg) : CityRow :=
  mkCityRow (fst entry) (ciSessions (snd entry)) (Aggregate.count (ciVisitors (snd entry))).

Definition topCities (cities : list (string * CityAgg)) : list CityRow :=
  JS.slice0 (Some 5)
    (JS.sort (fun a b => citySessions b <=? citySessions a) (map cityRow cities)).

Definition countryRow (totalSessions : Z) (c : CountryAgg) : CountryRow :=
  mkCountryRow (coCountry c) (coCountryCode c)
    (Aggregate.count (coVisitors c))
    (coSessions c)
    (share (coSessions c) totalSessions)
    (if coSessions c >? 0
     then JS.round (Aggregate.quot (coTotalDuration c) (coSessions c)) else 0)
    (topCities (coCities c)).

(** The countries before [slice(0, 50)]. *)
Definition rankedCountries (ss : list AnalyticsSession) : list CountryRow :=
  JS.sort (fun a b => rowSessions b <=? rowSessions a)
          (map (fun e => countryRow (Aggregate.count ss) (snd e)) (countryMap ss)).

(** *** Devices *)

Record DistRow : Type := mkDistRow {
  distName : string;
  distCount : Z;
  distPercentage : Q
}.

(** [map.set(k, (map.get(k) || 0) + 1)] over the sessions, [k] being the
    value of a column or its default. *)
Definition tally (key : AnalyticsSession -> string) (ss : list AnalyticsSession)
  : list (string * Z) :=
  fold_left (fun m s => JS.upsert (key s) 0 (fun n => n + 1) m) ss [].

Definition toDistribution (total : Z) (m : list (string * Z)) : list DistRow :=
  JS.sort (fun a b => distCount b <=? distCount a)
          (map (fun e => mkDistRow (fst e) (snd e) (share (snd e) total)) m).

Definition deviceOf (s : AnalyticsSession) : string := JS.orElse (deviceType s) "unknown".
Definition browserOf (s : AnalyticsSession) : string := JS.orElse (browser s) "Unknown".
Definition osOf (s : AnalyticsSession) : string := JS.orElse (os s) "Unknown".

Record DevicesData : Type := mkDevicesData {
  devices : list DistRow;
  browsers : list DistRow;
  osList : list DistRow;
  devicesTotal : Z
}.

(** *** Referrers *)

Record SourceAgg : Type := mkSourceAgg {
  srcCount : Z;
  srcVisitors : list string
}.

Definition addToSource (s : AnalyticsSession) (e : SourceAgg) : SourceAgg :=
  mkSourceAgg (srcCount e + 1) (JS.setAdd (visitorId s) (srcVisitors e)).

Section Lowering.
Variable lowerOther : string -> string -> string -> string.

Definition sourceOf (s : AnalyticsSession) : string :=
  Traffic.categorizeTrafficSource lowerOther (referrerDomain s) (utmSource s).

Definition sourceMap (ss : list AnalyticsSession) : list (string * SourceAgg) :=
  fold_left (fun m s => JS.upsert (sourceOf s) (mkSourceAgg 0 []) (addToSource s) m)
            ss [].

End Lowering.

(** The map of the raw referrer domains: sessions without one are
    skipped. *)
Definition referrerMap (ss : list AnalyticsSession) : list (string * SourceAgg) :=
  fold_left (fun m s =>
               if JS.truthy (referrerDomain s)
               then JS.upsert (JS.orElse (referrerDomain s) "") (mkSourceAgg 0 [])
                              (addToSource s) m
               else m)
            ss [].

Record SourceRow : Type := mkSourceRow {
  srcName : string;
  srcSessions : Z;
  srcRowVisitors : Z;
  srcPercentage : Q
}.

Definition sourceRow (total : Z) (entry : string * SourceAgg) : SourceRow :=
  mkSourceRow (fst entry) (srcCount (snd entry))
              (Aggregate.count (srcVisitors (snd entry)))
              (share (srcCount (snd entry)) total).

Definition rankedSources (total : Z) (m : list (string * SourceAgg)) : list SourceRow :=
  JS.sort (fun a b => srcSessions b <=? srcSessions a) (map (sourceRow total) m).

(** *** Realtime *)

Definition activeSessionsAt (now : Z) (st : Store.t) : list AnalyticsSession :=
  filter (fun s => now - 5 * 60 * 1000 <=? lastActiveAt s) (sessions st).

Definition pageOf (s : AnalyticsSession) : string := JS.orElse (exitPage s) "/".

Record ActivePage : Type := mkActivePage {
  apPage : string;
  apCount : Z
}.

Definition rankedActivePages (ss : list AnalyticsSession) : list ActivePage :=
  JS.sort (fun a b => apCount b <=? apCount a)
          (map (fun e => mkActivePage (fst e) (snd e)) (tally pageOf ss)).

Record RealtimeData : Type := mkRealtimeData {
  activeVisitors : Z;
  activeSessions : Z;
  activePages : list ActivePage
}.

(** The [data] of the reply of [getRealtimeHandler]. *)
Definition getRealtimeHandler (now : Z) (st : Store.t) : RealtimeData :=
  let active := activeSessionsAt now st in
  mkRealtimeData (JS.setSize (map visitorId active))
                 (Aggregate.count active)
                 (JS.slice0 (Some 10) (rankedActivePages active)).

Section Zone.
Variable tz : Z.

(** The sessions of the range: the four handlers below share the switch
    of the top-pages view. *)
Definition sessionsOfRange (now : Z) (queryRange : option string) (st : Store.t)
  : list AnalyticsSession :=
  Aggregate.sessionsSince (Aggregate.pagesSince tz now (JS.orElse queryRange "7d")) st.

(** The [data] of the reply of [getGeoHandler]. *)
Definition getGeoHandler (now : Z) (queryRange : option string) (st : Store.t)
  : list CountryRow :=
  JS.slice0 (Some 50) (rankedCountries (sessionsOfRange now queryRange st)).

(** The [data] of the reply of [getDevicesHandler]. *)
Definition getDevicesHandler (now : Z) (queryRange : option string) (st : Store.t)
  : DevicesData :=
  let sessions := sessionsOfRange now queryRange st in
  let total := Aggregate.count sessions in
  mkDevicesData (toDistribution total (tally deviceOf sessions))
                (toDistribution total (tally browserOf sessions))
                (toDistribution total (tally osOf sessions))
                total.

(** The [sources] and [referrers] of the reply of [getReferrersHandler]. *)
Definition getReferrersHandler (lowerOther : string -> string -> string -> string)
    (now : Z) (queryRange : option string) (st : Store.t)
  : list SourceRow * list SourceRow :=
  let sessions := sessionsOfRange now queryRange st in
  let total := Aggregate.count sessions in
  (rankedSources total (sourceMap lowerOther sessions),
   JS.slice0 (Some 20) (rankedSources total (referrerMap sessions))).

End Zone.

End Dashboards.

(** * Vocabulary of the properties *)

Local Open Scope list_scope.

Module Spec.
Import Store Ingest.

(** The parts of a session row that each handler leaves alone. *)
Definition geography (s : AnalyticsSession) :=
  (country s, countryCode s, city s, region s, latitude s, longitude s, timezone s).

Definition provenance (s : AnalyticsSession) :=
  (id s, visitorId s, entryPage s, startedAt s,
   (referrer s, referrerDomain s, utmSource s, utmMedium s, utmCampaign s),
   (deviceType s, browser s, browserVersion s, os s, osVersion s,
    screenWidth s, screenHeight s, language s),
   geography s).

(** Everything but last-active-at, exit page, page-view count and the
    bounced flag. *)
Definition collectFrame (s : AnalyticsSession) := (provenance s, duration s).

(** Everything but last-active-at and duration. *)
Definition heartbeatFrame (s : AnalyticsSession) :=
  (provenance s, exitPage s, pageViewCount s, bounced s).

(** [grown R l l']: [l'] is [l] with its rows related by [R], followed by
    rows added since. *)
Definition grown (A : Type) (R : A -> A -> Prop) (l l' : list A) : Prop :=
  exists kept added, l' = kept ++ added /\ Forall2 R l kept.

(** The filter of the [findFirst] of [collect]. *)
Definition candidateFilter (rt : Runtime) (b : CollectBody) (s : AnalyticsSession)
  : bool :=
  ((id s =? JS.orElse (bSessionId b) "")%string
   && (visitorId s =? bVisitorId b)%string
   && (now rt - 30 * 60 * 1000 <=? lastActiveAt s))%bool.

(** The session that [collect] looks for: a row with the candidate id
    (a candidate that is the empty string counts as none, as for the
    handler), the visitor id of the request, and last activity no more
    than 30 minutes before now. *)
Definition openSession (rt : Runtime) (b : CollectBody) (st : Store.t) : Prop :=
  exists s, In s (sessions st)
            /\ JS.truthy (bSessionId b) = true
            /\ bSessionId b = Some (id s)
            /\ visitorId s = bVisitorId b
            /\ now rt - 30 * 60 * 1000 <= lastActiveAt s.

(** The page views of session [sid] on path [p], as the [findFirst] of
    [heartbeat] filters them. *)
Definition viewsOf (sid p : string) (st : Store.t) : list PageView :=
  filter (fun v => (sessionId v =? sid)%string && (path v =? p)%string)%bool
         (pageViews st).

(** The page-view update of [heartbeat], row by row. *)
Definition ratchet (rt : Runtime) (depth : Z) (lv : PageView) (v : PageView)
  : PageView :=
  if (pvId v =? pvId lv)%string then scrollUpdate rt depth lv v else v.

(** The heartbeats of a client that stays on path [p] of session [sid]:
    one call per pair of an instant and a scroll depth. *)
Definition heartbeats (sid p : string) (feeds : list (Z * Z)) : list Call :=
  map (fun f => Heartbeat (mkRuntime (fst f) "" "")
                          (mkHeartbeatBody sid (Some (snd f)) (Some p)))
      feeds.

(** Rows for examples: a session and a page view with the columns that
    the aggregations read, the others empty. *)
Definition sessionRow (i v : string) (started lastActive dur pvc : Z) (b : bool)
  : AnalyticsSession :=
  mkSession i v "/" (Some "/") started lastActive dur pvc b
    None None None None None None None None None None None None None
    None None None None None None None.

Definition viewRow (i sid p : string) (ts : Z) (top depth : option Z) : PageView :=
  mkPageView i sid p None None ts top depth.

(** The nominal length of a range of the summary statistics. *)
Definition rangeLength (range : string) : Z :=
  if (range =? "today")%string then 86400000
  else if (range =? "30d")%string then 30 * 86400000
  else 7 * 86400000.

(** The start of the current period of the summary statistics: local
    midnight for today, and the length of the range before now
    otherwise. *)
Definition periodStart (tz now : Z) (range : string) : Z :=
  if (range =? "today")%string then (now + tz) / 86400000 * 86400000 - tz
  else now - rangeLength range.

(** The number of elements, the sum, and the number of distinct
    visitors of sessions. *)
Definition size {A : Type} (l : list A) : Z := Z.of_nat (List.length l).

Definition total (l : list Z) : Z := fold_right Z.add 0 l.

Definition distinctVisitors (ss : list AnalyticsSession) : Z :=
  size (nodup string_dec (map visitorId ss)).

(** [x] with one decimal: [Math.round(x * 10) / 10]. *)
Definition oneDecimal (x : Q) : Q := JS.div (inject_Z (JS.round (JS.mul x 10))) 10.

(** The mean duration of sessions in whole seconds, the percentage of
    bounced sessions and the mean number of page views with one decimal;
    each is 0 without sessions. *)
Definition meanDuration (ss : list AnalyticsSession) : Z :=
  match ss with
  | [] => 0
  | _ => JS.round (JS.div (inject_Z (total (map duration ss))) (inject_Z (size ss)))
  end.

Definition bouncePercent (ss : list AnalyticsSession) : Q :=
  match ss with
  | [] => 0%Q
  | _ =>
      oneDecimal
        (JS.mul (JS.div (inject_Z (size (filter bounced ss))) (inject_Z (size ss))) 100)
  end.

Definition meanPageViews (ss : list AnalyticsSession) : Q :=
  match ss with
  | [] => 0%Q
  | _ =>
      oneDecimal (JS.div (inject_Z (total (map pageViewCount ss))) (inject_Z (size ss)))
  end.

(** The start of the range of the top pages: the epoch for all. *)
Definition rangeStart (tz now : Z) (range : string) : Z :=
  if (range =? "all")%string then 0 else periodStart tz now range.

(** A property of a JSON object is a number equal to [q]. *)
Definition numberIs (o : option Aggregate.Json) (q : Q) : Prop :=
  exists x, o = Some (Aggregate.JNum x) /\ (x == q)%Q.

(** The in-range views of a path, the sessions that viewed it, and the
    sessions with exactly one in-range view on any path. *)
Definition viewsOfPath (vs : list PageView) (p : string) : list PageView :=
  filter (fun v => (path v =? p)%string) vs.

Definition sessionsOfPath (vs : list PageView) (p : string) : list string :=
  JS.distinct (map sessionId (viewsOfPath vs p)).

Definition singleView (vs : list PageView) (s : string) : bool :=
  Aggregate.count (filter (fun v => (sessionId v =? s)%string) vs) =? 1.

(** The percentage of the sessions of a path that have a single view. *)
Definition bounceShare (vs : list PageView) (p : string) : Q :=
  (inject_Z (Aggregate.count (filter (singleView vs) (sessionsOfPath vs p)))
   / inject_Z (Aggregate.count (sessionsOfPath vs p)) * 100)%Q.

(** The views of a path with a truthy time on page, that is, recorded
    and not 0; likewise for the scroll depth. *)
Definition timedViews (vs : list PageView) (p : string) : list PageView :=
  filter (fun v => JS.truthyZ (timeOnPage v)) (viewsOfPath vs p).

Definition scrolledViews (vs : list PageView) (p : string) : list PageView :=
  filter (fun v => JS.truthyZ (scrollDepth v)) (viewsOfPath vs p).

(** [Math.round] of the mean of the values [f] over [l], 0 when [l] is
    empty. *)
Definition roundedMean (f : PageView -> Z) (l : list PageView) : Z :=
  if Aggregate.count l >? 0
  then JS.round (Aggregate.quot (Aggregate.sumZ (map f l)) (Aggregate.count l))
  else 0.

(** Five in-range views: session s1 sees /a only, s2 and s3 see /a and
    /b. *)
Definition mixedViews : list PageView :=
  [ viewRow "v1" "s1" "/a" 1000 None None;
    viewRow "v2" "s2" "/a" 2000 None None;
    viewRow "v3" "s2" "/b" 3000 None None;
    viewRow "v4" "s3" "/a" 4000 None None;
    viewRow "v5" "s3" "/b" 5000 None None ].

(** Forty sessions see /a, and the last seventeen of them /b as well. *)
Definition fortyViews : list PageView :=
  map (fun i => viewRow ("a" ++ JSDate.toString (Z.of_nat i))
                        ("s" ++ JSDate.toString (Z.of_nat i)) "/a" 1000 None None)
      (seq 0 40)
  ++ map (fun i => viewRow ("b" ++ JSDate.toString (Z.of_nat i))
                           ("s" ++ JSDate.toString (Z.of_nat i)) "/b" 2000 None None)
         (seq 23 17).

(** Two views of /a: one with time on page 0 and scroll depth 0
    recorded, one with 10 seconds and 50 percent. *)
Definition zeroViews : list PageView :=
  [ viewRow "v1" "s1" "/a" 1000 (Some 0) (Some 0);
    viewRow "v2" "s2" "/a" 2000 (Some 10) (Some 50) ].

(** The views of a path that have a time on page recorded, 0 included;
    likewise for the scroll depth. *)
Definition isRecorded (o : option Z) : bool :=
  match o with
  | Some _ => true
  | None => false
  end.

Definition recordedTimes (vs : list PageView) (p : string) : list PageView :=
  filter (fun v => isRecorded (timeOnPage v)) (viewsOfPath vs p).

Definition recordedScrolls (vs : list PageView) (p : string) : list PageView :=
  filter (fun v => isRecorded (scrollDepth v)) (viewsOfPath vs p).

(** Decimal renderings of fixed width. *)
Definition fourDigits (y : Z) : string :=
  String (JSDate.digitChar (y / 1000))
    (String (JSDate.digitChar (y / 100 mod 10))
       (String (JSDate.digitChar (y / 10 mod 10))
          (String (JSDate.digitChar (y mod 10)) ""))).

Definition twoDigits (n : Z) : string :=
  String (JSDate.digitChar (n / 10)) (String (JSDate.digitChar (n mod 10)) "").

(** The strict order of dates (year, month, day). *)
Definition dateLt (p q : Z * Z * Z) : Prop :=
  let '(y1, m1, d1) := p in
  let '(y2, m2, d2) := q in
  y1 < y2 \/ (y1 = y2 /\ (m1 < m2 \/ (m1 = m2 /\ d1 < d2))).

(** The local year of an instant is written with four digits. *)
Definition fourDigitYear (tz t : Z) : Prop :=
  1000 <= JSDate.getFullYear tz t <= 9999.

(** The in-range views that fall in the bucket of key [k]. *)
Definition bucketViews (tz : Z) (g : Aggregate.Granularity) (vs : list PageView)
    (k : string) : list PageView :=
  filter (fun v => (Aggregate.bucketKey tz g (timestamp v) =? k)%string) vs.

(** The start of the range of the time series: the last 90 days for
    all. *)
Definition seriesStart (tz now : Z) (range : string) : Z :=
  if (range =? "all")%string then now - 90 * 86400000 else periodStart tz now range.

(** The hour or the day of local time that an instant falls in, counted
    from the epoch. *)
Definition period (tz : Z) (g : Aggregate.Granularity) (t : Z) : Z :=
  match g with
  | Aggregate.Hour => (t + tz) / 3600000
  | Aggregate.Day => (t + tz) / 86400000
  end.

(** The label of a day (year, month and day) and of a period: an hour is
    labelled with its day and its hour of the day. *)
Definition dateLabel (day : Z) : string :=
  let '(y, m, d) := JSDate.civil day in
  (JSDate.toString y ++ "-" ++ twoDigits m ++ "-" ++ twoDigits d)%string.

Definition label (g : Aggregate.Granularity) (p : Z) : string :=
  match g with
  | Aggregate.Hour => (dateLabel (p / 24) ++ "T" ++ twoDigits (p mod 24) ++ ":00")%string
  | Aggregate.Day => dateLabel p
  end.

(** The number that a decimal numeral stands for, read after [a]. *)
Fixpoint readDigits (s : string) (a : Z) : Z :=
  match s with
  | EmptyString => a
  | String c r => readDigits r (a * 10 + (Z.of_nat (nat_of_ascii c) - 48))
  end.

(** Five views, not in the order of time: three on 2024-03-10 (UTC), at
    9:00, 10:00 and 23:30, one on 2024-03-14 and one on 2024-03-07, more
    than seven days before [morningNoon]. *)
Definition dayViews : list PageView :=
  [ viewRow "v1" "s1" "/" 1710375000000 None None;
    viewRow "v2" "s1" "/" 1710061200000 None None;
    viewRow "v3" "s2" "/" 1709812800000 None None;
    viewRow "v4" "s2" "/" 1710113400000 None None;
    viewRow "v5" "s1" "/a" 1710064800000 None None ].

(** Three views on 2024-03-15 (UTC), at 10:05, 10:55 and 11:02, and noon
    of that day. *)
Definition morningViews : list PageView :=
  [ viewRow "v1" "s1" "/" 1710497100000 None None;
    viewRow "v2" "s2" "/pricing" 1710500100000 None None;
    viewRow "v3" "s1" "/contact" 1710500520000 None None ].

Definition morningNoon : Z := 1710504000000.

(** A store with one session of the week before and one of the current
    week, seen from [statsNow]. *)
Definition twoWeeks : Store.t :=
  mkStore [ sessionRow "s1" "v1" 1699000000000 1699000000000 10 2 false;
            sessionRow "s2" "v2" 1699900000000 1699900000000 30 4 false ]
          [].

Definition statsNow : Z := 1700000000000.

(** A store with one session before the two weeks, two sessions of the
    week before [statsNow] and three of the week up to it, and their page
    views. *)
Definition busyWeeks : Store.t :=
  mkStore [ sessionRow "s0" "v0" 1698000000000 1698000000000 5 1 true;
            sessionRow "s1" "v1" 1699000000000 1699000000000 10 1 true;
            sessionRow "s2" "v2" 1699100000000 1699100000000 20 2 false;
            sessionRow "s3" "v1" 1699500000000 1699500000000 40 1 true;
            sessionRow "s4" "v3" 1699600000000 1699600000000 50 2 false;
            sessionRow "s5" "v3" 1699900000000 1699900000000 60 2 false ]
          [ viewRow "p0" "s0" "/" 1698000000000 None None;
            viewRow "p1" "s1" "/" 1699000000000 None None;
            viewRow "p2" "s2" "/" 1699100000000 None None;
            viewRow "p3" "s2" "/a" 1699100001000 None None;
            viewRow "p4" "s3" "/" 1699500000000 None None;
            viewRow "p5" "s4" "/" 1699600000000 None None;
            viewRow "p6" "s4" "/a" 1699600001000 None None;
            viewRow "p7" "s5" "/" 1699900000000 None None;
            viewRow "p8" "s5" "/b" 1699900001000 None None ].

(** A store with one session, last active at instant 1000000, and its
    page view, without scroll depth so far. *)
Definition oneVisit : Store.t :=
  mkStore [ sessionRow "s1" "v1" 1000000 1000000 0 1 true ]
          [ viewRow "p1" "s1" "/a" 1000000 None None ].

(** A store with one session that saw /a three times, last at instant
    1300000 (the second row of the table), and then /b. *)
Definition returningVisit : Store.t :=
  mkStore [ sessionRow "s1" "v1" 1000000 1400000 0 4 false ]
          [ viewRow "p1" "s1" "/a" 1000000 None (Some 30);
            viewRow "p2" "s1" "/a" 1300000 None None;
            viewRow "p3" "s1" "/a" 1200000 None (Some 70);
            viewRow "p4" "s1" "/b" 1400000 None None ].

(** A [collect] request of visitor [v] with candidate session [c]. *)
Definition collectOf (v : string) (c : option string) (p : string) : CollectRequest :=
  mkCollectRequest None None
    (mkCollectBody v c p None None None None None None None None None None None None
                   None).

Definition noHostname (u : string) : option string := None.
Definition noGeo (ip : string) : option GeoData := None.

End Spec.

(** * Vocabulary of the further properties *)

Module Terms.
Import Store Ingest.

(** The taxonomy of traffic sources. *)
Definition utmCategories : list string :=
  ["Organic Search"; "Social Media"; "Email"; "Paid Ads"; "Campaign"].

Definition referrerCategories : list string :=
  ["Direct"; "Organic Search"; "Social Media"; "Referral"].

(** Text of ASCII characters none of which is an upper-case letter. *)
Fixpoint plainText (s : string) : bool :=
  match s with
  | EmptyString => true
  | String c r =>
      (JS.isAscii c && Ascii.eqb (JS.lowerChar c) c && plainText r)%bool
  end.

(** Text of ASCII characters, and the folding of its letters. *)
Fixpoint asciiText (s : string) : bool :=
  match s with
  | EmptyString => true
  | String c r => (JS.isAscii c && asciiText r)%bool
  end.

Fixpoint asciiFold (s : string) : string :=
  match s with
  | EmptyString => EmptyString
  | String c r => String (JS.lowerChar c) (asciiFold r)
  end.

Definition asciiOpt (o : option string) : bool :=
  match o with
  | Some s => asciiText s
  | None => true
  end.

Definition lowerOpt (lowerOther : string -> string -> string -> string)
    (o : option string) : option string :=
  option_map (JS.toLowerCase lowerOther) o.

(** [pct] is the percentage of the share [a] to one decimal: the double
    nearest to [n / 10] for an integer [n] within one half (and what the
    doubles lose) of a thousand times [a]. *)
Definition tenthsOf (pct a : Q) : Prop :=
  exists n : Z,
    pct = JS.div (inject_Z n) 10
    /\ (Qabs (inject_Z n - a * 1000) <= (1 # 2) + (1 # 1000000000))%Q.

(** [rows] tallies [items] by [key]: one row per key that occurs, with
    the number of items that have it, the rows in descending order of
    that number. *)
Definition tallies {A R : Type} (name : R -> string) (cnt : R -> Z)
    (key : A -> string) (items : list A) (rows : list R) : Prop :=
  NoDup (map name rows)
  /\ (forall r, In r rows ->
        cnt r = Aggregate.count (filter (fun x => (key x =? name r)%string) items)
        /\ 1 <= cnt r)
  /\ (forall x, In x items -> In (key x) (map name rows))
  /\ Aggregate.sumZ (map cnt rows) = Aggregate.count items
  /\ StronglySorted (fun a b => cnt b <= cnt a) rows.

(** The distinct visitors among the items that have key [k]. *)
Definition visitorsOf (key : AnalyticsSession -> string) (ss : list AnalyticsSession)
    (k : string) : list string :=
  JS.distinct (map visitorId (filter (fun s => (key s =? k)%string) ss)).

(** The store is well formed: session ids are unique, page-view ids are
    unique, and every page view belongs to a session of the store. *)
Definition wellFormed (st : Store.t) : Prop :=
  NoDup (map id (sessions st))
  /\ NoDup (map pvId (pageViews st))
  /\ forall v, In v (pageViews st) -> In (sessionId v) (map id (sessions st)).

(** The number of page views of a session, and what its counter shows
    beyond them. *)
Definition viewsOfSession (st : Store.t) (sid : string) : Z :=
  Aggregate.count (filter (fun v => (sessionId v =? sid)%string) (pageViews st)).

Definition surplus (st : Store.t) (s : AnalyticsSession) : Z :=
  pageViewCount s - viewsOfSession st (id s).

(** The reply of a handler run, when it has one with status code [c]. *)
Definition replied (out : Outcome Reply * Store.t) (c : Z) : Prop :=
  exists r, fst out = Returned r /\ code r = c.

(** The page views that [heartbeat] leaves: the latest view of the session
    and path ratcheted when a depth and a path are given and such a view
    exists, and the table as it was otherwise. *)
Definition afterHeartbeat (rt : Runtime) (b : HeartbeatBody) (st : Store.t)
  : list PageView :=
  match hScrollDepth b with
  | Some depth =>
      if JS.truthy (hPath b) then
        match latest (Spec.viewsOf (hSessionId b) (JS.orElse (hPath b) "") st) with
        | Some lv => map (Spec.ratchet rt depth lv) (pageViews st)
        | None => pageViews st
        end
      else pageViews st
  | None => pageViews st
  end.

(** No call of a run is answered with status 500. *)
Fixpoint noFailure (h : Call -> Prisma Reply) (calls : list Call) (st : Store.t)
  : Prop :=
  match calls with
  | [] => True
  | c :: rest => ~ replied (h c st) 500 /\ noFailure h rest (snd (h c st))
  end.

End Terms.


(** * Properties *)

Unset Implicit Arguments.

(** ** The numbers of the runtime *)

Section DoubleFacts.
Import JS.

Lemma pow2_pos (k : Z) : (0 < 2 ^ k)%Q.
Proof. apply Qpower_0_lt. reflexivity. Qed.

Lemma two_nonzero : ~ (2 == 0)%Q.
Proof. discriminate. Qed.

Lemma pow2_add (a b : Z) : (2 ^ (a + b) == 2 ^ a * 2 ^ b)%Q.
Proof. apply Qpower_plus, two_nonzero. Qed.

Lemma pow2_sub (a b : Z) : (2 ^ (a - b) == 2 ^ a / 2 ^ b)%Q.
Proof. apply Qpower_minus, two_nonzero. Qed.

Lemma pow2_le (a b : Z) : a <= b -> (2 ^ a <= 2 ^ b)%Q.
Proof. intros H. apply Qpower_le_compat_l; [exact H | discriminate]. Qed.

Lemma pow2_lt (a b : Z) : a < b -> (2 ^ a < 2 ^ b)%Q.
Proof. intros H. apply Qpower_lt_compat_l; [exact H | reflexivity]. Qed.

Lemma pow2_lt_inv (a b : Z) : (2 ^ a < 2 ^ b)%Q -> a < b.
Proof. intros H. eapply Qpower_lt_compat_l_inv; [exact H | reflexivity]. Qed.

Lemma pow2_Z (k : Z) : 0 <= k -> (inject_Z (2 ^ k) == 2 ^ k)%Q.
Proof. intros H. now rewrite (Zpower_Qpower 2 k H). Qed.

(** A fraction of positive integers between powers of two. *)
Lemma frac_bounds (n d a b : Z) :
  0 <= a -> 0 <= b -> 0 < d ->
  2 ^ a <= n < 2 ^ (a + 1) -> 2 ^ b <= d < 2 ^ (b + 1) ->
  (2 ^ (a - b - 1) < inject_Z n / inject_Z d)%Q
  /\ (inject_Z n / inject_Z d < 2 ^ (a - b + 1))%Q.
Proof.
  intros Ha Hb Hd [Hn1 Hn2] [Hd1 Hd2].
  assert (Dpos : (0 < inject_Z d)%Q) by (change 0%Q with (inject_Z 0); now rewrite <- Zlt_Qlt).
  rewrite Zle_Qle, pow2_Z in Hn1, Hd1 by lia.
  rewrite Zlt_Qlt, pow2_Z in Hn2, Hd2 by lia.
  pose proof (pow2_pos a) as Pa. pose proof (pow2_pos b) as Pb.
  pose proof (pow2_pos (a - b - 1)) as P1. pose proof (pow2_pos (a - b + 1)) as P2.
  assert (E1 : (2 ^ (a - b - 1) * 2 ^ (b + 1) == 2 ^ a)%Q).
  { rewrite <- pow2_add. now replace (a - b - 1 + (b + 1)) with a by lia. }
  assert (E2 : (2 ^ (a - b + 1) * 2 ^ b == 2 ^ (a + 1))%Q).
  { rewrite <- pow2_add. now replace (a - b + 1 + b) with (a + 1) by lia. }
  split.
  - apply Qlt_shift_div_l; [exact Dpos |].
    apply Qlt_le_trans with (2 ^ (a - b - 1) * 2 ^ (b + 1))%Q; [| now rewrite E1].
    apply Qmult_lt_l; assumption.
  - apply Qlt_shift_div_r; [exact Dpos |].
    apply Qlt_le_trans with (2 ^ (a + 1))%Q; [exact Hn2 |].
    rewrite <- E2. apply Qmult_le_l; assumption.
Qed.

Lemma Qabs_frac (x : Q) :
  (Qabs x == inject_Z (Z.abs (Qnum x)) / inject_Z (Zpos (Qden x)))%Q.
Proof.
  destruct x as [n d]. cbn [Qnum Qden]. rewrite <- Zabs_Qabs.
  unfold Qeq, Qdiv, Qmult, Qinv, inject_Z. simpl. lia.
Qed.

Lemma binade_spec (x : Q) :
  ~ (x == 0)%Q -> (2 ^ binade x <= Qabs x)%Q /\ (Qabs x < 2 ^ (binade x + 1))%Q.
Proof.
  intros Hx.
  assert (Hn : 0 < Z.abs (Qnum x)).
  { destruct x as [n d]. unfold Qeq in Hx. simpl in *. lia. }
  set (n := Z.abs (Qnum x)) in *. set (d := Zpos (Qden x)).
  assert (Hd : 0 < d) by (subst d; lia).
  destruct (Z.log2_spec n Hn) as [N1 N2]. destruct (Z.log2_spec d Hd) as [D1 D2].
  pose proof (Z.log2_nonneg n) as Ln. pose proof (Z.log2_nonneg d) as Ld.
  rewrite <- Z.add_1_r in N2, D2.
  destruct (frac_bounds n d (Z.log2 n) (Z.log2 d) Ln Ld Hd (conj N1 N2) (conj D1 D2))
    as [B1 B2].
  assert (F : (Qabs x == inject_Z n / inject_Z d)%Q) by apply Qabs_frac.
  rewrite <- F in B1, B2.
  unfold binade. fold n d. cbv zeta.
  destruct (Qle_bool (2 ^ (Z.log2 n - Z.log2 d)) (Qabs x)) eqn:E.
  - apply Qle_bool_iff in E. split; assumption.
  - assert (L : (Qabs x < 2 ^ (Z.log2 n - Z.log2 d))%Q).
    { apply Qnot_le_lt. intros H. apply Qle_bool_iff in H. congruence. }
    split; [now apply Qlt_le_weak |].
    now replace (Z.log2 n - Z.log2 d - 1 + 1) with (Z.log2 n - Z.log2 d) by lia.
Qed.

Lemma nearestEven_comp (q q' : Q) : (q == q')%Q -> nearestEven q = nearestEven q'.
Proof.
  intros H. unfold nearestEven. cbv zeta. rewrite (Qfloor_comp _ _ H).
  assert (E : (q - inject_Z (Qfloor q') == q' - inject_Z (Qfloor q'))%Q) by (rewrite H; reflexivity).
  now rewrite (Qcompare_comp _ _ E _ _ (Qeq_refl (1 # 2))).
Qed.

Lemma nearestEven_near (q : Q) :
  (inject_Z (nearestEven q) - (1 # 2) <= q)%Q
  /\ (q <= inject_Z (nearestEven q) + (1 # 2))%Q.
Proof.
  unfold nearestEven. cbv zeta.
  pose proof (Qfloor_le q) as F1. pose proof (Qlt_floor q) as F2.
  rewrite inject_Z_plus in F2. change (inject_Z 1) with 1%Q in F2.
  destruct (Qcompare_spec (q - inject_Z (Qfloor q)) (1 # 2)) as [E | L | G].
  - destruct (Z.even (Qfloor q)); rewrite ?inject_Z_plus;
      change (inject_Z 1) with 1%Q; split; lra.
  - split; lra.
  - rewrite inject_Z_plus. change (inject_Z 1) with 1%Q. split; lra.
Qed.

Lemma nearestEven_Z (n : Z) : nearestEven (inject_Z n) = n.
Proof.
  unfold nearestEven. cbv zeta. rewrite Qfloor_Z.
  destruct (Qcompare_spec (inject_Z n - inject_Z n) (1 # 2)) as [E | L | G];
    [lra | reflexivity | lra].
Qed.

Lemma nearestEven_mono (q q' : Q) :
  (q <= q')%Q -> nearestEven q <= nearestEven q'.
Proof.
  intros H. pose proof (Qfloor_resp_le _ _ H) as Hf.
  unfold nearestEven. cbv zeta.
  pose proof (Qfloor_le q) as F1. pose proof (Qlt_floor q) as F2.
  pose proof (Qfloor_le q') as F1'. pose proof (Qlt_floor q') as F2'.
  rewrite inject_Z_plus in F2, F2'. change (inject_Z 1) with 1%Q in F2, F2'.
  destruct (Z.eq_dec (Qfloor q) (Qfloor q')) as [E | N].
  - rewrite <- E in *.
    destruct (Qcompare_spec (q - inject_Z (Qfloor q)) (1 # 2)) as [E1 | L1 | G1];
      destruct (Qcompare_spec (q' - inject_Z (Qfloor q)) (1 # 2)) as [E2 | L2 | G2];
      try destruct (Z.even (Qfloor q)); try lia; lra.
  - assert (Hlt : Qfloor q + 1 <= Qfloor q') by lia.
    destruct (Qcompare_spec (q - inject_Z (Qfloor q)) (1 # 2)) as [E1 | L1 | G1];
      destruct (Qcompare_spec (q' - inject_Z (Qfloor q')) (1 # 2)) as [E2 | L2 | G2];
      try destruct (Z.even (Qfloor q)); try destruct (Z.even (Qfloor q')); lia.
Qed.

Lemma nearestEven_lower (a : Z) (q : Q) :
  (inject_Z a <= q)%Q -> a <= nearestEven q.
Proof. intros H. rewrite <- (nearestEven_Z a). now apply nearestEven_mono. Qed.

Lemma nearestEven_upper (b : Z) (q : Q) :
  (q <= inject_Z b)%Q -> nearestEven q <= b.
Proof. intros H. rewrite <- (nearestEven_Z b). now apply nearestEven_mono. Qed.

Lemma toDouble_zero (x : Q) : (x == 0)%Q -> toDouble x = 0%Q.
Proof. intros H. unfold toDouble. apply Qeq_bool_iff in H. now rewrite H. Qed.

Lemma toDouble_pos (x : Q) :
  (0 < x)%Q ->
  (toDouble x == inject_Z (nearestEven (x / 2 ^ (expo x - 52))) * 2 ^ (expo x - 52))%Q.
Proof.
  intros H. unfold toDouble.
  destruct (Qeq_bool x 0) eqn:E; [apply Qeq_bool_iff in E; lra |].
  cbv zeta. fold (expo x). rewrite Qred_correct.
  assert (L : Qle_bool 0 x = true) by (apply Qle_bool_iff; lra).
  rewrite L, Qmult_1_l.
  assert (A : (Qabs x / 2 ^ (expo x - 52) == x / 2 ^ (expo x - 52))%Q).
  { now rewrite (Qabs_pos x) by lra. }
  now rewrite (nearestEven_comp _ _ A).
Qed.

Lemma binade_opp (x : Q) : binade (- x) = binade x.
Proof.
  destruct x as [n d]. unfold binade, Qopp, Qabs. cbn [Qnum Qden].
  now rewrite Z.abs_opp.
Qed.

Lemma toDouble_opp (x : Q) : (toDouble (- x) == - toDouble x)%Q.
Proof.
  unfold toDouble. rewrite binade_opp.
  assert (A : Qabs (- x) = Qabs x).
  { destruct x as [n d]. unfold Qopp, Qabs. cbn [Qnum Qden]. now rewrite Z.abs_opp. }
  rewrite A.
  destruct (Qeq_bool x 0) eqn:E.
  - assert (E' : Qeq_bool (- x) 0 = true).
    { apply Qeq_bool_iff in E. apply Qeq_bool_iff. lra. }
    rewrite E'. reflexivity.
  - assert (E' : Qeq_bool (- x) 0 = false).
    { destruct (Qeq_bool (- x) 0) eqn:F; [| reflexivity].
      apply Qeq_bool_iff in F. apply Qeq_bool_neq in E. exfalso. apply E. lra. }
    rewrite E'. cbv zeta. rewrite !Qred_correct.
    apply Qeq_bool_neq in E.
    destruct (Qle_bool 0 x) eqn:P; destruct (Qle_bool 0 (- x)) eqn:N;
      try apply Qle_bool_iff in P; try apply Qle_bool_iff in N.
    + exfalso. apply E. lra.
    + ring.
    + ring.
    + exfalso.
      assert (H1 : ~ (0 <= x)%Q) by (intros H; apply Qle_bool_iff in H; congruence).
      assert (H2 : ~ (0 <= - x)%Q) by (intros H; apply Qle_bool_iff in H; congruence).
      lra.
Qed.

Lemma expo_spec (x : Q) :
  (0 < x)%Q ->
  (x < 2 ^ (expo x + 1))%Q
  /\ (expo x = binade x /\ (2 ^ expo x <= x)%Q \/ expo x = -1022 /\ binade x < -1022).
Proof.
  intros H. assert (Hx : ~ (x == 0)%Q) by lra.
  destruct (binade_spec x Hx) as [B1 B2]. rewrite (Qabs_pos x) in B1, B2 by lra.
  unfold expo. destruct (Z.max_spec (binade x) (-1022)) as [[L ->] | [L ->]].
  - split; [| right; split; [reflexivity | lia]].
    eapply Qlt_le_trans; [exact B2 |]. apply pow2_le. lia.
  - split; [exact B2 | left; split; [reflexivity | exact B1]].
Qed.

(** The rounding error: half a unit in the last place. *)
Lemma toDouble_error_pos (x : Q) :
  (0 < x)%Q ->
  (Qabs (toDouble x - x) <= x * 2 ^ (-53) + 2 ^ (-1075))%Q.
Proof.
  intros H. rewrite (toDouble_pos x H).
  destruct (expo_spec x H) as [_ He].
  set (e := expo x) in *. set (U := (2 ^ (e - 52))%Q).
  assert (PU : (0 < U)%Q) by apply pow2_pos.
  destruct (nearestEven_near (x / U)) as [N1 N2].
  set (m := inject_Z (nearestEven (x / U))) in *.
  assert (Hq : (x / U * U == x)%Q) by (field; lra).
  assert (Hhalf : (U * (1 # 2) == 2 ^ (e - 53))%Q).
  { unfold U. change (1 # 2)%Q with (2 ^ (-1))%Q. rewrite <- pow2_add.
    now replace (e - 52 + -1) with (e - 53) by lia. }
  assert (Herr : (Qabs (m * U - x) <= 2 ^ (e - 53))%Q).
  { rewrite <- Hhalf. apply Qabs_Qle_condition.
    split; nra. }
  eapply Qle_trans; [exact Herr |].
  pose proof (pow2_pos (-53)) as P53. pose proof (pow2_pos (-1075)) as P1075.
  destruct He as [[_ Hle] | [He _]].
  - assert (E : (2 ^ (e - 53) == 2 ^ e * 2 ^ (-53))%Q).
    { rewrite <- pow2_add. now replace (e + -53) with (e - 53) by lia. }
    rewrite E. nra.
  - rewrite He. change (-1022 - 53) with (-1075). nra.
Qed.

Lemma toDouble_error (x : Q) :
  (Qabs (toDouble x - x) <= Qabs x * 2 ^ (-53) + 2 ^ (-1075))%Q.
Proof.
  destruct (Q_dec x 0) as [[N | P] | Z0].
  - assert (P : (0 < - x)%Q) by lra.
    pose proof (toDouble_error_pos (- x) P) as H.
    rewrite toDouble_opp in H.
    assert (E : (- toDouble x - - x == - (toDouble x - x))%Q) by ring.
    rewrite E, Qabs_opp in H. now rewrite (Qabs_neg x) by lra.
  - rewrite (Qabs_pos x) by lra. now apply toDouble_error_pos.
  - rewrite (toDouble_zero x Z0), Z0. 
    pose proof (pow2_pos (-53)) as P53. pose proof (pow2_pos (-1075)) as P1075.
    assert (E : (Qabs (0 - 0) == 0)%Q) by reflexivity.
    rewrite E. change (Qabs 0) with 0%Q. nra.
Qed.

Lemma binade_mono_pos (x y : Q) :
  (0 < x)%Q -> (x <= y)%Q -> binade x <= binade y.
Proof.
  intros Hx Hxy.
  destruct (binade_spec x) as [B1 _]; [lra |].
  destruct (binade_spec y) as [_ B2]; [lra |].
  rewrite (Qabs_pos x) in B1 by lra. rewrite (Qabs_pos y) in B2 by lra.
  assert (L : (2 ^ binade x < 2 ^ (binade y + 1))%Q) by lra.
  apply pow2_lt_inv in L. lia.
Qed.

Lemma toDouble_nonneg (x : Q) : (0 <= x)%Q -> (0 <= toDouble x)%Q.
Proof.
  intros H. destruct (Qle_lt_or_eq _ _ H) as [P | Z0].
  - rewrite (toDouble_pos x P).
    pose proof (pow2_pos (expo x - 52)) as PU.
    assert (M : 0 <= nearestEven (x / 2 ^ (expo x - 52))).
    { apply nearestEven_lower. change (inject_Z 0) with 0%Q.
      apply Qle_shift_div_l; [exact PU | lra]. }
    rewrite Zle_Qle in M. change (inject_Z 0) with 0%Q in M. nra.
  - rewrite (toDouble_zero x); [lra | now symmetry].
Qed.

Lemma toDouble_mono_pos (x y : Q) :
  (0 < x)%Q -> (x <= y)%Q -> (toDouble x <= toDouble y)%Q.
Proof.
  intros Hx Hxy. assert (Hy : (0 < y)%Q) by lra.
  rewrite (toDouble_pos x Hx), (toDouble_pos y Hy).
  destruct (expo_spec x Hx) as [X2 _]. destruct (expo_spec y Hy) as [_ Y1].
  pose proof (binade_mono_pos x y Hx Hxy) as Hb.
  assert (He : expo x <= expo y) by (unfold expo; lia).
  set (ex := expo x) in *. set (ey := expo y) in *.
  pose proof (pow2_pos (ex - 52)) as PUx. pose proof (pow2_pos (ey - 52)) as PUy.
  destruct (Z.eq_dec ex ey) as [E | N].
  - rewrite <- E.
    assert (M : nearestEven (x / 2 ^ (ex - 52)) <= nearestEven (y / 2 ^ (ex - 52))).
    { apply nearestEven_mono. apply Qmult_le_compat_r; [exact Hxy |].
      apply Qlt_le_weak, Qinv_lt_0_compat, PUx. }
    rewrite Zle_Qle in M. nra.
  - assert (Hlt : ex < ey) by lia.
    assert (Y : (2 ^ ey <= y)%Q).
    { destruct Y1 as [[_ Y] | [Y _]]; [exact Y |]. unfold ex, expo in Hlt. lia. }
    assert (Mx : nearestEven (x / 2 ^ (ex - 52)) <= 2 ^ 53).
    { apply nearestEven_upper. rewrite pow2_Z by lia.
      apply Qle_shift_div_r; [exact PUx |].
      rewrite <- pow2_add. replace (53 + (ex - 52)) with (ex + 1) by lia. lra. }
    assert (My : 2 ^ 52 <= nearestEven (y / 2 ^ (ey - 52))).
    { apply nearestEven_lower. rewrite pow2_Z by lia.
      apply Qle_shift_div_l; [exact PUy |].
      rewrite <- pow2_add. now replace (52 + (ey - 52)) with ey by lia. }
    rewrite Zle_Qle, pow2_Z in Mx, My by lia.
    apply Qle_trans with (2 ^ (ex + 1))%Q.
    + assert (E1 : (2 ^ (ex + 1) == 2 ^ 53 * 2 ^ (ex - 52))%Q).
      { rewrite <- pow2_add. now replace (53 + (ex - 52)) with (ex + 1) by lia. }
      rewrite E1. apply Qmult_le_compat_r; [exact Mx | lra].
    + apply Qle_trans with (2 ^ ey)%Q; [apply pow2_le; lia |].
      assert (E2 : (2 ^ ey == 2 ^ 52 * 2 ^ (ey - 52))%Q).
      { rewrite <- pow2_add. now replace (52 + (ey - 52)) with ey by lia. }
      rewrite E2. apply Qmult_le_compat_r; [exact My | lra].
Qed.

(** Rounding to a double is monotone. *)
Lemma toDouble_mono (x y : Q) : (x <= y)%Q -> (toDouble x <= toDouble y)%Q.
Proof.
  intros H.
  destruct (Qlt_le_dec 0 x) as [Px | Nx].
  - now apply toDouble_mono_pos.
  - destruct (Qlt_le_dec y 0) as [Ny | Py].
    + assert (P : (0 < - y)%Q) by lra.
      pose proof (toDouble_mono_pos (- y) (- x) P) as M.
      rewrite !toDouble_opp in M. 
      assert (M' : (- toDouble y <= - toDouble x)%Q) by (apply M; lra). lra.
    + pose proof (toDouble_nonneg y Py) as H1.
      assert (P : (0 <= - x)%Q) by lra.
      pose proof (toDouble_nonneg (- x) P) as H2. rewrite toDouble_opp in H2. lra.
Qed.
Lemma toDouble_near (x : Q) :
  (Qabs (toDouble x - x) <= Qabs x * ulpHalf + tiny)%Q.
Proof.
  eapply Qle_trans; [apply toDouble_error |].
  assert (T : (2 ^ (-1075) <= tiny)%Q).
  { apply Qle_trans with (2 ^ (-100))%Q; [apply pow2_le; lia |].
    unfold tiny. vm_compute. discriminate. }
  assert (U : (2 ^ (-53) == ulpHalf)%Q) by reflexivity.
  rewrite U. lra.
Qed.

Lemma Qabs_bound (x y b : Q) : (Qabs (x - y) <= b)%Q -> (Qabs x <= Qabs y + b)%Q.
Proof.
  intros H. pose proof (Qabs_triangle (x - y) y) as T.
  assert (E : (x - y + y == x)%Q) by ring. rewrite E in T. lra.
Qed.

Lemma round_near (x : Q) :
  (Qabs (inject_Z (round x) - x) <= 1 # 2)%Q.
Proof.
  unfold round. pose proof (Qfloor_le (x + (1 # 2))) as F1.
  pose proof (Qlt_floor (x + (1 # 2))) as F2.
  rewrite inject_Z_plus in F2. change (inject_Z 1) with 1%Q in F2.
  apply Qabs_Qle_condition. split; lra.
Qed.

(** [Math.round(a * 100 * 10)] on the double [fl a]. *)
Lemma permille_near (a x : Q) (b : Q) :
  (Qabs (x - a) <= b)%Q ->
  (Qabs (inject_Z (round (mul (mul x 100) 10)) - a * 1000)
   <= (1 # 2) + Qabs a * (1 # 1000000000000) + 1001 * b + tiny * 12)%Q.
Proof.
  intros Hx. unfold mul.
  pose proof (Qabs_bound _ _ _ Hx) as B2.
  pose proof (toDouble_near (x * 100)) as H3.
  pose proof (Qabs_bound _ _ _ H3) as B3.
  pose proof (toDouble_near (toDouble (x * 100) * 10)) as H4.
  pose proof (round_near (toDouble (toDouble (x * 100) * 10))) as H5.
  rewrite Qabs_Qmult in H3, B3, H4. 
  change (Qabs 100) with 100%Q in *. change (Qabs 10) with 10%Q in *.
  pose proof (Qabs_nonneg a) as A0. pose proof (Qabs_nonneg x) as X0.
  pose proof (Qabs_nonneg (toDouble (x * 100))) as Y0.
  assert (Hb : (0 <= b)%Q).
  { eapply Qle_trans; [apply Qabs_nonneg | exact Hx]. }
  set (x3 := toDouble (x * 100)) in *.
  set (x4 := toDouble (x3 * 10)) in *.
  set (n := inject_Z (round x4)) in *.
  apply Qabs_Qle_condition in Hx, H3, H4, H5.
  set (A := Qabs a) in *. set (X := Qabs x) in *. set (Y := Qabs x3) in *.
  unfold ulpHalf, tiny in *.
  apply Qabs_Qle_condition. split; lra.
Qed.

(** [Math.round(a * 100)] on the double nearest to [a]. *)
Lemma percent_near (a : Q) :
  (Qabs (inject_Z (round (mul (toDouble a) 100)) - a * 100)
   <= (1 # 2) + Qabs a * (1 # 10000000000000) + tiny * 102)%Q.
Proof.
  unfold mul.
  pose proof (toDouble_near a) as H1.
  pose proof (Qabs_bound _ _ _ H1) as B1.
  pose proof (toDouble_near (toDouble a * 100)) as H2.
  pose proof (round_near (toDouble (toDouble a * 100))) as H3.
  rewrite Qabs_Qmult in H2. change (Qabs 100) with 100%Q in *.
  pose proof (Qabs_nonneg a) as A0. pose proof (Qabs_nonneg (toDouble a)) as X0.
  set (x := toDouble a) in *. set (y := toDouble (x * 100)) in *.
  set (n := inject_Z (round y)) in *.
  apply Qabs_Qle_condition in H1, H2, H3.
  set (A := Qabs a) in *. set (X := Qabs x) in *.
  unfold ulpHalf, tiny in *.
  apply Qabs_Qle_condition. split; lra.
Qed.

(** Rounding keeps a number on its side of a double. *)
Lemma toDouble_below (x c : Q) : toDouble c = c -> (x <= c)%Q -> (toDouble x <= c)%Q.
Proof. intros E H. rewrite <- E. now apply toDouble_mono. Qed.

Lemma div_unit (part total : Z) :
  0 <= part <= total -> 0 < total ->
  (0 <= div (inject_Z part) (inject_Z total))%Q
  /\ (div (inject_Z part) (inject_Z total) <= 1)%Q.
Proof.
  intros H Hpos. unfold div.
  assert (Ht : (0 < inject_Z total)%Q)
    by (change 0%Q with (inject_Z 0); now rewrite <- Zlt_Qlt).
  split.
  - apply toDouble_nonneg. apply Qle_shift_div_l; [exact Ht |]. rewrite Qmult_0_l.
    change 0%Q with (inject_Z 0). rewrite <- Zle_Qle. lia.
  - apply toDouble_below; [reflexivity |].
    apply Qle_shift_div_r; [exact Ht |]. rewrite Qmult_1_l. rewrite <- Zle_Qle. lia.
Qed.

Lemma mul_range (x k hi : Q) :
  toDouble hi = hi -> (0 <= k)%Q ->
  (0 <= x)%Q -> (x * k <= hi)%Q ->
  (0 <= mul x k)%Q /\ (mul x k <= hi)%Q.
Proof.
  intros E Hk H0 H1. unfold mul. split.
  - apply toDouble_nonneg. nra.
  - now apply toDouble_below.
Qed.

Lemma round_range (x : Q) (lo hi : Z) :
  (inject_Z lo <= x)%Q -> (x <= inject_Z hi)%Q -> lo <= round x <= hi.
Proof.
  intros Hlo Hhi. unfold round.
  pose proof (Qfloor_le (x + (1 # 2))) as H1.
  pose proof (Qlt_floor (x + (1 # 2))) as H2.
  set (n := Qfloor (x + (1 # 2))) in *.
  split.
  - assert (H : (inject_Z lo < inject_Z (n + 1))%Q) by lra.
    rewrite <- Zlt_Qlt in H. lia.
  - assert (H : (inject_Z n < inject_Z (hi + 1))%Q).
    { rewrite inject_Z_plus. change (inject_Z 1) with 1%Q. lra. }
    rewrite <- Zlt_Qlt in H. lia.
Qed.

(** [Math.round(part / total * 100)] is a percentage. *)
Lemma percent_range (part total : Z) :
  0 <= part <= total -> 0 < total ->
  0 <= round (mul (div (inject_Z part) (inject_Z total)) 100) <= 100.
Proof.
  intros H Hpos. destruct (div_unit part total H Hpos) as [Q0 Q1].
  destruct (mul_range (div (inject_Z part) (inject_Z total)) 100 100) as [M0 M1];
    [reflexivity | discriminate | exact Q0 | lra |].
  apply round_range.
  - change (inject_Z 0) with 0%Q. exact M0.
  - change (inject_Z 100) with 100%Q. exact M1.
Qed.

(** [Math.round(part / total * 100 * 10) / 10] is a percentage. *)
Lemma permille_range (part total : Z) :
  0 <= part <= total -> 0 < total ->
  let n := round (mul (mul (div (inject_Z part) (inject_Z total)) 100) 10) in
  0 <= n <= 1000
  /\ (0 <= div (inject_Z n) 10)%Q /\ (div (inject_Z n) 10 <= 100)%Q.
Proof.
  intros H Hpos n. destruct (div_unit part total H Hpos) as [Q0 Q1].
  destruct (mul_range (div (inject_Z part) (inject_Z total)) 100 100) as [M0 M1];
    [reflexivity | discriminate | exact Q0 | lra |].
  destruct (mul_range (mul (div (inject_Z part) (inject_Z total)) 100) 10 1000)
    as [N0 N1]; [reflexivity | discriminate | exact M0 | lra |].
  assert (R : 0 <= n <= 1000).
  { apply round_range.
    - change (inject_Z 0) with 0%Q. exact N0.
    - change (inject_Z 1000) with 1000%Q. exact N1. }
  split; [exact R |]. destruct R as [R0 R1]. rewrite Zle_Qle in R0, R1.
  change (inject_Z 0) with 0%Q in R0. change (inject_Z 1000) with 1000%Q in R1.
  unfold div. split.
  - apply toDouble_nonneg. apply Qle_shift_div_l; [reflexivity | lra].
  - apply toDouble_below; [reflexivity |].
    apply Qle_shift_div_r; [reflexivity | lra].
Qed.

End DoubleFacts.

(** ** The strings of the runtime *)

Section TextFacts.

Lemma sapp_assoc (a b c : string) : ((a ++ b) ++ c = a ++ b ++ c)%string.
Proof. induction a as [| x a IH]; simpl; [reflexivity | now rewrite IH]. Qed.

Lemma sapp_nil_r (a : string) : (a ++ "" = a)%string.
Proof. induction a as [| x a IH]; simpl; [reflexivity | now rewrite IH]. Qed.

Lemma slength_app (a b : string) :
  String.length (a ++ b) = (String.length a + String.length b)%nat.
Proof. induction a as [| x a IH]; simpl; [reflexivity | now rewrite IH]. Qed.

Variable lowerOther : string -> string -> string -> string.

(** Lower-casing leaves plain text as it is and where it is, whatever
    surrounds it. *)
Lemma lowerFrom_plain (d : string) :
  Terms.plainText d = true ->
  forall B rest, exists B',
    JS.lowerFrom lowerOther B "" (d ++ rest)
    = (d ++ JS.lowerFrom lowerOther B' "" rest)%string.
Proof.
  induction d as [| c d IH]; intros Hd B rest.
  - exists B. reflexivity.
  - cbn [Terms.plainText] in Hd.
    apply andb_prop in Hd. destruct Hd as [Hd Hrest].
    apply andb_prop in Hd. destruct Hd as [Hascii Hlow].
    apply Ascii.eqb_eq in Hlow.
    cbn [String.append JS.lowerFrom]. rewrite Hascii, Hlow.
    match goal with
    | |- context [JS.lowerFrom _ ?b "" (d ++ rest)] =>
        destruct (IH Hrest b rest) as [B' E]
    end.
    exists B'. rewrite E. reflexivity.
Qed.

Lemma lowerFrom_keeps (d after : string) :
  Terms.plainText d = true ->
  forall before B R, exists P T,
    JS.lowerFrom lowerOther B R (before ++ d ++ after) = (P ++ d ++ T)%string.
Proof.
  intros Hd. induction before as [| a b IH]; intros B R.
  - cbn [String.append]. destruct d as [| c d].
    + exists "", (JS.lowerFrom lowerOther B R after). reflexivity.
    + cbn [Terms.plainText] in Hd.
      apply andb_prop in Hd. destruct Hd as [Hd Hrest].
      apply andb_prop in Hd. destruct Hd as [Hascii Hlow].
      apply Ascii.eqb_eq in Hlow.
      cbn [String.append JS.lowerFrom]. rewrite Hascii, Hlow.
      match goal with
      | |- context [JS.lowerFrom _ ?b "" (d ++ after)] =>
          destruct (lowerFrom_plain d Hrest b after) as [B' E]
      end.
      rewrite E.
      exists (JS.flush lowerOther B R (String c (d ++ after))),
             (JS.lowerFrom lowerOther B' "" after).
      reflexivity.
  - cbn [String.append JS.lowerFrom]. destruct (JS.isAscii a).
    + match goal with
      | |- context [JS.lowerFrom _ ?x "" (b ++ d ++ after)] =>
          destruct (IH x "") as [P [T E]]
      end.
      rewrite E.
      exists (JS.flush lowerOther B R (String a (b ++ d ++ after))
              ++ String (JS.lowerChar a) P)%string, T.
      rewrite sapp_assoc. reflexivity.
    + apply IH.
Qed.

(** Lower-casing text of ASCII characters folds its letters. *)
Lemma lowerFrom_ascii (s : string) :
  Terms.asciiText s = true ->
  forall B, JS.lowerFrom lowerOther B "" s = Terms.asciiFold s.
Proof.
  induction s as [| c s IH]; intros Hs B; [reflexivity |].
  cbn [Terms.asciiText] in Hs. apply andb_prop in Hs. destruct Hs as [Hc Hs].
  cbn [JS.lowerFrom Terms.asciiFold]. rewrite Hc.
  match goal with
  | |- context [JS.lowerFrom _ ?x "" s] => rewrite (IH Hs x)
  end.
  reflexivity.
Qed.

End TextFacts.

(** ** Traffic-source categorisation *)

Section TrafficFacts.
Import Traffic.

Variable lowerOther : string -> string -> string -> string.

Lemma arrayIncludes_In (l : list string) (s : string) :
  JS.arrayIncludes l s = true <-> In s l.
Proof.
  unfold JS.arrayIncludes. rewrite existsb_exists. split.
  - intros [x [Hin Heq]]. apply String.eqb_eq in Heq. now subst.
  - intros Hin. exists s. split; [assumption | apply String.eqb_refl].
Qed.

Lemma truthy_Some (s : string) : JS.truthy (Some s) = true <-> s <> "".
Proof.
  simpl. destruct (String.eqb_spec s ""); simpl; split; intros; congruence.
Qed.

Lemma orElse_Some (s d : string) : s <> "" -> JS.orElse (Some s) d = s.
Proof.
  intros H. simpl. destruct (String.eqb_spec s ""); [contradiction | reflexivity].
Qed.

Lemma categorize_with_utm (ref : option string) (utm : string) :
  utm <> "" ->
  categorizeTrafficSource lowerOther ref (Some utm) = categorizeUtm lowerOther utm.
Proof.
  intros H. unfold categorizeTrafficSource.
  rewrite (proj2 (truthy_Some utm) H), orElse_Some by assumption. reflexivity.
Qed.

Lemma social_not_search (s : string) :
  In s utmSocialPlatforms -> JS.arrayIncludes utmSearchEngines s = false.
Proof.
  unfold utmSocialPlatforms. simpl.
  intros H; repeat (destruct H as [<- | H]; [reflexivity |]); contradiction.
Qed.

Lemma categorizeUtm_search (utm : string) :
  categorizeUtm lowerOther utm = "Organic Search"
  <-> In (JS.toLowerCase lowerOther utm) utmSearchEngines.
Proof.
  unfold categorizeUtm. cbv zeta. split.
  - destruct (JS.arrayIncludes utmSearchEngines _) eqn:E.
    + intros _. now apply arrayIncludes_In.
    + destruct (JS.arrayIncludes utmSocialPlatforms _); [discriminate |].
      destruct (_ || _)%bool; [discriminate |].
      destruct (_ || _)%bool; discriminate.
  - intros H. now rewrite (proj2 (arrayIncludes_In _ _) H).
Qed.

Lemma categorizeUtm_social (utm : string) :
  categorizeUtm lowerOther utm = "Social Media"
  <-> In (JS.toLowerCase lowerOther utm) utmSocialPlatforms.
Proof.
  unfold categorizeUtm. cbv zeta. split.
  - destruct (JS.arrayIncludes utmSearchEngines _); [discriminate |].
    destruct (JS.arrayIncludes utmSocialPlatforms _) eqn:E.
    + intros _. now apply arrayIncludes_In.
    + destruct (_ || _)%bool; [discriminate |].
      destruct (_ || _)%bool; discriminate.
  - intros H. rewrite (social_not_search _ H).
    now rewrite (proj2 (arrayIncludes_In _ _) H).
Qed.

End TrafficFacts.

(** C1, as stated, fails: the UTM source "facebook_ads" is not in the list
    of social platforms (the list is matched by equality, not by substring),
    and its substring "ads" makes the category "Paid Ads", whatever the
    platform makes of characters outside ASCII. *)
Lemma facebook_ads_is_not_social :
  (forall lowerOther : string -> string -> string -> string,
     Traffic.categorizeTrafficSource lowerOther (Some "t.co") (Some "facebook_ads")
     = "Paid Ads")
  /\ Traffic.categorizeTrafficSource JS.keepOther (Some "t.co") (Some "facebook_ads")
     <> "Social Media".
Proof. split; [intros lowerOther; reflexivity | discriminate]. Qed.

(** C1, amended: a non-empty UTM source alone decides the category,
    whatever the referrer domain.  The lists of search engines and of
    social platforms are matched by equality with the lower-cased UTM
    source: the category is "Organic Search" exactly when that is one of
    google, bing, duckduckgo, yahoo, baidu, and "Social Media" exactly when
    it is one of facebook, instagram, linkedin, twitter, tiktok, reddit, x.
    So "facebook" is "Social Media" and "facebook_ads" is "Paid Ads",
    regardless of the referrer domain; and so is FACEBOO followed by the
    Kelvin sign "Social Media" where lower-casing turns that sign into k. *)
Theorem utm_source_decides_category
    (lowerOther : string -> string -> string -> string)
    (ref ref' : option string) (utm : string) :
  utm <> "" ->
  Traffic.categorizeTrafficSource lowerOther ref (Some utm)
    = Traffic.categorizeTrafficSource lowerOther ref' (Some utm)
  /\ (Traffic.categorizeTrafficSource lowerOther ref (Some utm) = "Organic Search"
      <-> In (JS.toLowerCase lowerOther utm)
             ["google"; "bing"; "duckduckgo"; "yahoo"; "baidu"])
  /\ (Traffic.categorizeTrafficSource lowerOther ref (Some utm) = "Social Media"
      <-> In (JS.toLowerCase lowerOther utm)
             ["facebook"; "instagram"; "linkedin"; "twitter"; "tiktok"; "reddit"; "x"])
  /\ Traffic.categorizeTrafficSource lowerOther ref (Some "facebook") = "Social Media"
  /\ Traffic.categorizeTrafficSource lowerOther ref (Some "facebook_ads") = "Paid Ads"
  /\ (lowerOther "FACEBOO" (JS.utf8 8490) "" = "k" ->
      Traffic.categorizeTrafficSource lowerOther ref
        (Some ("FACEBOO" ++ JS.utf8 8490)%string) = "Social Media").
Proof.
  intros H. split; [| split; [| split; [| split; [| split]]]].
  - now rewrite !categorize_with_utm.
  - rewrite categorize_with_utm by assumption. apply categorizeUtm_search.
  - rewrite categorize_with_utm by assumption. apply categorizeUtm_social.
  - reflexivity.
  - reflexivity.
  - intros K. rewrite categorize_with_utm by discriminate.
    apply categorizeUtm_social.
    assert (E : JS.toLowerCase lowerOther ("FACEBOO" ++ JS.utf8 8490)%string
                = ("faceboo" ++ lowerOther "FACEBOO" (JS.utf8 8490) "")%string)
      by reflexivity.
    rewrite E, K. simpl. tauto.
Qed.

(** C1 at the UTM source "Facebook", with and without a referrer, on a
    platform that leaves the characters outside ASCII as they are. *)
Lemma utm_source_decides_category_witness :
  "Facebook" <> ""
  /\ Traffic.categorizeTrafficSource JS.keepOther (Some "google.com") (Some "Facebook")
     = Traffic.categorizeTrafficSource JS.keepOther None (Some "Facebook")
  /\ Traffic.categorizeTrafficSource JS.keepOther (Some "google.com") (Some "Facebook")
     = "Social Media".
Proof.
  assert (H : "Facebook" <> "") by discriminate.
  split; [exact H |].
  pose proof (utm_source_decides_category JS.keepOther (Some "google.com") None
                "Facebook" H) as [H1 [_ [H3 _]]].
  split; [exact H1 |]. apply H3. simpl. tauto.
Defined.

(** ** Ingestion *)

Section IngestFacts.
Import Store Ingest Spec.

Variable urlHostname : string -> option string.
Variable ipapi : string -> option GeoData.

Lemma hasSession_In (i : string) (st : Store.t) :
  hasSession i st = true <-> In i (map id (sessions st)).
Proof.
  unfold hasSession. rewrite existsb_exists, in_map_iff. split.
  - intros [s [Hin Heq]]. apply String.eqb_eq in Heq. now exists s.
  - intros [s [Heq Hin]]. exists s. split; [assumption |]. now apply String.eqb_eq.
Qed.

Lemma hasSession_false (i : string) (st : Store.t) :
  hasSession i st = false <-> ~ In i (map id (sessions st)).
Proof.
  rewrite <- hasSession_In. destruct (hasSession i st); split; congruence.
Qed.

Lemma hasPageView_In (i : string) (st : Store.t) :
  hasPageView i st = true <-> In i (map pvId (pageViews st)).
Proof.
  unfold hasPageView. rewrite existsb_exists, in_map_iff. split.
  - intros [s [Hin Heq]]. apply String.eqb_eq in Heq. now exists s.
  - intros [s [Heq Hin]]. exists s. split; [assumption |]. now apply String.eqb_eq.
Qed.

Lemma find_id_hasSession (i : string) (st : Store.t) :
  hasSession i st = true <->
  exists s, find (fun s => (id s =? i)%string) (sessions st) = Some s.
Proof.
  unfold hasSession. induction (sessions st) as [| x l IH]; simpl.
  - split; [discriminate | intros [s H]; discriminate].
  - destruct (id x =? i)%string; simpl; [| exact IH].
    split; [intros _; now exists x | reflexivity].
Qed.

Lemma map_update_ids (A : Type) (key : A -> string) (i : string) (f : A -> A)
    (l : list A) :
  (forall x, key (f x) = key x) ->
  map key (map (fun x => if (key x =? i)%string then f x else x) l) = map key l.
Proof.
  intros Hf. rewrite map_map. apply map_ext. intros x.
  destruct (key x =? i)%string; [apply Hf | reflexivity].
Qed.

(** The three shapes the session table can have after [collect]. *)
Lemma collect_sessions_shape (rt : Runtime) (request : CollectRequest) (st : Store.t) :
  let st' := snd (collectHandler urlHostname ipapi rt request st) in
  sessions st' = sessions st
  \/ (exists i, sessions st'
                = map (fun s => if (id s =? i)%string
                                then collectUpdate rt (body request) s else s)
                      (sessions st))
  \/ (exists row, sessions st' = sessions st ++ [row]).
Proof.
  unfold collectHandler, tryCatch, bind, sessionFindFirst, sessionUpdate,
    sessionCreate, pageViewCreate, ret. cbv zeta.
  destruct (JS.truthy (bSessionId (body request))); simpl.
  - destruct (find _ (sessions st)) as [s |]; simpl.
    + destruct (hasSession (id s) st); simpl; [| now left].
      match goal with |- context [hasPageView ?i ?s] => destruct (hasPageView i s) end;
        simpl; right; left; now exists (id s).
    + destruct (hasSession _ st); simpl; [now left |].
      match goal with |- context [hasPageView ?i ?s] => destruct (hasPageView i s) end;
        simpl; right; right; eexists; reflexivity.
  - destruct (hasSession _ st); simpl; [now left |].
    match goal with |- context [hasPageView ?i ?s] => destruct (hasPageView i s) end;
      simpl; right; right; eexists; reflexivity.
Qed.

(** The two shapes of the store after [heartbeat]: untouched, or the
    session row updated and, possibly, one page view updated. *)
Lemma heartbeat_sessions_shape (rt : Runtime) (b : HeartbeatBody) (st : Store.t) :
  let st' := snd (heartbeatHandler rt b st) in
  sessions st' = sessions st
  \/ (exists d, sessions st'
                = map (fun s => if (id s =? hSessionId b)%string
                                then heartbeatUpdate rt d s else s)
                      (sessions st)).
Proof.
  unfold heartbeatHandler, tryCatch, bind, sessionFindUnique, sessionUpdate,
    pageViewFindFirst, pageViewUpdate, ret. cbv zeta. simpl.
  destruct (find _ (sessions st)) as [s |]; simpl; [| now left].
  destruct (hasSession _ st); simpl; [| now left].
  destruct (hScrollDepth b) as [depth |]; simpl; [| right; eexists; reflexivity].
  destruct (JS.truthy (hPath b)); simpl; [| right; eexists; reflexivity].
  destruct (latest _) as [lv |]; simpl; [| right; eexists; reflexivity].
  match goal with |- context [hasPageView ?i ?s] => destruct (hasPageView i s) end;
    simpl; right; eexists; reflexivity.
Qed.

Lemma heartbeat_pageViews_shape (rt : Runtime) (b : HeartbeatBody) (st : Store.t) :
  let st' := snd (heartbeatHandler rt b st) in
  pageViews st' = pageViews st
  \/ (exists depth lv,
        pageViews st' = map (fun v => if (pvId v =? pvId lv)%string
                                      then scrollUpdate rt depth lv v else v)
                            (pageViews st)).
Proof.
  unfold heartbeatHandler, tryCatch, bind, sessionFindUnique, sessionUpdate,
    pageViewFindFirst, pageViewUpdate, ret. cbv zeta. simpl.
  destruct (find _ (sessions st)) as [s |]; simpl; [| now left].
  destruct (hasSession _ st); simpl; [| now left].
  destruct (hScrollDepth b) as [depth |]; simpl; [| now left].
  destruct (JS.truthy (hPath b)); simpl; [| now left].
  destruct (latest _) as [lv |]; simpl; [| now left].
  match goal with |- context [hasPageView ?i ?s] => destruct (hasPageView i s) end;
    simpl; [right; now exists depth, lv | now left].
Qed.

Lemma Forall2_map_self (A : Type) (R : A -> A -> Prop) (f : A -> A) (l : list A) :
  (forall x, R x (f x)) -> Forall2 R l (map f l).
Proof. intros H. induction l; simpl; constructor; auto. Qed.

Lemma Forall2_same (A : Type) (R : A -> A -> Prop) (l : list A) :
  (forall x, R x x) -> Forall2 R l l.
Proof. intros H. induction l; constructor; auto. Qed.

Lemma Forall2_compose (A : Type) (R : A -> A -> Prop) (l1 l2 l3 : list A) :
  (forall x y z, R x y -> R y z -> R x z) ->
  Forall2 R l1 l2 -> Forall2 R l2 l3 -> Forall2 R l1 l3.
Proof.
  intros HR H12. revert l3. induction H12; intros l3 H23; inversion H23; subst.
  - constructor.
  - constructor; eauto.
Qed.

Lemma grown_trans (A : Type) (R : A -> A -> Prop) (l1 l2 l3 : list A) :
  (forall x y z, R x y -> R y z -> R x z) ->
  grown R l1 l2 -> grown R l2 l3 -> grown R l1 l3.
Proof.
  intros HR (k1 & a1 & -> & H1) (k2 & a2 & -> & H2).
  apply Forall2_app_inv_l in H2 as (ka & kb & Ha & Hb & ->).
  exists ka, (kb ++ a2). split; [now rewrite app_assoc |].
  eapply Forall2_compose; eauto.
Qed.

Lemma collect_frame (rt : Runtime) (request : CollectRequest) (st : Store.t) :
  grown (fun s s' => collectFrame s' = collectFrame s)
        (sessions st)
        (sessions (snd (collectHandler urlHostname ipapi rt request st))).
Proof.
  destruct (collect_sessions_shape rt request st) as [H | [[i H] | [row H]]];
    rewrite H.
  - exists (sessions st), []. split; [now rewrite app_nil_r |].
    now apply Forall2_same.
  - eexists _, []. split; [now rewrite app_nil_r |].
    apply Forall2_map_self. intros s. now destruct (id s =? i)%string.
  - exists (sessions st), [row]. split; [reflexivity |]. now apply Forall2_same.
Qed.

Lemma heartbeat_frame (rt : Runtime) (b : HeartbeatBody) (st : Store.t) :
  Forall2 (fun s s' => heartbeatFrame s' = heartbeatFrame s)
          (sessions st) (sessions (snd (heartbeatHandler rt b st))).
Proof.
  destruct (heartbeat_sessions_shape rt b st) as [H | [d H]]; rewrite H.
  - now apply Forall2_same.
  - apply Forall2_map_self. intros s. now destruct (id s =? hSessionId b)%string.
Qed.

Lemma Forall2_weaken (A : Type) (R R' : A -> A -> Prop) (l l' : list A) :
  (forall x y, R x y -> R' x y) -> Forall2 R l l' -> Forall2 R' l l'.
Proof. intros H HF. induction HF; constructor; auto. Qed.

Lemma handle_provenance (c : Call) (st : Store.t) :
  grown (fun s s' => provenance s' = provenance s)
        (sessions st) (sessions (snd (handle urlHostname ipapi c st))).
Proof.
  destruct c as [rt request | rt b]; simpl.
  - destruct (collect_frame rt request st) as (k & a & E & HF).
    exists k, a. split; [assumption |].
    eapply Forall2_weaken; [| exact HF]. intros x y Hxy.
    unfold collectFrame in Hxy. congruence.
  - exists (sessions (snd (heartbeatHandler rt b st))), [].
    split; [now rewrite app_nil_r |].
    eapply Forall2_weaken; [| apply heartbeat_frame]. intros x y Hxy.
    unfold heartbeatFrame in Hxy. congruence.
Qed.

Lemma run_provenance (calls : list Call) (st : Store.t) :
  grown (fun s s' => provenance s' = provenance s)
        (sessions st) (sessions (run urlHostname ipapi calls st)).
Proof.
  revert st. induction calls as [| c calls IH]; intros st; simpl.
  - exists (sessions st), []. split; [now rewrite app_nil_r |].
    now apply Forall2_same.
  - eapply grown_trans; [| apply handle_provenance | apply IH].
    intros x y z Hxy Hyz. congruence.
Qed.

Lemma heartbeat_keeps_ids (rt : Runtime) (b : HeartbeatBody) (st : Store.t) :
  map id (sessions (snd (heartbeatHandler rt b st))) = map id (sessions st)
  /\ map pvId (pageViews (snd (heartbeatHandler rt b st))) = map pvId (pageViews st).
Proof.
  split.
  - destruct (heartbeat_sessions_shape rt b st) as [H | [d H]]; rewrite H;
      [reflexivity |].
    now apply map_update_ids.
  - destruct (heartbeat_pageViews_shape rt b st) as [H | [d [lv H]]]; rewrite H;
      [reflexivity |].
    now apply map_update_ids.
Qed.

Lemma heartbeat_unknown_session (rt : Runtime) (b : HeartbeatBody) (st : Store.t) :
  ~ In (hSessionId b) (map id (sessions st)) ->
  heartbeatHandler rt b st = (Returned (mkReply 404 "not_found" None), st).
Proof.
  intros H. apply hasSession_false in H.
  unfold heartbeatHandler, tryCatch, bind, sessionFindUnique, ret. simpl.
  destruct (find _ (sessions st)) as [s |] eqn:E; [| reflexivity].
  assert (hasSession (hSessionId b) st = true) by (apply find_id_hasSession; eauto).
  congruence.
Qed.

End IngestFacts.

(** C8: a heartbeat whose session id matches no session is answered
    "not_found" (status 404) and leaves the store as it was; and no
    heartbeat whatsoever adds or removes a row: the identifiers of the
    sessions and of the page views are the same, in the same order, before
    and after. *)
Theorem heartbeat_creates_no_row
    (rt : Ingest.Runtime) (b : Ingest.HeartbeatBody) (st : Store.t) :
  (~ In (Ingest.hSessionId b) (map Store.id (Store.sessions st)) ->
   Ingest.heartbeatHandler rt b st
   = (Store.Returned (Ingest.mkReply 404 "not_found" None), st))
  /\ map Store.id (Store.sessions (snd (Ingest.heartbeatHandler rt b st)))
     = map Store.id (Store.sessions st)
  /\ map Store.pvId (Store.pageViews (snd (Ingest.heartbeatHandler rt b st)))
     = map Store.pvId (Store.pageViews st).
Proof.
  split; [apply heartbeat_unknown_session | apply heartbeat_keeps_ids].
Qed.

(** C9: [collect] changes, on the rows that existed, nothing but
    last-active-at, exit page, page-view count and the bounced flag (and
    may append one row); [heartbeat] changes nothing but last-active-at and
    duration; hence after any run of [collect] and [heartbeat] calls every
    session that existed keeps its geography fields and its started-at
    instant. *)
Theorem session_geography_is_immutable
    (urlHostname : string -> option string)
    (ipapi : string -> option Ingest.GeoData) :
  (forall rt request st,
      Spec.grown (fun s s' => Spec.collectFrame s' = Spec.collectFrame s)
            (Store.sessions st)
            (Store.sessions (snd (Ingest.collectHandler urlHostname ipapi rt request st))))
  /\ (forall rt b st,
         Forall2 (fun s s' => Spec.heartbeatFrame s' = Spec.heartbeatFrame s)
                 (Store.sessions st)
                 (Store.sessions (snd (Ingest.heartbeatHandler rt b st))))
  /\ (forall calls st,
         Spec.grown (fun s s' => Store.id s' = Store.id s
                            /\ Spec.geography s' = Spec.geography s
                            /\ Store.startedAt s' = Store.startedAt s)
               (Store.sessions st)
               (Store.sessions (Ingest.run urlHostname ipapi calls st))).
Proof.
  split; [| split].
  - intros. apply collect_frame.
  - intros. apply heartbeat_frame.
  - intros calls st.
    destruct (run_provenance urlHostname ipapi calls st) as (k & a & E & HF).
    exists k, a. split; [assumption |].
    eapply Forall2_weaken; [| exact HF]. intros x y Hxy.
    unfold Spec.provenance in Hxy. repeat split; congruence.
Qed.

Section CollectFacts.
Import Store Ingest Spec.

Variable urlHostname : string -> option string.
Variable ipapi : string -> option GeoData.

Lemma candidateFilter_true (rt : Runtime) (b : CollectBody) (s : AnalyticsSession) :
  JS.truthy (bSessionId b) = true ->
  (candidateFilter rt b s = true <->
   bSessionId b = Some (id s) /\ visitorId s = bVisitorId b
   /\ now rt - 30 * 60 * 1000 <= lastActiveAt s).
Proof.
  intros Ht. unfold candidateFilter.
  destruct (bSessionId b) as [c |]; [| discriminate].
  apply truthy_Some in Ht. rewrite (orElse_Some _ _ Ht).
  rewrite !andb_true_iff, !String.eqb_eq, Z.leb_le.
  split.
  - intros [[-> H2] H3]. auto.
  - intros [H1 [H2 H3]]. injection H1 as ->. auto.
Qed.

Lemma openSession_find (rt : Runtime) (b : CollectBody) (st : Store.t) :
  openSession rt b st <->
  JS.truthy (bSessionId b) = true
  /\ exists s, find (candidateFilter rt b) (sessions st) = Some s.
Proof.
  split.
  - intros (s & Hin & Ht & H1 & H2 & H3). split; [assumption |].
    destruct (find (candidateFilter rt b) (sessions st)) as [s' |] eqn:E;
      [now exists s' |].
    pose proof (find_none _ _ E s Hin) as Hn.
    rewrite (proj2 (candidateFilter_true rt b s Ht)) in Hn by auto. discriminate.
  - intros (Ht & s & E). apply find_some in E as [Hin Hf].
    apply (candidateFilter_true rt b s Ht) in Hf as (H1 & H2 & H3).
    exists s. auto.
Qed.

Lemma openSession_dec (rt : Runtime) (b : CollectBody) (st : Store.t) :
  openSession rt b st \/ ~ openSession rt b st.
Proof.
  rewrite openSession_find.
  destruct (JS.truthy (bSessionId b)); [| right; intros [H _]; discriminate].
  destruct (find (candidateFilter rt b) (sessions st)) as [s |].
  - left. split; [reflexivity | now exists s].
  - right. intros [_ [s H]]. discriminate.
Qed.

(** [collect] on an open session. *)
Lemma collect_on_open (rt : Runtime) (request : CollectRequest) (st : Store.t)
    (s : AnalyticsSession) :
  let b := body request in
  JS.truthy (bSessionId b) = true ->
  find (candidateFilter rt b) (sessions st) = Some s ->
  ~ In (newPageViewId rt) (map pvId (pageViews st)) ->
  collectHandler urlHostname ipapi rt request st
  = (Returned (mkReply 200 "ok" (Some (id s))),
     mkStore (map (fun x => if (id x =? id s)%string then collectUpdate rt b x else x)
                  (sessions st))
             (pageViews st ++ [newPageViewRow rt (id s) (bPath b) (bTitle b)
                                              (bReferrer b)])).
Proof.
  intros b Ht Hf Hpv.
  assert (Hs : hasSession (id s) st = true).
  { apply hasSession_In. apply in_map. now apply find_some in Hf. }
  assert (Hp : hasPageView (newPageViewId rt) st = false).
  { destruct (hasPageView (newPageViewId rt) st) eqn:E; [| reflexivity].
    apply hasPageView_In in E. contradiction. }
  unfold collectHandler, tryCatch, bind, sessionFindFirst, sessionUpdate,
    pageViewCreate, ret. cbv zeta. fold b. rewrite Ht.
  change (fun s0 => ((id s0 =? JS.orElse (bSessionId b) "")%string
                     && (visitorId s0 =? bVisitorId b)%string
                     && (now rt - 30 * 60 * 1000 <=? lastActiveAt s0))%bool)
    with (candidateFilter rt b).
  rewrite Hf. simpl. rewrite Hs. simpl.
  unfold hasPageView in *. simpl. rewrite Hp. reflexivity.
Qed.

(** [collect] when no open session is found. *)
Lemma collect_on_none (rt : Runtime) (request : CollectRequest) (st : Store.t) :
  let b := body request in
  JS.truthy (bSessionId b) = false
  \/ find (candidateFilter rt b) (sessions st) = None ->
  ~ In (newSessionId rt) (map id (sessions st)) ->
  ~ In (newPageViewId rt) (map pvId (pageViews st)) ->
  collectHandler urlHostname ipapi rt request st
  = (Returned (mkReply 200 "ok" (Some (newSessionId rt))),
     mkStore (sessions st
              ++ [newSessionRow rt b (extractReferrerDomain urlHostname (bReferrer b))
                                (geoLookup ipapi (clientIpOf request))])
             (pageViews st ++ [newPageViewRow rt (newSessionId rt) (bPath b) (bTitle b)
                                              None])).
Proof.
  intros b Hn Hs Hpv.
  apply hasSession_false in Hs.
  assert (Hp : hasPageView (newPageViewId rt) st = false).
  { destruct (hasPageView (newPageViewId rt) st) eqn:E; [| reflexivity].
    apply hasPageView_In in E. contradiction. }
  assert (E : (if JS.truthy (bSessionId b)
               then sessionFindFirst (JS.orElse (bSessionId b) "") (bVisitorId b)
                                     (now rt - 30 * 60 * 1000)
               else ret None) st = (Returned None, st)).
  { destruct (JS.truthy (bSessionId b)); [| reflexivity].
    destruct Hn as [Hn | Hn]; [discriminate |].
    unfold sessionFindFirst.
    change (fun s0 => ((id s0 =? JS.orElse (bSessionId b) "")%string
                       && (visitorId s0 =? bVisitorId b)%string
                       && (now rt - 30 * 60 * 1000 <=? lastActiveAt s0))%bool)
      with (candidateFilter rt b).
    now rewrite Hn. }
  unfold collectHandler, tryCatch, bind. cbv zeta. fold b. rewrite E.
  unfold sessionCreate, pageViewCreate, ret. simpl. rewrite Hs. simpl.
  unfold hasPageView in *. simpl. rewrite Hp. reflexivity.
Qed.

End CollectFacts.

(** C3: with the identifiers that the database generates being new, a
    [collect] call reuses a session if and only if an open session exists
    (candidate id supplied, a row with that id and the visitor id of the
    call, last active no more than 30 minutes before now): then the reply
    carries the candidate id and no session row is added.  In every other
    case one session row is appended, whose id is the generated one, is the
    id of no earlier row (in particular not the candidate's, when the
    candidate names a row) and is the id of the reply. *)
Theorem collect_reuses_open_session
    (urlHostname : string -> option string)
    (ipapi : string -> option Ingest.GeoData)
    (rt : Ingest.Runtime) (request : Ingest.CollectRequest) (st : Store.t) :
  ~ In (Ingest.newSessionId rt) (map Store.id (Store.sessions st)) ->
  ~ In (Ingest.newPageViewId rt) (map Store.pvId (Store.pageViews st)) ->
  let b := Ingest.body request in
  let out := Ingest.collectHandler urlHostname ipapi rt request st in
  (Spec.openSession rt b st
   <-> map Store.id (Store.sessions (snd out)) = map Store.id (Store.sessions st))
  /\ (Spec.openSession rt b st ->
      fst out = Store.Returned (Ingest.mkReply 200 "ok" (Ingest.bSessionId b)))
  /\ (~ Spec.openSession rt b st ->
      fst out = Store.Returned (Ingest.mkReply 200 "ok" (Some (Ingest.newSessionId rt)))
      /\ (exists row, Store.sessions (snd out) = Store.sessions st ++ [row]
                      /\ Store.id row = Ingest.newSessionId rt
                      /\ Store.visitorId row = Ingest.bVisitorId b)
      /\ (forall c, Ingest.bSessionId b = Some c ->
                    In c (map Store.id (Store.sessions st)) ->
                    Ingest.newSessionId rt <> c)).
Proof.
  intros Hs Hpv b out.
  assert (Hopen : Spec.openSession rt b st ->
                  fst out = Store.Returned (Ingest.mkReply 200 "ok" (Ingest.bSessionId b))
                  /\ map Store.id (Store.sessions (snd out))
                     = map Store.id (Store.sessions st)).
  { intros Ho. apply openSession_find in Ho as (Ht & s & Hf).
    subst out. rewrite (collect_on_open urlHostname ipapi rt request st s Ht Hf Hpv).
    simpl. split.
    - apply find_some in Hf as [_ Hf].
      apply (candidateFilter_true rt (Ingest.body request) s Ht) in Hf as (H1 & _).
      fold b in H1. now rewrite H1.
    - now apply map_update_ids. }
  assert (Hnew : ~ Spec.openSession rt b st ->
                 out = (Store.Returned (Ingest.mkReply 200 "ok" (Some (Ingest.newSessionId rt))),
                        Store.mkStore
                          (Store.sessions st
                           ++ [Ingest.newSessionRow rt b
                                 (Ingest.extractReferrerDomain urlHostname (Ingest.bReferrer b))
                                 (Ingest.geoLookup ipapi (Ingest.clientIpOf request))])
                          (Store.pageViews st
                           ++ [Ingest.newPageViewRow rt (Ingest.newSessionId rt)
                                 (Ingest.bPath b) (Ingest.bTitle b) None]))).
  { intros Hno. subst out. apply collect_on_none; try assumption.
    destruct (JS.truthy (Ingest.bSessionId (Ingest.body request))) eqn:Ht;
      [right | now left].
    destruct (find _ (Store.sessions st)) as [s |] eqn:Hf; [| reflexivity].
    exfalso. apply Hno. apply openSession_find. split; [assumption | now exists s]. }
  split; [| split].
  - split; [apply Hopen |].
    intros Hids. destruct (openSession_dec rt b st) as [Ho | Hno]; [assumption |].
    exfalso. rewrite (Hnew Hno) in Hids. simpl in Hids.
    apply (f_equal (@List.length string)) in Hids.
    rewrite !length_map, length_app in Hids. simpl in Hids. lia.
  - apply Hopen.
  - intros Hno. rewrite (Hnew Hno). simpl. split; [reflexivity | split].
    + eexists. split; [reflexivity |]. split; reflexivity.
    + intros c _ Hin Heq. subst c. contradiction.
Qed.

Section HeartbeatFacts.
Import Store Ingest Spec.

Variable urlHostname : string -> option string.
Variable ipapi : string -> option GeoData.

Lemma latest_In (l : list PageView) (v : PageView) :
  latest l = Some v -> In v l /\ forall w, In w l -> timestamp w <= timestamp v.
Proof.
  revert v. induction l as [| x l IH]; simpl; intros v; [discriminate |].
  destruct (latest l) as [w |] eqn:El.
  - destruct (IH w eq_refl) as [Hin Hmax].
    destruct (Z.leb_spec (timestamp w) (timestamp x)) as [Hle | Hlt];
      intros H; injection H as <-.
    + split; [now left |]. intros u [<- | Hu]; [lia |].
      specialize (Hmax u Hu). lia.
    + split; [now right |]. intros u [<- | Hu]; [lia | auto].
  - intros H. injection H as <-. split; [now left |].
    destruct l as [| y l]; [| simpl in El; destruct (latest l);
                              [destruct (_ <=? _) |]; discriminate].
    intros u [<- | []]. lia.
Qed.

Lemma latest_None (l : list PageView) : latest l = None -> l = [].
Proof.
  destruct l as [| x l]; [reflexivity |]. simpl.
  destruct (latest l); [destruct (_ <=? _) |]; discriminate.
Qed.

Lemma latest_map (f : PageView -> PageView) (l : list PageView) :
  (forall v, timestamp (f v) = timestamp v) ->
  latest (map f l) = option_map f (latest l).
Proof.
  intros Hf. induction l as [| x l IH]; simpl; [reflexivity |].
  rewrite IH. destruct (latest l) as [w |]; simpl; [| reflexivity].
  rewrite !Hf. now destruct (_ <=? _).
Qed.

Lemma filter_map_commute (A : Type) (P : A -> bool) (f : A -> A) (l : list A) :
  (forall v, P (f v) = P v) -> filter P (map f l) = map f (filter P l).
Proof.
  intros Hf. induction l as [| x l IH]; simpl; [reflexivity |].
  rewrite Hf. destruct (P x); simpl; now rewrite IH.
Qed.

Lemma NoDup_key_eq (A : Type) (key : A -> string) (l : list A) (x y : A) :
  NoDup (map key l) -> In x l -> In y l -> key x = key y -> x = y.
Proof.
  induction l as [| a l IH]; simpl; intros Hnd Hx Hy Hk; [contradiction |].
  inversion Hnd as [| ? ? Hna Hnd']; subst.
  destruct Hx as [-> | Hx], Hy as [-> | Hy].
  - reflexivity.
  - exfalso. apply Hna. rewrite Hk. now apply in_map.
  - exfalso. apply Hna. rewrite <- Hk. now apply in_map.
  - now apply IH.
Qed.

(** [heartbeat] on an existing session, with a scroll depth and a path. *)
Lemma heartbeat_with_scroll (rt : Runtime) (sid p : string) (depth : Z)
    (st : Store.t) :
  p <> "" ->
  In sid (map id (sessions st)) ->
  exists d,
    heartbeatHandler rt (mkHeartbeatBody sid (Some depth) (Some p)) st
    = (Returned (mkReply 200 "ok" None),
       mkStore (map (fun s => if (id s =? sid)%string then heartbeatUpdate rt d s else s)
                    (sessions st))
               (match latest (viewsOf sid p st) with
                | Some lv => map (ratchet rt depth lv) (pageViews st)
                | None => pageViews st
                end)).
Proof.
  intros Hp Hin.
  assert (Hs : hasSession sid st = true) by now apply hasSession_In.
  destruct (proj1 (find_id_hasSession sid st) Hs) as [s Hf].
  exists (JS.floorDiv (now rt - startedAt s) 1000).
  unfold heartbeatHandler, tryCatch, bind, sessionFindUnique, sessionUpdate,
    pageViewFindFirst, pageViewUpdate, ret. cbv zeta. simpl.
  rewrite Hf. simpl. rewrite Hs. simpl.
  destruct (String.eqb_spec p ""); [contradiction |]. simpl.
  fold (viewsOf sid p st).
  change (filter (fun v => ((sessionId v =? sid)%string && (path v =? p)%string)%bool)
                 (pageViews st)) with (viewsOf sid p st).
  destruct (latest (viewsOf sid p st)) as [lv |] eqn:El; simpl; [| reflexivity].
  assert (Hlv : In lv (pageViews st)).
  { apply latest_In in El as [Hl _]. unfold viewsOf in Hl.
    now apply filter_In in Hl. }
  unfold hasPageView. simpl.
  assert (Hex : existsb (fun v => (pvId v =? pvId lv)%string) (pageViews st) = true).
  { apply existsb_exists. exists lv. split; [assumption | apply String.eqb_refl]. }
  rewrite Hex. reflexivity.
Qed.

Lemma ratchet_keeps (rt : Runtime) (depth : Z) (lv v : PageView) :
  pvId (ratchet rt depth lv v) = pvId v
  /\ sessionId (ratchet rt depth lv v) = sessionId v
  /\ path (ratchet rt depth lv v) = path v
  /\ timestamp (ratchet rt depth lv v) = timestamp v.
Proof. unfold ratchet. destruct (pvId v =? pvId lv)%string; simpl; auto. Qed.

Lemma ratchet_self (rt : Runtime) (depth : Z) (lv : PageView) :
  ratchet rt depth lv lv = scrollUpdate rt depth lv lv.
Proof. unfold ratchet. now rewrite String.eqb_refl. Qed.

Lemma ratchet_other (rt : Runtime) (depth : Z) (lv v : PageView) :
  pvId v <> pvId lv -> ratchet rt depth lv v = v.
Proof.
  intros H. unfold ratchet. destruct (String.eqb_spec (pvId v) (pvId lv));
    [contradiction | reflexivity].
Qed.

Lemma viewsOf_ratchet (rt : Runtime) (depth : Z) (lv : PageView) (sid p : string)
    (ss : list AnalyticsSession) (pvs : list PageView) :
  viewsOf sid p (mkStore ss (map (ratchet rt depth lv) pvs))
  = map (ratchet rt depth lv) (viewsOf sid p (mkStore ss pvs)).
Proof.
  unfold viewsOf. simpl. apply filter_map_commute. intros v.
  destruct (ratchet_keeps rt depth lv v) as (_ & -> & -> & _). reflexivity.
Qed.

(** One heartbeat moves the store to one where the latest view of the
    pair is the same row, its depth ratcheted. *)
Lemma heartbeat_step (rt : Runtime) (sid p : string) (depth : Z) (st : Store.t)
    (lv : PageView) :
  p <> "" ->
  In sid (map id (sessions st)) ->
  latest (viewsOf sid p st) = Some lv ->
  let st' := snd (heartbeatHandler rt (mkHeartbeatBody sid (Some depth) (Some p)) st) in
  In sid (map id (sessions st'))
  /\ pageViews st' = map (ratchet rt depth lv) (pageViews st)
  /\ latest (viewsOf sid p st') = Some (scrollUpdate rt depth lv lv).
Proof.
  intros Hp Hin Hl st'.
  destruct (heartbeat_with_scroll rt sid p depth st Hp Hin) as [d E].
  subst st'. rewrite E, Hl. simpl. split; [| split].
  - rewrite map_update_ids by reflexivity. assumption.
  - reflexivity.
  - rewrite viewsOf_ratchet, latest_map.
    + replace (latest (viewsOf sid p (mkStore _ (pageViews st))))
        with (Some lv) by (symmetry; exact Hl).
      simpl. now rewrite ratchet_self.
    + intros v. apply ratchet_keeps.
Qed.

(** After a run of heartbeats on the pair, the stored depth of its
    latest view is the greatest of the depth it had and the depths fed. *)
Lemma heartbeats_ratchet (sid p : string) (feeds : list (Z * Z)) :
  p <> "" ->
  forall (st : Store.t) (lv : PageView),
    In sid (map id (sessions st)) ->
    latest (viewsOf sid p st) = Some lv ->
    exists lv',
      latest (viewsOf sid p (run urlHostname ipapi (heartbeats sid p feeds) st))
      = Some lv'
      /\ pvId lv' = pvId lv
      /\ JS.orZero (scrollDepth lv')
         = fold_left Z.max (map snd feeds) (JS.orZero (scrollDepth lv))
      /\ (feeds <> [] -> scrollDepth lv' <> None).
Proof.
  intros Hp. induction feeds as [| [t d] feeds IH]; intros st lv Hin Hl.
  - exists lv. simpl. repeat split; auto; congruence.
  - destruct (heartbeat_step (mkRuntime t "" "") sid p d st lv Hp Hin Hl)
      as (Hin' & _ & Hl').
    destruct (IH _ _ Hin' Hl') as (lv' & H1 & H2 & H3 & H4).
    exists lv'. simpl. split; [exact H1 | split; [exact H2 | split]].
    + rewrite H3. simpl. now rewrite Z.max_comm.
    + intros _. destruct feeds as [| f feeds].
      * simpl in H1. unfold run in H1. simpl in H1. rewrite Hl' in H1.
        injection H1 as <-. discriminate.
      * apply H4. discriminate.
Qed.

End HeartbeatFacts.

(** C4: a heartbeat on an existing session that supplies a scroll depth
    and a (non-empty) path, when the session has a page view of that path,
    updates one page view and no other row: a most recent one of that
    session and path.  Its scroll depth becomes the greater of the incoming
    depth and the stored one (none stored counting as 0) and its time on
    page the whole seconds from its own timestamp to now.  The stored depth
    therefore never decreases, and after heartbeats feeding depths it is
    the greatest of them and of the depth stored before: 90 after
    [10; 40; 25; 90] on a view that had none. *)
Theorem heartbeat_scroll_ratchet
    (urlHostname : string -> option string)
    (ipapi : string -> option Ingest.GeoData)
    (rt : Ingest.Runtime) (sid p : string) (depth : Z) (st : Store.t) :
  p <> "" ->
  In sid (map Store.id (Store.sessions st)) ->
  NoDup (map Store.pvId (Store.pageViews st)) ->
  Spec.viewsOf sid p st <> [] ->
  let st' := snd (Ingest.heartbeatHandler rt
                    (Ingest.mkHeartbeatBody sid (Some depth) (Some p)) st) in
  exists lv : Store.PageView,
  (In lv (Store.pageViews st) /\ Store.sessionId lv = sid /\ Store.path lv = p
   /\ forall v, In v (Spec.viewsOf sid p st) -> Store.timestamp v <= Store.timestamp lv)
  /\ Forall2 (fun v v' =>
                (v = lv ->
                 v' = Store.mkPageView (Store.pvId v) (Store.sessionId v) (Store.path v)
                        (Store.title v) (Store.pvReferrer v) (Store.timestamp v)
                        (Some ((Ingest.now rt - Store.timestamp v) / 1000))
                        (Some (Z.max depth (JS.orZero (Store.scrollDepth v)))))
                /\ (v <> lv -> v' = v))
             (Store.pageViews st) (Store.pageViews st')
  /\ (forall feeds : list (Z * Z),
        let final := Ingest.run urlHostname ipapi (Spec.heartbeats sid p feeds) st in
        exists lv',
          (In lv' (Spec.viewsOf sid p final)
           /\ forall v, In v (Spec.viewsOf sid p final) ->
                        Store.timestamp v <= Store.timestamp lv')
          /\ Store.pvId lv' = Store.pvId lv
          /\ JS.orZero (Store.scrollDepth lv') >= JS.orZero (Store.scrollDepth lv)
          /\ (feeds <> [] ->
              Store.scrollDepth lv'
              = Some (fold_left Z.max (map snd feeds) (JS.orZero (Store.scrollDepth lv))))
          /\ (Store.scrollDepth lv = None -> map snd feeds = [10; 40; 25; 90] ->
              Store.scrollDepth lv' = Some 90)).
Proof.
  intros Hp Hin Hnd Hne st'.
  destruct (Store.latest (Spec.viewsOf sid p st)) as [lv |] eqn:Hl;
    [| exfalso; apply Hne; now apply latest_None].
  exists lv.
  pose proof (latest_In _ _ Hl) as [Hlin Hmax].
  assert (Hlv : In lv (Store.pageViews st)
                /\ Store.sessionId lv = sid /\ Store.path lv = p).
  { unfold Spec.viewsOf in Hlin. apply filter_In in Hlin as [H1 H2].
    apply andb_true_iff in H2 as [H2 H3]. apply String.eqb_eq in H2, H3. auto. }
  split; [| split].
  - destruct Hlv as (H1 & H2 & H3). auto.
  - destruct (heartbeat_step rt sid p depth st lv Hp Hin Hl) as (_ & E & _).
    fold st' in E. rewrite E.
    assert (Hall : forall v, In v (Store.pageViews st) ->
                             Store.pvId v = Store.pvId lv -> v = lv).
    { intros v Hv Hk. eapply NoDup_key_eq; eauto. tauto. }
    revert Hall. generalize (Store.pageViews st) as l. clear.
    induction l as [| x l IH]; intros Hall; simpl; constructor.
    + split.
      * intros ->. now rewrite ratchet_self.
      * intros Hne. apply ratchet_other. intros Hk. apply Hne, Hall; [now left | assumption].
    + apply IH. intros v Hv. apply Hall. now right.
  - intros feeds final.
    destruct (heartbeats_ratchet urlHostname ipapi sid p feeds Hp st lv Hin Hl)
      as (lv' & H1 & H2 & H3 & H4).
    fold final in H1.
    assert (Hge : forall l a, fold_left Z.max l a >= a).
    { clear. induction l as [| x l IH]; intros a; simpl; [lia |].
      specialize (IH (Z.max a x)). lia. }
    assert (Hsome : feeds <> [] ->
                    Store.scrollDepth lv'
                    = Some (fold_left Z.max (map snd feeds)
                                      (JS.orZero (Store.scrollDepth lv)))).
    { intros Hne'. specialize (H4 Hne').
      destruct (Store.scrollDepth lv') as [n |]; [| contradiction].
      simpl in H3. now rewrite H3. }
    exists lv'. split; [exact (latest_In _ _ H1) | split; [exact H2 | split; [| split]]].
    + rewrite H3. apply Hge.
    + exact Hsome.
    + intros Hnone Hfeeds. rewrite Hsome.
      * rewrite Hfeeds, Hnone. reflexivity.
      * intros ->. discriminate.
Qed.


(** ** Maps, sets and sorting of the runtime *)

Section MapFacts.
Context {V : Type}.

Lemma mapGet_upsert_same (k : string) (fresh : V) (f : V -> V) (m : list (string * V)) :
  JS.mapGet k (JS.upsert k fresh f m)
  = Some (f (match JS.mapGet k m with Some v => v | None => fresh end)).
Proof.
  induction m as [| [k' v] m IH]; simpl.
  - now rewrite String.eqb_refl.
  - destruct (k' =? k)%string eqn:E; simpl; rewrite E; [reflexivity | exact IH].
Qed.

Lemma mapGet_upsert_other (k k0 : string) (fresh : V) (f : V -> V)
    (m : list (string * V)) :
  k <> k0 -> JS.mapGet k0 (JS.upsert k fresh f m) = JS.mapGet k0 m.
Proof.
  intros Hne. induction m as [| [k' v] m IH]; simpl.
  - destruct (String.eqb_spec k k0); [contradiction | reflexivity].
  - destruct (String.eqb_spec k' k) as [-> | Hk]; simpl.
    + destruct (String.eqb_spec k k0); [contradiction | reflexivity].
    + now rewrite IH.
Qed.

Lemma upsert_keys (k : string) (fresh : V) (f : V -> V) (m : list (string * V)) :
  map fst (JS.upsert k fresh f m) = JS.setAdd k (map fst m).
Proof.
  unfold JS.setAdd. induction m as [| [k' v] m IH]; simpl; [reflexivity |].
  rewrite (String.eqb_sym k k').
  destruct (k' =? k)%string; simpl; [reflexivity |].
  rewrite IH. now destruct (existsb (String.eqb k) (map fst m)).
Qed.

Lemma mapGet_In (k : string) (v : V) (m : list (string * V)) :
  NoDup (map fst m) -> (In (k, v) m <-> JS.mapGet k m = Some v).
Proof.
  induction m as [| [k' v'] m IH]; simpl; intros Hnd.
  - split; [contradiction | discriminate].
  - inversion Hnd as [| ? ? Hni Hnd']; subst.
    destruct (String.eqb_spec k' k) as [-> | Hk].
    + split.
      * intros [H | H]; [congruence |].
        exfalso. apply Hni. change k with (fst (k, v)). now apply in_map.
      * intros H. left. congruence.
    + rewrite <- (IH Hnd'). split; [intros [H | H]; [congruence | assumption] |].
      intros H. now right.
Qed.

End MapFacts.

Section SetFacts.

Lemma existsb_eqb_In (x : string) (l : list string) :
  existsb (String.eqb x) l = true <-> In x l.
Proof.
  rewrite existsb_exists. split.
  - intros [y [Hin Heq]]. apply String.eqb_eq in Heq. now subst.
  - intros Hin. exists x. split; [assumption | apply String.eqb_refl].
Qed.

Lemma setAdd_In (x y : string) (l : list string) :
  In y (JS.setAdd x l) <-> y = x \/ In y l.
Proof.
  unfold JS.setAdd. destruct (existsb (String.eqb x) l) eqn:E.
  - apply existsb_eqb_In in E. split; [now right |]. intros [-> | H]; assumption.
  - rewrite in_app_iff. simpl. split.
    + intros [H | [H | []]]; [now right | now left].
    + intros [H | H]; [right; left; congruence | now left].
Qed.

Lemma setAdd_NoDup (x : string) (l : list string) :
  NoDup l -> NoDup (JS.setAdd x l).
Proof.
  intros Hnd. unfold JS.setAdd. destruct (existsb (String.eqb x) l) eqn:E;
    [assumption |].
  apply NoDup_app; [assumption | repeat constructor; simpl; tauto |].
  intros y Hy [<- | []].
  apply existsb_eqb_In in Hy. congruence.
Qed.

Lemma distinct_In (x : string) (l : list string) :
  In x (JS.distinct l) <-> In x l.
Proof.
  induction l as [| y l IH]; simpl; [tauto |].
  rewrite filter_In, IH, negb_true_iff.
  destruct (String.eqb_spec x y) as [-> | Hne].
  - split; [now left | intros _; now left].
  - split.
    + intros [H | [H _]]; [left; congruence | now right].
    + intros [H | H]; [congruence | now right].
Qed.

Lemma distinct_NoDup (l : list string) : NoDup (JS.distinct l).
Proof.
  induction l as [| y l IH]; simpl; constructor.
  - rewrite filter_In, String.eqb_refl. simpl. intros [_ H]. discriminate.
  - now apply NoDup_filter.
Qed.

(** Two duplicate-free enumerations of the same elements are
    interchangeable for counting. *)
Lemma NoDup_same_count (P : string -> bool) (l1 l2 : list string) :
  NoDup l1 -> NoDup l2 -> (forall x, In x l1 <-> In x l2) ->
  List.length l1 = List.length l2
  /\ List.length (filter P l1) = List.length (filter P l2).
Proof.
  intros H1 H2 H.
  assert (Hp : Permutation l1 l2) by now apply NoDup_Permutation.
  split.
  - now apply Permutation_length.
  - apply Permutation_length. clear H1 H2 H.
    induction Hp; simpl.
    + constructor.
    + destruct (P x); [now constructor | assumption].
    + destruct (P x), (P y); try reflexivity; now constructor.
    + now transitivity (filter P l').
Qed.

End SetFacts.

Section GroupFacts.
Context {A V : Type}.
Variable key : A -> string.
Variable fresh : A -> V.
Variable step : A -> V -> V.

(** What a grouping loop leaves under a key: nothing new when no item
    has the key, and otherwise the steps of the items that have it, in
    order, applied to the entry found or to a new one. *)
Lemma group_get (items : list A) (m : list (string * V)) (k : string) :
  JS.mapGet k (fold_left (fun acc x => JS.upsert (key x) (fresh x) (step x) acc) items m)
  = match filter (fun x => (key x =? k)%string) items with
    | [] => JS.mapGet k m
    | x :: r =>
        Some (fold_left (fun a y => step y a) (x :: r)
                        (match JS.mapGet k m with Some v => v | None => fresh x end))
    end.
Proof.
  revert m. induction items as [| x items IH]; intros m; simpl; [reflexivity |].
  rewrite IH. destruct (String.eqb_spec (key x) k) as [<- | Hne].
  - rewrite mapGet_upsert_same.
    destruct (filter _ items) as [| y r]; reflexivity.
  - rewrite (mapGet_upsert_other _ _ _ _ _ Hne).
    destruct (filter _ items); reflexivity.
Qed.

Lemma group_keys (items : list A) (m : list (string * V)) :
  map fst (fold_left (fun acc x => JS.upsert (key x) (fresh x) (step x) acc) items m)
  = fold_left (fun l x => JS.setAdd (key x) l) items (map fst m).
Proof.
  revert m. induction items as [| x items IH]; intros m; simpl; [reflexivity |].
  now rewrite IH, upsert_keys.
Qed.

Lemma fold_setAdd_In (items : list A) (l : list string) (y : string) :
  In y (fold_left (fun acc x => JS.setAdd (key x) acc) items l)
  <-> In y l \/ exists x, In x items /\ key x = y.
Proof.
  revert l. induction items as [| x items IH]; intros l; simpl.
  - split; [now left | intros [H | [x [[] _]]]; assumption].
  - rewrite IH, setAdd_In. split.
    + intros [[-> | H] | [z [Hz Hk]]]; eauto.
    + intros [H | [z [[<- | Hz] Hk]]]; eauto.
Qed.

Lemma fold_setAdd_NoDup (items : list A) (l : list string) :
  NoDup l -> NoDup (fold_left (fun acc x => JS.setAdd (key x) acc) items l).
Proof.
  revert l. induction items as [| x items IH]; intros l H; simpl; [assumption |].
  apply IH. now apply setAdd_NoDup.
Qed.

End GroupFacts.

Section SortFacts.
Context {A : Type}.
Variable le : A -> A -> bool.

Lemma insert_perm (x : A) (l : list A) : Permutation (JS.insert le x l) (x :: l).
Proof.
  induction l as [| y l IH]; simpl; [reflexivity |].
  destruct (le x y); [reflexivity |].
  rewrite IH. apply perm_swap.
Qed.

Lemma sort_perm (l : list A) : Permutation (JS.sort le l) l.
Proof.
  unfold JS.sort. induction l as [| x l IH]; simpl; [reflexivity |].
  rewrite insert_perm. now constructor.
Qed.

Lemma sort_In (x : A) (l : list A) : In x (JS.sort le l) <-> In x l.
Proof.
  split; apply Permutation_in; [apply sort_perm | symmetry; apply sort_perm].
Qed.

Hypothesis le_total : forall a b, le a b = true \/ le b a = true.
Hypothesis le_trans : forall a b c, le a b = true -> le b c = true -> le a c = true.

Lemma insert_sorted (x : A) (l : list A) :
  StronglySorted (fun a b => le a b = true) l ->
  StronglySorted (fun a b => le a b = true) (JS.insert le x l).
Proof.
  induction 1 as [| y l Hs IH Hall]; simpl.
  - repeat constructor.
  - destruct (le x y) eqn:E.
    + constructor; [now constructor |]. constructor; [assumption |].
      eapply Forall_impl; [| exact Hall]. intros z Hz. cbv beta in *. eauto.
    + constructor; [assumption |].
      rewrite Forall_forall. intros z Hz.
      apply (Permutation_in _ (insert_perm x l)) in Hz. destruct Hz as [<- | Hz].
      * destruct (le_total x y); congruence.
      * rewrite Forall_forall in Hall. auto.
Qed.

Lemma sort_sorted (l : list A) :
  StronglySorted (fun a b => le a b = true) (JS.sort le l).
Proof.
  unfold JS.sort. induction l as [| x l IH]; simpl; [constructor |].
  now apply insert_sorted.
Qed.

End SortFacts.

Section SliceFacts.
Context {A : Type}.

Lemma firstn_incl (n : nat) (l : list A) (x : A) : In x (firstn n l) -> In x l.
Proof.
  revert l. induction n as [| n IH]; intros [| y l]; simpl; try tauto.
  intros [H | H]; auto.
Qed.

Lemma slice0_incl (e : option Z) (l : list A) (x : A) :
  In x (JS.slice0 e l) -> In x l.
Proof.
  unfold JS.slice0. destruct e as [n |]; [| contradiction].
  destruct (n <? 0); apply firstn_incl.
Qed.

Lemma firstn_sorted (R : A -> A -> Prop) (n : nat) (l : list A) :
  StronglySorted R l -> StronglySorted R (firstn n l).
Proof.
  intros H. revert n. induction H as [| x l Hs IH Hall]; intros [| n]; simpl;
    try constructor.
  - apply IH.
  - rewrite Forall_forall in *. intros y Hy. apply Hall. eapply firstn_incl; eauto.
Qed.

Lemma slice0_sorted (R : A -> A -> Prop) (e : option Z) (l : list A) :
  StronglySorted R l -> StronglySorted R (JS.slice0 e l).
Proof.
  intros H. unfold JS.slice0. destruct e as [n |]; [| constructor].
  destruct (n <? 0); now apply firstn_sorted.
Qed.

End SliceFacts.


(** ** Summary statistics *)

Section StatsFacts.
Import Store Aggregate.

Lemma round_bounds (x : Q) :
  (inject_Z (JS.round x) <= x + (1 # 2) /\ x + (1 # 2) < inject_Z (JS.round x) + 1)%Q.
Proof.
  unfold JS.round. split.
  - apply Qfloor_le.
  - pose proof (Qlt_floor (x + (1 # 2))) as H.
    rewrite inject_Z_plus in H. exact H.
Qed.

Lemma round_nonneg (x : Q) : (0 <= x)%Q -> 0 <= JS.round x.
Proof.
  intros H. unfold JS.round.
  change 0 with (Qfloor 0). apply Qfloor_resp_le. lra.
Qed.

Lemma pctChange_zero_prev (curr prev : Q) :
  (prev == 0)%Q ->
  pctChange curr prev = (if gtQ curr 0 then 100 else 0)%Q.
Proof.
  intros H. unfold pctChange. apply Qeq_bool_iff in H. now rewrite H.
Qed.

Lemma pctChange_nonzero_prev (curr prev : Q) :
  ~ (prev == 0)%Q ->
  pctChange curr prev
  = JS.div
      (inject_Z
         (JS.round (JS.mul (JS.mul (JS.div (JS.sub curr prev) prev) 100) 10)))
      10.
Proof.
  intros H. unfold pctChange.
  destruct (Qeq_bool prev 0) eqn:E; [| reflexivity].
  apply Qeq_bool_iff in E. contradiction.
Qed.

Lemma gtQ_lt (a b : Q) : gtQ a b = true <-> (b < a)%Q.
Proof.
  unfold gtQ. rewrite negb_true_iff. split.
  - intros H. apply Qnot_le_lt. intros L. apply Qle_bool_iff in L. congruence.
  - intros H. destruct (Qle_bool a b) eqn:E; [| reflexivity].
    apply Qle_bool_iff in E. lra.
Qed.

(** The quotient [(curr - prev) / prev] as the doubles give it. *)
Lemma change_quotient_near (c p : Q) :
  (1 # 16 <= Qabs p)%Q ->
  (Qabs (JS.div (JS.sub c p) p - (c - p) / p)
   <= Qabs ((c - p) / p) * (3 # 9007199254740992) + 18 * JS.tiny)%Q.
Proof.
  intros Hp. unfold JS.div, JS.sub.
  assert (Hnz : ~ (p == 0)%Q).
  { intros E. rewrite E in Hp. vm_compute in Hp. apply Hp. reflexivity. }
  set (D := (c - p)%Q). set (d := JS.toDouble D).
  pose proof (toDouble_near D) as H1. fold d in H1.
  pose proof (toDouble_near (d / p)) as H2.
  set (x := JS.toDouble (d / p)) in *.
  set (W := (/ Qabs p)%Q).
  assert (PW : (0 < W)%Q) by (apply Qinv_lt_0_compat; lra).
  assert (HW : (W <= 16)%Q).
  { assert (E : (W * Qabs p == 1)%Q).
    { unfold W. rewrite Qmult_comm. apply Qmult_inv_r. lra. }
    nra. }
  assert (E1 : (Qabs (d / p - D / p) == Qabs (d - D) * W)%Q).
  { assert (E : (d / p - D / p == (d - D) * / p)%Q) by (field; exact Hnz).
    rewrite E, Qabs_Qmult, Qabs_Qinv. reflexivity. }
  assert (E2 : (Qabs (D / p) == Qabs D * W)%Q).
  { unfold Qdiv. rewrite Qabs_Qmult, Qabs_Qinv. reflexivity. }
  assert (H3 : (Qabs (d / p - D / p)
                <= Qabs (D / p) * JS.ulpHalf + 16 * JS.tiny)%Q).
  { rewrite E1, E2.
    assert (M : (Qabs (d - D) * W <= (Qabs D * JS.ulpHalf + JS.tiny) * W)%Q).
    { apply Qmult_le_compat_r; [exact H1 | lra]. }
    assert (T : (0 < JS.tiny)%Q) by reflexivity.
    assert (R : ((Qabs D * JS.ulpHalf + JS.tiny) * W
                 == Qabs D * W * JS.ulpHalf + JS.tiny * W)%Q) by ring.
    rewrite R in M.
    assert (TW : (JS.tiny * W <= 16 * JS.tiny)%Q) by nra.
    lra. }
  pose proof (Qabs_bound _ _ _ H3) as B3.
  pose proof (Qabs_nonneg (D / p)) as A0.
  pose proof (Qabs_nonneg (d / p)) as A1.
  set (AE := Qabs (D / p)) in *. set (AX := Qabs (d / p)) in *.
  apply Qabs_Qle_condition in H2, H3.
  unfold JS.ulpHalf, JS.tiny in *.
  apply Qabs_Qle_condition. split; lra.
Qed.

(** A change against a previous value that is not small: a number of
    tenths, within one half (and what the doubles lose) of ten times the
    percentage. *)
Lemma pctChange_near (c p : Q) :
  (1 # 16 <= Qabs p)%Q ->
  exists n : Z,
    pctChange c p = JS.div (inject_Z n) 10
    /\ (Qabs (inject_Z n - (c - p) / p * 1000)
        <= (1 # 2) + Qabs ((c - p) / p) * (1 # 100000000000)
           + (1 # 100000000000000000000))%Q.
Proof.
  intros Hp.
  assert (Hnz : ~ (p == 0)%Q).
  { intros E. rewrite E in Hp. vm_compute in Hp. apply Hp. reflexivity. }
  rewrite (pctChange_nonzero_prev _ _ Hnz).
  eexists. split; [reflexivity |].
  pose proof (change_quotient_near c p Hp) as Hq.
  pose proof (permille_near _ _ _ Hq) as H.
  pose proof (Qabs_nonneg ((c - p) / p)) as A0.
  set (A := Qabs ((c - p) / p)) in *.
  eapply Qle_trans; [exact H |].
  unfold JS.tiny. lra.
Qed.

(** The samples of the specification, and a change that lies half-way
    between two tenths: 28.75 per cent is reported as 28.7. *)
Example pctChange_samples :
  pctChange 0 0 = 0%Q /\ pctChange 5 0 = 100%Q /\ (pctChange 50 100 == - (50))%Q
  /\ pctChange 103 80 = JS.toDouble (287 # 10).
Proof. repeat split; vm_compute; reflexivity. Qed.

Lemma sumZ_total (l : list Z) : sumZ l = Spec.total l.
Proof.
  unfold sumZ, Spec.total. apply fold_symmetric; intros; lia.
Qed.

Lemma setSize_visitors (ss : list AnalyticsSession) :
  uniqueVisitors ss = Spec.distinctVisitors ss.
Proof.
  unfold uniqueVisitors, Spec.distinctVisitors, JS.setSize, Spec.size. f_equal.
  apply NoDup_same_count.
  - exact (fun _ => true).
  - apply distinct_NoDup.
  - apply NoDup_nodup.
  - intros x. rewrite distinct_In, nodup_In. tauto.
Qed.

Lemma count_positive (A : Type) (x : A) (l : list A) : (count (x :: l) >? 0) = true.
Proof. unfold count. simpl List.length. apply Z.gtb_lt. lia. Qed.

Lemma avgDuration_mean (ss : list AnalyticsSession) :
  avgDuration ss = Spec.meanDuration ss.
Proof.
  destruct ss as [| s ss]; [reflexivity |].
  unfold avgDuration, Spec.meanDuration. rewrite count_positive.
  unfold quot. now rewrite sumZ_total.
Qed.

Lemma bounceRate_percent (ss : list AnalyticsSession) :
  bounceRate ss = Spec.bouncePercent ss.
Proof.
  destruct ss as [| s ss]; [reflexivity |].
  unfold bounceRate, Spec.bouncePercent. rewrite count_positive. reflexivity.
Qed.

Lemma pagesPerSession_mean (ss : list AnalyticsSession) :
  pagesPerSession ss = Spec.meanPageViews ss.
Proof.
  destruct ss as [| s ss]; [reflexivity |].
  unfold pagesPerSession, Spec.meanPageViews. rewrite count_positive.
  unfold quot. now rewrite sumZ_total.
Qed.

(** A number with one decimal is 0 or not small. *)
Lemma oneDecimal_apart (x : Q) :
  (0 <= x)%Q -> (Spec.oneDecimal x == 0)%Q \/ (1 # 16 <= Spec.oneDecimal x)%Q.
Proof.
  intros H. unfold Spec.oneDecimal.
  assert (N : 0 <= JS.round (JS.mul x 10)).
  { apply round_nonneg. unfold JS.mul. apply toDouble_nonneg. lra. }
  set (n := JS.round (JS.mul x 10)) in *.
  destruct (Z.eq_dec n 0) as [-> | Hn].
  - left. reflexivity.
  - right. assert (L : (1 <= inject_Z n)%Q).
    { change 1%Q with (inject_Z 1). rewrite <- Zle_Qle. lia. }
    apply Qle_trans with (JS.toDouble (1 # 10)); [vm_compute; discriminate |].
    unfold JS.div. apply toDouble_mono. 
    apply Qle_shift_div_l; [reflexivity | lra].
Qed.

Lemma bouncePercent_apart (ss : list AnalyticsSession) :
  (Spec.bouncePercent ss == 0)%Q \/ (1 # 16 <= Spec.bouncePercent ss)%Q.
Proof.
  destruct ss as [| s ss]; [left; reflexivity |].
  unfold Spec.bouncePercent. apply oneDecimal_apart.
  unfold JS.mul, JS.div. apply toDouble_nonneg.
  assert (Q0 : (0 <= JS.toDouble
                       (inject_Z (Spec.size (filter bounced (s :: ss)))
                        / inject_Z (Spec.size (s :: ss))))%Q).
  { apply toDouble_nonneg. apply Qle_shift_div_l.
    - change 0%Q with (inject_Z 0). rewrite <- Zlt_Qlt. unfold Spec.size.
      simpl List.length. lia.
    - rewrite Qmult_0_l. change 0%Q with (inject_Z 0). rewrite <- Zle_Qle.
      unfold Spec.size. lia. }
  lra.
Qed.

End StatsFacts.

(** C2, as stated, fails: the reply reports pages-per-session without any
    percentage change (here on a store with one session in the current week
    and one in the week before). *)
Lemma pages_per_session_has_no_change :
  let data := Aggregate.getStatsHandler 0 Spec.statsNow (Some "7d") Spec.twoWeeks in
  Spec.numberIs (Aggregate.property "pagesPerSession" data) 4
  /\ Spec.numberIs (Aggregate.property "avgDurationChange" data) 200
  /\ Aggregate.property "pagesPerSessionChange" data = None.
Proof.
  split; [| split].
  - eexists. split; [vm_compute; reflexivity | reflexivity].
  - eexists. split; [vm_compute; reflexivity | reflexivity].
  - reflexivity.
Qed.

(** C2, amended: for a range of today, 7d or 30d the current period starts
    at local midnight, or 7 or 30 days before now, and the previous period
    is the one, 7 or 30 days that end where the current one starts.  Unique
    visitors, total sessions, total page views, average duration and bounce
    rate are each reported with the change of their value over the sessions
    and page views of the current period against their value over those of
    the previous period; pages-per-session is reported without one.  The
    change is 100 or 0 (current positive or not) when the previous value is
    0.  Otherwise it is (current - previous) / previous * 100 rounded to one
    decimal in double arithmetic: the double nearest to n / 10 for an
    integer n within one half, and what the doubles lose, of a thousand
    times the quotient; every previous value that is not 0 is at least 1/16.
    A change half-way between two tenths may fall on either: 103 against 80
    is reported as 28.7. *)
Theorem stats_percentage_changes
    (tz now : Z) (queryRange : option string) (st : Store.t) :
  let range := JS.orElse queryRange "7d" in
  In range ["today"; "7d"; "30d"] ->
  let since := Spec.periodStart tz now range in
  let before := since - Spec.rangeLength range in
  let cur := filter (fun s => since <=? Store.startedAt s) (Store.sessions st) in
  let prev :=
    filter (fun s => (before <=? Store.startedAt s) && (Store.startedAt s <? since))%bool
           (Store.sessions st) in
  let curViews := filter (fun v => since <=? Store.timestamp v) (Store.pageViews st) in
  let prevViews :=
    filter (fun v => (before <=? Store.timestamp v) && (Store.timestamp v <? since))%bool
           (Store.pageViews st) in
  let data := Aggregate.getStatsHandler tz now queryRange st in
  let change key curr prev :=
    Aggregate.property key data = Some (Aggregate.JNum (Aggregate.pctChange curr prev)) in
  (range = "today" ->
   (since + tz) mod 86400000 = 0 /\ since <= now < since + 86400000)
  /\ change "visitorsChange" (inject_Z (Spec.distinctVisitors cur))
                             (inject_Z (Spec.distinctVisitors prev))
  /\ change "sessionsChange" (inject_Z (Spec.size cur)) (inject_Z (Spec.size prev))
  /\ change "pageViewsChange" (inject_Z (Spec.size curViews))
                              (inject_Z (Spec.size prevViews))
  /\ change "avgDurationChange" (inject_Z (Spec.meanDuration cur))
                                (inject_Z (Spec.meanDuration prev))
  /\ change "bounceRateChange" (Spec.bouncePercent cur) (Spec.bouncePercent prev)
  /\ Aggregate.property "pagesPerSession" data
     = Some (Aggregate.JNum (Spec.meanPageViews cur))
  /\ Aggregate.property "pagesPerSessionChange" data = None
  /\ (forall ss, (Spec.bouncePercent ss == 0)%Q \/ (1 # 16 <= Spec.bouncePercent ss)%Q)
  /\ (forall curr prev : Q,
        ((prev == 0)%Q -> (0 < curr)%Q -> Aggregate.pctChange curr prev = 100%Q)
        /\ ((prev == 0)%Q -> (curr <= 0)%Q -> Aggregate.pctChange curr prev = 0%Q)
        /\ ((1 # 16 <= Qabs prev)%Q ->
            exists n : Z,
              Aggregate.pctChange curr prev = JS.div (inject_Z n) 10
              /\ (Qabs (inject_Z n - (curr - prev) / prev * 1000)
                  <= (1 # 2) + Qabs ((curr - prev) / prev) * (1 # 100000000000)
                     + (1 # 100000000000000000000))%Q))
  /\ (Aggregate.pctChange 0 0 = 0%Q /\ Aggregate.pctChange 5 0 = 100%Q
      /\ (Aggregate.pctChange 50 100 == - (50))%Q
      /\ Aggregate.pctChange 103 80 = JS.toDouble (287 # 10)).
Proof.
  intros range Hr since before cur prev curViews prevViews data change.
  assert (Hall : (range =? "all")%string = false).
  { destruct Hr as [<- | [<- | [<- | []]]]; reflexivity. }
  assert (Hw : Aggregate.statsWindow tz now range = (since, before, since)).
  { subst since before. unfold Aggregate.statsWindow, Spec.periodStart, Spec.rangeLength,
      JSDate.startOfDay, JSDate.localDay, JSDate.msPerDay.
    destruct Hr as [<- | [<- | [<- | []]]]; reflexivity. }
  assert (Hdata :
    data =
    [ ("visitors", Aggregate.JNum (inject_Z (Spec.distinctVisitors cur)));
      ("visitorsChange",
         Aggregate.JNum (Aggregate.pctChange (inject_Z (Spec.distinctVisitors cur))
                                             (inject_Z (Spec.distinctVisitors prev))));
      ("sessions", Aggregate.JNum (inject_Z (Spec.size cur)));
      ("sessionsChange",
         Aggregate.JNum (Aggregate.pctChange (inject_Z (Spec.size cur))
                                             (inject_Z (Spec.size prev))));
      ("pageViews", Aggregate.JNum (inject_Z (Spec.size curViews)));
      ("pageViewsChange",
         Aggregate.JNum (Aggregate.pctChange (inject_Z (Spec.size curViews))
                                             (inject_Z (Spec.size prevViews))));
      ("avgDuration", Aggregate.JNum (inject_Z (Spec.meanDuration cur)));
      ("avgDurationChange",
         Aggregate.JNum (Aggregate.pctChange (inject_Z (Spec.meanDuration cur))
                                             (inject_Z (Spec.meanDuration prev))));
      ("bounceRate", Aggregate.JNum (Spec.bouncePercent cur));
      ("bounceRateChange",
         Aggregate.JNum (Aggregate.pctChange (Spec.bouncePercent cur)
                                             (Spec.bouncePercent prev)));
      ("pagesPerSession", Aggregate.JNum (Spec.meanPageViews cur));
      ("range", Aggregate.JStr range) ]).
  { subst data. unfold Aggregate.getStatsHandler. cbv zeta. fold range.
    rewrite Hall, Hw. cbn [negb Aggregate.wSince Aggregate.wPrevSince Aggregate.wPrevUntil
                           fst snd].
    unfold Aggregate.sessionsSince, Aggregate.sessionsBetween,
      Aggregate.pageViewsSince, Aggregate.pageViewsBetween.
    fold cur prev curViews prevViews.
    rewrite !setSize_visitors, !avgDuration_mean, !bounceRate_percent,
      pagesPerSession_mean.
    reflexivity. }
  split; [| repeat (split; [subst change; cbv beta; rewrite Hdata; reflexivity |])].
  - intros Ht. subst since. unfold Spec.periodStart. rewrite Ht. simpl String.eqb.
    cbv iota. split.
    + replace ((now + tz) / 86400000 * 86400000 - tz + tz)
        with ((now + tz) / 86400000 * 86400000) by lia.
      apply Z_mod_mult.
    + pose proof (Z.mul_div_le (now + tz) 86400000 eq_refl).
      pose proof (Z.mul_succ_div_gt (now + tz) 86400000 eq_refl). lia.
  - split; [apply bouncePercent_apart | split].
    + intros curr prev0. split; [| split].
      * intros Hz Hc. rewrite (pctChange_zero_prev _ _ Hz).
        now rewrite (proj2 (gtQ_lt curr 0) Hc).
      * intros Hz Hc. rewrite (pctChange_zero_prev _ _ Hz).
        destruct (Aggregate.gtQ curr 0) eqn:E; [| reflexivity].
        apply gtQ_lt in E. lra.
      * apply pctChange_near.
    + apply pctChange_samples.
Qed.

(** ** Top pages *)

Section TopPagesFacts.
Import Store Aggregate Spec.

Lemma sumZ_from (l : list Z) (a : Z) : fold_left Z.add l a = a + sumZ l.
Proof.
  unfold sumZ. revert a. induction l as [| x l IH]; intros a; cbn [fold_left]; [lia |].
  rewrite (IH (a + x)), (IH (0 + x)). lia.
Qed.

Lemma sumZ_cons (x : Z) (l : list Z) : sumZ (x :: l) = x + sumZ l.
Proof. unfold sumZ at 1. cbn [fold_left]. rewrite sumZ_from. lia. Qed.

Lemma count_cons (A : Type) (x : A) (l : list A) : count (x :: l) = 1 + count l.
Proof. unfold count. simpl List.length. lia. Qed.

Lemma count_filter_le (A : Type) (p : A -> bool) (l : list A) :
  count (filter p l) <= count l.
Proof. unfold count. pose proof (filter_length_le p l). lia. Qed.

(** The fields of an entry after the aggregation loop ran over [l]. *)
Lemma addView_fold (l : list PageView) (a : PageAgg) :
  let a' := fold_left (fun acc v => addView v acc) l a in
  aViews a' = aViews a + count l
  /\ aSessions a' = fold_left (fun acc v => JS.setAdd (sessionId v) acc) l (aSessions a)
  /\ timeCount a' = timeCount a + count (filter (fun v => JS.truthyZ (timeOnPage v)) l)
  /\ totalTime a'
     = totalTime a
       + sumZ (map (fun v => JS.orZero (timeOnPage v))
                   (filter (fun v => JS.truthyZ (timeOnPage v)) l))
  /\ scrollCount a'
     = scrollCount a + count (filter (fun v => JS.truthyZ (scrollDepth v)) l)
  /\ totalScroll a'
     = totalScroll a
       + sumZ (map (fun v => JS.orZero (scrollDepth v))
                   (filter (fun v => JS.truthyZ (scrollDepth v)) l)).
Proof.
  revert a. induction l as [| v l IH]; intros a; cbv zeta.
  - simpl. unfold count, sumZ. simpl. repeat split; lia.
  - simpl fold_left. destruct (IH (addView v a)) as (H1 & H2 & H3 & H4 & H5 & H6).
    cbv zeta in *. rewrite H1, H2, H3, H4, H5, H6. clear.
    unfold addView.
    cbn [aViews aSessions timeCount totalTime scrollCount totalScroll filter].
    rewrite count_cons.
    destruct (JS.truthyZ (timeOnPage v)), (JS.truthyZ (scrollDepth v));
      cbn [map]; rewrite ?count_cons, ?sumZ_cons; repeat split; lia.
Qed.

Lemma pageMap_NoDup (vs : list PageView) : NoDup (map fst (pageMap vs)).
Proof.
  unfold pageMap, addToPage.
  rewrite (group_keys path emptyAgg addView). apply fold_setAdd_NoDup. constructor.
Qed.

Lemma pageMap_paths (vs : list PageView) (p : string) :
  In p (map fst (pageMap vs)) <-> exists v, In v vs /\ path v = p.
Proof.
  unfold pageMap, addToPage.
  rewrite (group_keys path emptyAgg addView), fold_setAdd_In. simpl. tauto.
Qed.

Lemma pageMap_entry (vs : list PageView) (p : string) (agg : PageAgg) :
  In (p, agg) (pageMap vs) ->
  exists x r, viewsOfPath vs p = x :: r
              /\ agg = fold_left (fun acc v => addView v acc) (x :: r) (emptyAgg x).
Proof.
  intros H. apply (mapGet_In _ _ _ (pageMap_NoDup vs)) in H.
  unfold pageMap, addToPage in H.
  rewrite (group_get path emptyAgg addView) in H. fold (viewsOfPath vs p) in H.
  destruct (viewsOfPath vs p) as [| x r]; [discriminate |].
  exists x, r. split; [reflexivity |]. simpl in H. now injection H as <-.
Qed.

Lemma viewedOnce_count (vs : list PageView) (s : string) :
  viewedOnce (sessionPageCounts vs) s = singleView vs s.
Proof.
  unfold viewedOnce, sessionPageCounts, bumpCount, singleView.
  rewrite (group_get sessionId (fun _ => 0) (fun _ n => n + 1)).
  assert (E : forall (l : list PageView) n,
             fold_left (fun a _ => a + 1) l n = n + count l).
  { induction l as [| x l IH]; intros n; simpl.
    - unfold count. simpl. lia.
    - rewrite IH, count_cons. lia. }
  destruct (filter _ vs) as [| x r] eqn:Ef.
  - reflexivity.
  - simpl JS.mapGet. cbv iota. rewrite E. reflexivity.
Qed.

Lemma distinct_nonempty (l : list string) : l <> [] -> 1 <= count (JS.distinct l).
Proof.
  destruct l as [| x l]; [congruence |]. intros _. simpl. rewrite count_cons.
  unfold count. lia.
Qed.

(** A row of the reply, in terms of the in-range views. *)
Lemma pageRow_spec (vs : list PageView) (p : string) (agg : PageAgg) :
  In (p, agg) (pageMap vs) ->
  let r := pageRow vs (p, agg) in
  rPath r = p
  /\ rViews r = count (viewsOfPath vs p)
  /\ 1 <= rViews r
  /\ rUniqueVisitors r = count (sessionsOfPath vs p)
  /\ 1 <= rUniqueVisitors r
  /\ rBounceRate r
     = JS.round
         (JS.mul
            (JS.div (inject_Z (count (filter (singleView vs) (sessionsOfPath vs p))))
                    (inject_Z (count (sessionsOfPath vs p))))
            100)
  /\ rAvgTime r = roundedMean (fun v => JS.orZero (timeOnPage v)) (timedViews vs p)
  /\ rAvgScroll r = roundedMean (fun v => JS.orZero (scrollDepth v)) (scrolledViews vs p).
Proof.
  intros Hin. destruct (pageMap_entry vs p agg Hin) as (x & l & Ev & ->).
  destruct (addView_fold (x :: l) (emptyAgg x)) as (H1 & H2 & H3 & H4 & H5 & H6).
  cbv zeta in *. set (a := fold_left _ (x :: l) (emptyAgg x)) in *.
  change (aViews (emptyAgg x)) with 0 in H1.
  change (aSessions (emptyAgg x)) with (@nil string) in H2.
  change (timeCount (emptyAgg x)) with 0 in H3.
  change (totalTime (emptyAgg x)) with 0 in H4.
  change (scrollCount (emptyAgg x)) with 0 in H5.
  change (totalScroll (emptyAgg x)) with 0 in H6.
  assert (Hset : forall y, In y (aSessions a) <-> In y (sessionsOfPath vs p)).
  { intros y. rewrite H2, (fold_setAdd_In sessionId). unfold sessionsOfPath.
    rewrite distinct_In, in_map_iff, Ev. simpl. split.
    - intros [[] | [v [Hv <-]]]. now exists v.
    - intros [v [<- Hv]]. right. now exists v. }
  assert (Hnd : NoDup (aSessions a)).
  { rewrite H2. apply fold_setAdd_NoDup. constructor. }
  destruct (NoDup_same_count (viewedOnce (sessionPageCounts vs)) _ _ Hnd
              (distinct_NoDup _) Hset) as [Hlen Hflen].
  assert (Hcount : count (aSessions a) = count (sessionsOfPath vs p)).
  { unfold count. now rewrite Hlen. }
  assert (Hone : 1 <= count (sessionsOfPath vs p)).
  { unfold sessionsOfPath. apply distinct_nonempty. rewrite Ev. discriminate. }
  unfold pageRow. cbn [rPath rViews rUniqueVisitors rBounceRate rAvgTime rAvgScroll].
  rewrite Hcount, H1, H3, H4, H5, H6, <- Ev.
  split; [| split; [| split; [| split; [| split; [| split; [| split]]]]]].
  - reflexivity.
  - lia.
  - rewrite Ev, count_cons. unfold count. lia.
  - reflexivity.
  - exact Hone.
  - destruct (Z.gtb_spec (count (sessionsOfPath vs p)) 0); [| lia].
    unfold quot. do 4 f_equal. unfold count. f_equal.
    rewrite Hflen. f_equal. apply filter_ext. intros s. apply viewedOnce_count.
  - unfold roundedMean, timedViews. now rewrite !Z.add_0_l.
  - unfold roundedMean, scrolledViews. now rewrite !Z.add_0_l.
Qed.

Lemma ranked_row (vs : list PageView) (r : PageRow) :
  In r (rankedPages vs) ->
  exists agg, In (rPath r, agg) (pageMap vs) /\ r = pageRow vs (rPath r, agg).
Proof.
  unfold rankedPages. rewrite sort_In, in_map_iff.
  intros [[p agg] [<- Hin]]. exists agg. simpl. auto.
Qed.

Lemma ranked_paths (vs : list PageView) :
  NoDup (map rPath (rankedPages vs))
  /\ forall p, In p (map rPath (rankedPages vs)) <-> exists v, In v vs /\ path v = p.
Proof.
  assert (Hp : Permutation (map rPath (rankedPages vs)) (map fst (pageMap vs))).
  { unfold rankedPages.
    rewrite (Permutation_map rPath (sort_perm _ _)), map_map.
    erewrite map_ext; [reflexivity |]. now intros [p agg]. }
  split.
  - eapply Permutation_NoDup; [symmetry; exact Hp | apply pageMap_NoDup].
  - intros p. rewrite <- pageMap_paths. split; apply Permutation_in;
      [exact Hp | symmetry; exact Hp].
Qed.

Lemma StronglySorted_weaken (A : Type) (R R' : A -> A -> Prop) (l : list A) :
  (forall a b, R a b -> R' a b) -> StronglySorted R l -> StronglySorted R' l.
Proof.
  intros HR H. induction H as [| x l Hs IH Hall]; constructor; [assumption |].
  eapply Forall_impl; [| exact Hall]. intros y. apply HR.
Qed.

Lemma ranked_sorted (vs : list PageView) :
  StronglySorted (fun a b => rViews b <= rViews a) (rankedPages vs).
Proof.
  unfold rankedPages.
  apply StronglySorted_weaken with (R := fun a b => (rViews b <=? rViews a) = true).
  - intros a b. apply Z.leb_le.
  - apply sort_sorted.
    + intros a b. rewrite !Z.leb_le. lia.
    + intros a b c. rewrite !Z.leb_le. lia.
Qed.

End TopPagesFacts.

(** The range of a page view query is the filter of the views from its
    start on. *)
Lemma pagesSince_start (tz now : Z) (range : string) :
  Aggregate.pagesSince tz now range = Spec.rangeStart tz now range.
Proof.
  unfold Aggregate.pagesSince, Spec.rangeStart, Spec.periodStart, Spec.rangeLength,
    JSDate.startOfDay, JSDate.localDay, JSDate.msPerDay.
  destruct (String.eqb_spec range "all") as [-> | Hall]; [reflexivity |].
  destruct (range =? "today")%string; [reflexivity |].
  destruct (range =? "30d")%string; reflexivity.
Qed.

(** C5, as stated, fails: of the three sessions that viewed /a one has a
    single view, and the reported bounce rate is 33, not the fraction 100/3;
    and a supplied limit of -1 does not truncate to it but drops the last
    row, leaving one. *)
Lemma bounce_rate_is_rounded :
  let st := Store.mkStore [] Spec.mixedViews in
  (exists r, In r (Aggregate.getTopPagesHandler 0 10000 (Some "all") None st)
             /\ Aggregate.rPath r = "/a"
             /\ Aggregate.rBounceRate r = 33
             /\ (Spec.bounceShare Spec.mixedViews "/a" == 100 # 3)%Q
             /\ ~ (inject_Z (Aggregate.rBounceRate r)
                   == Spec.bounceShare Spec.mixedViews "/a")%Q)
  /\ List.length (Aggregate.getTopPagesHandler 0 10000 (Some "all") (Some "-1") st) = 1%nat.
Proof.
  split; [| reflexivity].
  eexists. split; [left; reflexivity |].
  repeat split; try reflexivity. vm_compute. discriminate.
Qed.

(** C5, amended: every row of the top-pages reply stands for one path with
    in-range views (the views from the start of the range on) and reports
    its number of views, its number of distinct sessions, and as bounce
    rate the percentage of these sessions that have exactly one in-range
    view on any path, rounded to an integer: [Math.round] of the share
    times 100 in double arithmetic, an integer from 0 to 100 within one
    half (and what the doubles lose) of the percentage, so that 23 of 40
    sessions give 57.  The rows are in descending order of views; they are
    the first [n] of the ranking when the supplied limit parses to a
    non-negative [n], and the first 20 when no limit (or an empty one) is
    supplied. *)
Theorem top_pages_bounce_and_order
    (tz now : Z) (queryRange queryLimit : option string) (st : Store.t) :
  let since := Spec.rangeStart tz now (JS.orElse queryRange "7d") in
  let vs := filter (fun v => since <=? Store.timestamp v) (Store.pageViews st) in
  let ranked := Aggregate.rankedPages vs in
  let rows := Aggregate.getTopPagesHandler tz now queryRange queryLimit st in
  (forall r, In r ranked ->
     let sessions := Spec.sessionsOfPath vs (Aggregate.rPath r) in
     let single := filter (Spec.singleView vs) sessions in
     Aggregate.rViews r = Aggregate.count (Spec.viewsOfPath vs (Aggregate.rPath r))
     /\ Aggregate.rUniqueVisitors r = Aggregate.count sessions
     /\ 1 <= Aggregate.rUniqueVisitors r
     /\ Aggregate.rBounceRate r
        = JS.round (JS.mul (JS.div (inject_Z (Aggregate.count single))
                                   (inject_Z (Aggregate.count sessions))) 100)
     /\ 0 <= Aggregate.rBounceRate r <= 100
     /\ (Qabs (inject_Z (Aggregate.rBounceRate r)
               - Spec.bounceShare vs (Aggregate.rPath r))
         <= (1 # 2) + (1 # 1000000000000))%Q)
  /\ NoDup (map Aggregate.rPath ranked)
  /\ (forall p, In p (map Aggregate.rPath ranked)
                <-> exists v, In v vs /\ Store.path v = p)
  /\ StronglySorted (fun a b => Aggregate.rViews b <= Aggregate.rViews a) ranked
  /\ (forall r, In r rows -> In r ranked)
  /\ StronglySorted (fun a b => Aggregate.rViews b <= Aggregate.rViews a) rows
  /\ (JS.truthy queryLimit = false -> rows = firstn 20 ranked)
  /\ (forall n, JS.parseInt (JS.orElse queryLimit "20") = Some n -> 0 <= n ->
                rows = firstn (Z.to_nat n) ranked)
  /\ (Aggregate.count (Spec.sessionsOfPath Spec.fortyViews "/a") = 40
      /\ Aggregate.count
           (filter (Spec.singleView Spec.fortyViews)
                   (Spec.sessionsOfPath Spec.fortyViews "/a")) = 23
      /\ Aggregate.getTopPagesHandler 0 10000 (Some "all") None
           (Store.mkStore [] Spec.fortyViews)
         = [ Aggregate.mkPageRow "/a" "/a" 40 40 0 0 57;
             Aggregate.mkPageRow "/b" "/b" 17 17 0 0 0 ]).
Proof.
  intros since vs ranked rows.
  assert (Hvs : Aggregate.pageViewsSince
                  (Aggregate.pagesSince tz now (JS.orElse queryRange "7d")) st = vs).
  { unfold Aggregate.pageViewsSince. now rewrite pagesSince_start. }
  split; [| split; [| split; [| split; [| split; [| split; [| split; [| split]]]]]]].
  - intros r Hr sessions single.
    destruct (ranked_row vs r Hr) as (agg & Hin & E).
    destruct (pageRow_spec vs (Aggregate.rPath r) agg Hin) as (_ & H2 & _ & H4 & H5 & H6 & _).
    cbv zeta in *. rewrite <- E in *. fold sessions in H4, H6. fold single in H6.
    assert (Hb : 0 <= Aggregate.count single <= Aggregate.count sessions).
    { split; [unfold Aggregate.count; lia | apply count_filter_le]. }
    assert (Hpos : 0 < Aggregate.count sessions) by lia.
    split; [exact H2 | split; [exact H4 | split; [exact H5 | split; [exact H6 |]]]].
    split.
    + rewrite H6. now apply percent_range.
    + rewrite H6. unfold Spec.bounceShare. fold sessions. fold single.
      unfold JS.div.
      set (a := (inject_Z (Aggregate.count single)
                 / inject_Z (Aggregate.count sessions))%Q).
      pose proof (percent_near a) as Hn.
      assert (Ha : (0 <= a)%Q /\ (a <= 1)%Q).
      { assert (Ht : (0 < inject_Z (Aggregate.count sessions))%Q)
          by (change 0%Q with (inject_Z 0); now rewrite <- Zlt_Qlt).
        unfold a. split.
        - apply Qle_shift_div_l; [exact Ht |]. rewrite Qmult_0_l.
          change 0%Q with (inject_Z 0). rewrite <- Zle_Qle. lia.
        - apply Qle_shift_div_r; [exact Ht |]. rewrite Qmult_1_l.
          rewrite <- Zle_Qle. lia. }
      rewrite (Qabs_pos a) in Hn by tauto.
      eapply Qle_trans; [exact Hn |]. unfold JS.tiny. lra.
  - apply ranked_paths.
  - apply ranked_paths.
  - apply ranked_sorted.
  - intros r. subst rows. unfold Aggregate.getTopPagesHandler. cbv zeta.
    rewrite Hvs. apply slice0_incl.
  - subst rows. unfold Aggregate.getTopPagesHandler. cbv zeta. rewrite Hvs.
    apply slice0_sorted, ranked_sorted.
  - intros Hf. subst rows. unfold Aggregate.getTopPagesHandler. cbv zeta.
    rewrite Hvs. fold ranked.
    destruct queryLimit as [l |]; [| reflexivity].
    simpl in Hf. apply negb_false_iff in Hf. simpl. rewrite Hf. reflexivity.
  - intros n Hn Hpos. subst rows. unfold Aggregate.getTopPagesHandler. cbv zeta.
    rewrite Hvs. fold ranked. rewrite Hn. unfold JS.slice0.
    destruct (Z.ltb_spec n 0); [lia | reflexivity].
  - repeat split; vm_compute; reflexivity.
Qed.

(** C7: the code contradicts the claim.  Of the two views of /a one has
    time on page 0 and scroll depth 0 recorded, the other 10 and 50; the
    means over the views that recorded a value are 5 and 25, and the reply
    reports 10 and 50, the views with a recorded 0 being skipped. *)
Lemma recorded_zero_is_skipped :
  exists r,
    Aggregate.getTopPagesHandler 0 10000 (Some "all") None
      (Store.mkStore [] Spec.zeroViews) = [r]
    /\ Aggregate.rAvgTime r = 10
    /\ Aggregate.rAvgScroll r = 50
    /\ Spec.roundedMean (fun v => JS.orZero (Store.timeOnPage v))
                        (Spec.recordedTimes Spec.zeroViews "/a") = 5
    /\ Spec.roundedMean (fun v => JS.orZero (Store.scrollDepth v))
                        (Spec.recordedScrolls Spec.zeroViews "/a") = 25.
Proof. eexists. split; [reflexivity |]. repeat split. Qed.

(** What the top-pages means are on the code: over the views whose
    recorded value is not 0. *)
Lemma top_pages_means_skip_zero
    (tz now : Z) (queryRange queryLimit : option string) (st : Store.t)
    (r : Aggregate.PageRow) :
  let vs := Aggregate.pageViewsSince
              (Aggregate.pagesSince tz now (JS.orElse queryRange "7d")) st in
  In r (Aggregate.getTopPagesHandler tz now queryRange queryLimit st) ->
  Aggregate.rAvgTime r
  = Spec.roundedMean (fun v => JS.orZero (Store.timeOnPage v))
                     (Spec.timedViews vs (Aggregate.rPath r))
  /\ Aggregate.rAvgScroll r
     = Spec.roundedMean (fun v => JS.orZero (Store.scrollDepth v))
                        (Spec.scrolledViews vs (Aggregate.rPath r)).
Proof.
  intros vs Hr. apply slice0_incl in Hr.
  destruct (ranked_row vs r Hr) as (agg & Hin & E).
  destruct (pageRow_spec vs (Aggregate.rPath r) agg Hin) as (_ & _ & _ & _ & _ & _ & H7 & H8).
  cbv zeta in *. rewrite <- E in *. auto.
Qed.

(** C10, as stated, fails: a limit that is present and empty does not
    parse as an integer, yet the default of 20 applies and both pages are
    returned. *)
Lemma empty_limit_takes_the_default :
  JS.parseInt "" = None
  /\ List.length (Aggregate.getTopPagesHandler 0 10000 (Some "all") (Some "")
                    (Store.mkStore [] Spec.mixedViews)) = 2%nat.
Proof. split; reflexivity. Qed.

(** C10, amended: when the limit parameter is present, not empty and does
    not parse as an integer (as "abc"), the reply holds no page; the default
    of 20 applies when the parameter is absent or empty.  White space before
    the number does not keep a limit from parsing: a no-break space followed
    by 1 is the limit 1. *)
Theorem unparseable_limit_gives_no_page
    (tz now : Z) (queryRange : option string) (st : Store.t) (limit : string) :
  limit <> "" ->
  JS.parseInt limit = None ->
  let since := Spec.rangeStart tz now (JS.orElse queryRange "7d") in
  let ranked :=
    Aggregate.rankedPages
      (filter (fun v => since <=? Store.timestamp v) (Store.pageViews st)) in
  Aggregate.getTopPagesHandler tz now queryRange (Some limit) st = []
  /\ Aggregate.getTopPagesHandler tz now queryRange (Some "abc") st = []
  /\ (forall absent, absent = None \/ absent = Some "" ->
        Aggregate.getTopPagesHandler tz now queryRange absent st = firstn 20 ranked)
  /\ Aggregate.getTopPagesHandler tz now queryRange (Some (JS.utf8 160 ++ "1")%string) st
     = firstn 1 ranked.
Proof.
  intros Hne Hnan since ranked.
  assert (Hvs : Aggregate.pageViewsSince
                  (Aggregate.pagesSince tz now (JS.orElse queryRange "7d")) st
                = filter (fun v => since <=? Store.timestamp v) (Store.pageViews st)).
  { unfold Aggregate.pageViewsSince. now rewrite pagesSince_start. }
  split; [| split; [| split]].
  - unfold Aggregate.getTopPagesHandler. cbv zeta.
    rewrite (orElse_Some _ _ Hne), Hnan. reflexivity.
  - reflexivity.
  - intros absent [-> | ->]; unfold Aggregate.getTopPagesHandler; cbv zeta;
      rewrite Hvs; reflexivity.
  - unfold Aggregate.getTopPagesHandler. cbv zeta. rewrite Hvs. reflexivity.
Qed.

(** C10 at the limit "ten": of the two pages of the views none is
    returned, and the first of them with a no-break space and 1. *)
Lemma unparseable_limit_gives_no_page_witness :
  "ten" <> "" /\ JS.parseInt "ten" = None
  /\ Aggregate.getTopPagesHandler 0 10000 (Some "all") (Some "ten")
       (Store.mkStore [] Spec.mixedViews) = []
  /\ List.length
       (Aggregate.getTopPagesHandler 0 10000 (Some "all")
          (Some (JS.utf8 160 ++ "1")%string) (Store.mkStore [] Spec.mixedViews))
     = 1%nat.
Proof.
  assert (H1 : "ten" <> "") by discriminate.
  assert (H2 : JS.parseInt "ten" = None) by reflexivity.
  split; [exact H1 | split; [exact H2 |]].
  pose proof (unparseable_limit_gives_no_page 0 10000 (Some "all")
                (Store.mkStore [] Spec.mixedViews) "ten" H1 H2) as T.
  cbv zeta in T. destruct T as (T1 & _ & _ & T4).
  split; [exact T1 |]. rewrite T4. reflexivity.
Defined.

(** ** The order of strings *)

Section StringOrder.

Lemma ascii_compare_N (a b : ascii) :
  Ascii.compare a b = N.compare (N_of_ascii a) (N_of_ascii b).
Proof. reflexivity. Qed.

Lemma ascii_compare_refl (a : ascii) : Ascii.compare a a = Eq.
Proof. rewrite ascii_compare_N. apply N.compare_refl. Qed.

Lemma string_compare_cons (a b : ascii) (s t : string) :
  String.compare (String a s) (String b t)
  = match Ascii.compare a b with
    | Eq => String.compare s t
    | c => c
    end.
Proof. simpl. now destruct (Ascii.compare a b). Qed.

Lemma string_leb_trans (s1 s2 s3 : string) :
  String.leb s1 s2 = true -> String.leb s2 s3 = true -> String.leb s1 s3 = true.
Proof.
  unfold String.leb. revert s2 s3.
  induction s1 as [| a s1 IH]; intros [| b s2] [| c s3]; simpl; try congruence.
  rewrite !ascii_compare_N.
  destruct (N.compare_spec (N_of_ascii a) (N_of_ascii b)) as [E1 | L1 | G1];
    try congruence;
    destruct (N.compare_spec (N_of_ascii b) (N_of_ascii c)) as [E2 | L2 | G2];
    try congruence;
    destruct (N.compare_spec (N_of_ascii a) (N_of_ascii c)) as [E3 | L3 | G3];
    try congruence; try lia.
  apply IH.
Qed.

Lemma string_leb_ltb (s t : string) :
  String.leb s t = true -> s <> t -> String.ltb s t = true.
Proof.
  unfold String.leb, String.ltb. intros H Hne.
  destruct (String.compare s t) eqn:E; try congruence.
  apply String.compare_eq_iff in E. contradiction.
Qed.

Lemma string_ltb_not_leb (s t : string) :
  String.ltb s t = true -> String.leb t s = false.
Proof.
  unfold String.leb, String.ltb. rewrite (String.compare_antisym s t).
  destruct (String.compare t s); simpl; congruence.
Qed.

(** Two strings that start with fields of the same length are compared
    field first. *)
Lemma string_compare_app (a1 a2 r1 r2 : string) :
  String.length a1 = String.length a2 ->
  String.compare (a1 ++ r1) (a2 ++ r2)
  = match String.compare a1 a2 with
    | Eq => String.compare r1 r2
    | c => c
    end.
Proof.
  revert a2. induction a1 as [| x a1 IH]; intros [| y a2] Hlen; simpl in *;
    try discriminate; [reflexivity |].
  destruct (Ascii.compare x y); try reflexivity.
  apply IH. congruence.
Qed.

End StringOrder.

(** ** The calendar *)

Section CalendarFacts.
Import JSDate.

Lemma dayOfEra_range (a : Z) : 0 <= dayOfEra a <= 146096.
Proof. unfold dayOfEra, eraOf. Z.div_mod_to_equations; lia. Qed.

Lemma yearOfEra_range (doe : Z) : 0 <= doe <= 146096 -> 0 <= yearOfEra doe <= 399.
Proof. intros H. unfold yearOfEra. Z.div_mod_to_equations; lia. Qed.

Lemma dayOfYear_range (doe : Z) : 0 <= doe <= 146096 -> 0 <= dayOfYear doe <= 365.
Proof.
  intros H. unfold dayOfYear, yearOfEra. cbv zeta. Z.div_mod_to_equations; lia.
Qed.

Lemma yearOfEra_mono (a b : Z) :
  0 <= a -> a <= b -> b <= 146096 -> yearOfEra a <= yearOfEra b.
Proof. intros H1 H2 H3. unfold yearOfEra. Z.div_mod_to_equations; lia. Qed.

Lemma ofMarch_range (y n : Z) :
  0 <= n <= 365 ->
  1 <= snd (fst (ofMarch y n)) <= 12 /\ 1 <= snd (ofMarch y n) <= 31.
Proof.
  intros H. unfold ofMarch. cbv zeta. cbn [fst snd].
  destruct (Z.ltb_spec ((5 * n + 2) / 153) 10); (Z.div_mod_to_equations; lia).
Qed.

Lemma civil_range (a : Z) :
  1 <= snd (fst (civil a)) <= 12 /\ 1 <= snd (civil a) <= 31.
Proof. unfold civil. cbv zeta. apply ofMarch_range, dayOfYear_range, dayOfEra_range. Qed.

Lemma localDay_mono (tz t1 t2 : Z) : t1 <= t2 -> localDay tz t1 <= localDay tz t2.
Proof. intros H. unfold localDay, msPerDay. Z.div_mod_to_equations; lia. Qed.

Lemma getHours_range (tz t : Z) : 0 <= getHours tz t <= 23.
Proof. unfold getHours, msPerDay, msPerHour. Z.div_mod_to_equations; lia. Qed.

Lemma getHours_mono (tz t1 t2 : Z) :
  t1 <= t2 -> localDay tz t1 = localDay tz t2 -> getHours tz t1 <= getHours tz t2.
Proof.
  unfold localDay, getHours, msPerDay, msPerHour. intros H E.
  Z.div_mod_to_equations; lia.
Qed.

Lemma era_strict (a b : Z) :
  a < b -> eraOf a < eraOf b \/ (eraOf a = eraOf b /\ dayOfEra a < dayOfEra b).
Proof. intros H. unfold dayOfEra, eraOf. Z.div_mod_to_equations; lia. Qed.

Lemma march_strict (a b : Z) :
  a < b ->
  let ya := yearOfEra (dayOfEra a) + eraOf a * 400 in
  let yb := yearOfEra (dayOfEra b) + eraOf b * 400 in
  ya < yb \/ (ya = yb /\ dayOfYear (dayOfEra a) < dayOfYear (dayOfEra b)).
Proof.
  intros H ya yb. subst ya yb.
  pose proof (dayOfEra_range a) as Ra. pose proof (dayOfEra_range b) as Rb.
  pose proof (yearOfEra_range _ Ra) as Ya. pose proof (yearOfEra_range _ Rb) as Yb.
  destruct (era_strict a b H) as [He | [He Hd]].
  - left. lia.
  - assert (Hle : dayOfEra a <= dayOfEra b) by lia.
    pose proof (yearOfEra_mono _ _ (proj1 Ra) Hle (proj2 Rb)) as Hy.
    rewrite He.
    destruct (Z.eq_dec (yearOfEra (dayOfEra a)) (yearOfEra (dayOfEra b))) as [E | N].
    + right. split; [lia |]. unfold dayOfYear. cbv zeta. rewrite E. lia.
    + left. lia.
Qed.

Lemma ofMarch_strict (y1 y2 n1 n2 : Z) :
  0 <= n1 <= 365 -> 0 <= n2 <= 365 ->
  (y1 < y2 \/ (y1 = y2 /\ n1 < n2)) ->
  Spec.dateLt (ofMarch y1 n1) (ofMarch y2 n2).
Proof.
  intros H1 H2 H. unfold ofMarch, Spec.dateLt. cbv zeta.
  destruct (Z.ltb_spec ((5 * n1 + 2) / 153) 10), (Z.ltb_spec ((5 * n2 + 2) / 153) 10);
    repeat match goal with |- context [?a <=? ?b] => destruct (Z.leb_spec a b) end;
    (Z.div_mod_to_equations; lia).
Qed.

(** A later day has a later date. *)
Lemma civil_strict (a b : Z) : a < b -> Spec.dateLt (civil a) (civil b).
Proof.
  intros H. unfold civil. cbv zeta. apply ofMarch_strict.
  - apply dayOfYear_range, dayOfEra_range.
  - apply dayOfYear_range, dayOfEra_range.
  - apply march_strict, H.
Qed.

End CalendarFacts.

(** ** The rendering of dates *)

Section FormatFacts.
Import JSDate.

Lemma digit_cases (a : Z) :
  0 <= a <= 9 ->
  a = 0 \/ a = 1 \/ a = 2 \/ a = 3 \/ a = 4 \/ a = 5 \/ a = 6 \/ a = 7 \/ a = 8 \/ a = 9.
Proof. lia. Qed.

Lemma digit_compare (a b : Z) :
  0 <= a <= 9 -> 0 <= b <= 9 ->
  Ascii.compare (digitChar a) (digitChar b) = (a ?= b).
Proof.
  intros Ha Hb. apply digit_cases in Ha, Hb.
  repeat (destruct Ha as [-> | Ha]); try subst a;
    repeat (destruct Hb as [-> | Hb]); try subst b; reflexivity.
Qed.

Lemma toString_year (y : Z) : 1000 <= y <= 9999 -> toString y = Spec.fourDigits y.
Proof.
  intros H. unfold toString, Spec.fourDigits.
  destruct (Z.ltb_spec y 0); [lia |].
  assert (Hlog : 9 <= Z.log2 y).
  { change 9 with (Z.log2 512). apply Z.log2_le_mono. lia. }
  destruct (Z.to_nat (Z.log2 y)) as [| [| [| [| f]]]] eqn:E; try lia.
  cbn [digitsOf].
  destruct (Z.ltb_spec y 10); [lia |].
  destruct (Z.ltb_spec (y / 10) 10); [Z.div_mod_to_equations; lia |].
  destruct (Z.ltb_spec (y / 10 / 10) 10); [Z.div_mod_to_equations; lia |].
  destruct (Z.ltb_spec (y / 10 / 10 / 10) 10); [| Z.div_mod_to_equations; lia].
  replace (y / 10 / 10 / 10 mod 10) with (y / 1000)
    by (Z.div_mod_to_equations; lia).
  replace (y / 10 / 10 mod 10) with (y / 100 mod 10)
    by (Z.div_mod_to_equations; lia).
  reflexivity.
Qed.

Lemma pad2_digits (n : Z) : 0 <= n <= 99 -> pad2 n = Spec.twoDigits n.
Proof.
  intros H. unfold pad2, toString, Spec.twoDigits.
  destruct (Z.ltb_spec n 0); [lia |].
  destruct (Z.ltb_spec n 10) as [Hs | Hb].
  - assert (E : digitsOf (Z.to_nat (Z.log2 n)) n "" = String (digitChar (n mod 10)) "").
    { destruct (Z.to_nat (Z.log2 n)); cbn [digitsOf]; [reflexivity |].
      destruct (Z.ltb_spec n 10); [reflexivity | lia]. }
    rewrite E. replace (n / 10) with 0 by (Z.div_mod_to_equations; lia).
    reflexivity.
  - assert (Hlog : 3 <= Z.log2 n).
    { change 3 with (Z.log2 8). apply Z.log2_le_mono. lia. }
    destruct (Z.to_nat (Z.log2 n)) as [| [| f]] eqn:E; try lia.
    cbn [digitsOf].
    destruct (Z.ltb_spec n 10); [lia |].
    destruct (Z.ltb_spec (n / 10) 10); [| Z.div_mod_to_equations; lia].
    unfold padStart. cbn [String.length Nat.sub repeatChar String.append].
    replace (n / 10 mod 10) with (n / 10) by (Z.div_mod_to_equations; lia).
    reflexivity.
Qed.

Lemma four_digits_of (a : Z) :
  1000 <= a <= 9999 ->
  a = 1000 * (a / 1000) + 100 * (a / 100 mod 10) + 10 * (a / 10 mod 10) + a mod 10
  /\ 0 <= a / 1000 <= 9 /\ 0 <= a / 100 mod 10 <= 9
  /\ 0 <= a / 10 mod 10 <= 9 /\ 0 <= a mod 10 <= 9.
Proof. intros H. Z.div_mod_to_equations; lia. Qed.

Lemma two_digits_of (a : Z) :
  0 <= a <= 99 -> a = 10 * (a / 10) + a mod 10 /\ 0 <= a / 10 <= 9 /\ 0 <= a mod 10 <= 9.
Proof. intros H. Z.div_mod_to_equations; lia. Qed.

Lemma fourDigits_compare (a b : Z) :
  1000 <= a <= 9999 -> 1000 <= b <= 9999 ->
  String.compare (Spec.fourDigits a) (Spec.fourDigits b) = (a ?= b).
Proof.
  intros Ha Hb. unfold Spec.fourDigits.
  destruct (four_digits_of a Ha) as (Ea & A3 & A2 & A1 & A0).
  destruct (four_digits_of b Hb) as (Eb & B3 & B2 & B1 & B0).
  rewrite !string_compare_cons, !digit_compare by assumption.
  cbn [String.compare].
  set (a3 := a / 1000) in *. set (a2 := a / 100 mod 10) in *.
  set (a1 := a / 10 mod 10) in *. set (a0 := a mod 10) in *.
  set (b3 := b / 1000) in *. set (b2 := b / 100 mod 10) in *.
  set (b1 := b / 10 mod 10) in *. set (b0 := b mod 10) in *.
  clearbody a3 a2 a1 a0 b3 b2 b1 b0.
  destruct (Z.compare_spec a3 b3);
    destruct (Z.compare_spec a2 b2);
    destruct (Z.compare_spec a1 b1);
    destruct (Z.compare_spec a0 b0);
    destruct (Z.compare_spec a b); try reflexivity; exfalso; lia.
Qed.

Lemma twoDigits_compare (a b : Z) :
  0 <= a <= 99 -> 0 <= b <= 99 ->
  String.compare (Spec.twoDigits a) (Spec.twoDigits b) = (a ?= b).
Proof.
  intros Ha Hb. unfold Spec.twoDigits.
  destruct (two_digits_of a Ha) as (Ea & A1 & A0).
  destruct (two_digits_of b Hb) as (Eb & B1 & B0).
  rewrite !string_compare_cons, !digit_compare by assumption.
  cbn [String.compare].
  set (a1 := a / 10) in *. set (a0 := a mod 10) in *.
  set (b1 := b / 10) in *. set (b0 := b mod 10) in *.
  clearbody a1 a0 b1 b0.
  destruct (Z.compare_spec a1 b1);
    destruct (Z.compare_spec a0 b0);
    destruct (Z.compare_spec a b); try reflexivity; exfalso; lia.
Qed.

End FormatFacts.

(** ** Bucket keys *)

Section KeyFacts.
Import JSDate Aggregate.

Variable tz : Z.

Lemma month_day_range (t : Z) :
  1 <= getMonth tz t + 1 <= 12 /\ 1 <= getDate tz t <= 31.
Proof.
  unfold getMonth, getDate. destruct (civil_range (localDay tz t)). lia.
Qed.

Lemma dayKey_form (t : Z) :
  Spec.fourDigitYear tz t ->
  dayKey tz t
  = (Spec.fourDigits (getFullYear tz t)
     ++ String "-" (Spec.twoDigits (getMonth tz t + 1)
                    ++ String "-" (Spec.twoDigits (getDate tz t))))%string.
Proof.
  intros Hy. destruct (month_day_range t) as [Hm Hd]. unfold dayKey.
  rewrite (toString_year _ Hy), !pad2_digits by lia. reflexivity.
Qed.

Lemma dayKey_length (t : Z) :
  Spec.fourDigitYear tz t -> String.length (dayKey tz t) = 10%nat.
Proof. intros Hy. rewrite (dayKey_form _ Hy). reflexivity. Qed.

Lemma dayKey_compare (t1 t2 : Z) :
  Spec.fourDigitYear tz t1 -> Spec.fourDigitYear tz t2 ->
  String.compare (dayKey tz t1) (dayKey tz t2)
  = match getFullYear tz t1 ?= getFullYear tz t2 with
    | Eq => match getMonth tz t1 + 1 ?= getMonth tz t2 + 1 with
            | Eq => getDate tz t1 ?= getDate tz t2
            | c => c
            end
    | c => c
    end.
Proof.
  intros H1 H2.
  destruct (month_day_range t1) as [Hm1 Hd1], (month_day_range t2) as [Hm2 Hd2].
  rewrite (dayKey_form _ H1), (dayKey_form _ H2).
  rewrite string_compare_app by reflexivity.
  rewrite (fourDigits_compare _ _ H1 H2).
  rewrite string_compare_cons, ascii_compare_refl.
  rewrite string_compare_app by reflexivity.
  rewrite twoDigits_compare by lia.
  rewrite string_compare_cons, ascii_compare_refl.
  rewrite twoDigits_compare by lia.
  reflexivity.
Qed.

Lemma hourKey_compare (t1 t2 : Z) :
  Spec.fourDigitYear tz t1 -> Spec.fourDigitYear tz t2 ->
  String.compare (bucketKey tz Hour t1) (bucketKey tz Hour t2)
  = match String.compare (dayKey tz t1) (dayKey tz t2) with
    | Eq => getHours tz t1 ?= getHours tz t2
    | c => c
    end.
Proof.
  intros H1 H2. unfold bucketKey.
  rewrite string_compare_app by (now rewrite !dayKey_length).
  destruct (String.compare (dayKey tz t1) (dayKey tz t2)); try reflexivity.
  pose proof (getHours_range tz t1). pose proof (getHours_range tz t2).
  rewrite !pad2_digits by lia.
  cbn [String.append]. rewrite string_compare_cons, ascii_compare_refl.
  rewrite string_compare_app by reflexivity.
  rewrite twoDigits_compare by lia.
  now destruct (getHours tz t1 ?= getHours tz t2).
Qed.

(** The date of an instant, as the three numbers of its day key. *)
Lemma date_of_instant (t : Z) :
  civil (localDay tz t) = (getFullYear tz t, getMonth tz t + 1, getDate tz t).
Proof.
  unfold getFullYear, getMonth, getDate.
  destruct (civil (localDay tz t)) as [[y m] d]. simpl. f_equal. f_equal. lia.
Qed.

(** Keys grow with time. *)
Lemma bucketKey_mono (g : Granularity) (t1 t2 : Z) :
  Spec.fourDigitYear tz t1 -> Spec.fourDigitYear tz t2 ->
  t1 <= t2 ->
  String.leb (bucketKey tz g t1) (bucketKey tz g t2) = true.
Proof.
  intros H1 H2 Hle. pose proof (localDay_mono tz _ _ Hle) as Hday.
  assert (Hcases : localDay tz t1 = localDay tz t2
                   \/ Spec.dateLt (civil (localDay tz t1)) (civil (localDay tz t2))).
  { destruct (Z.eq_dec (localDay tz t1) (localDay tz t2)); [now left | right].
    apply civil_strict. lia. }
  assert (Hkey : String.compare (dayKey tz t1) (dayKey tz t2) = Lt
                 \/ (String.compare (dayKey tz t1) (dayKey tz t2) = Eq
                     /\ localDay tz t1 = localDay tz t2)).
  { rewrite (dayKey_compare _ _ H1 H2). destruct Hcases as [E | Hlt].
    - right. split; [| assumption].
      pose proof (date_of_instant t1) as D1. pose proof (date_of_instant t2) as D2.
      rewrite E in D1. rewrite D1 in D2. injection D2 as -> -> ->.
      now rewrite !Z.compare_refl.
    - left. rewrite !date_of_instant in Hlt. unfold Spec.dateLt in Hlt.
      destruct Hlt as [Hy | [-> [Hm | [-> Hd]]]].
      + now apply Z.compare_lt_iff in Hy as ->.
      + rewrite Z.compare_refl. now apply Z.compare_lt_iff in Hm as ->.
      + rewrite !Z.compare_refl. now apply Z.compare_lt_iff. }
  unfold String.leb. destruct g.
  - rewrite (hourKey_compare _ _ H1 H2).
    destruct Hkey as [-> | [-> E]]; [reflexivity |].
    pose proof (getHours_mono tz _ _ Hle E) as Hh.
    destruct (Z.compare_spec (getHours tz t1) (getHours tz t2)); try reflexivity. lia.
  - unfold bucketKey. destruct Hkey as [-> | [-> _]]; reflexivity.
Qed.

End KeyFacts.

(** ** Labels of hours and days *)

Section LabelFacts.
Import JSDate Aggregate.

Lemma sapp_inj_tail (a1 a2 b1 b2 : string) :
  String.length b1 = String.length b2 ->
  (a1 ++ b1 = a2 ++ b2)%string -> a1 = a2 /\ b1 = b2.
Proof.
  intros Hlen. revert a2. induction a1 as [| x a1 IH]; intros [| y a2] E.
  - auto.
  - exfalso. cbn [String.append] in E. rewrite E in Hlen.
    cbn [String.length] in Hlen. rewrite slength_app in Hlen. lia.
  - exfalso. cbn [String.append] in E. rewrite <- E in Hlen.
    cbn [String.length] in Hlen. rewrite slength_app in Hlen. lia.
  - cbn [String.append] in E. injection E as -> E.
    destruct (IH _ E) as [-> ->]. auto.
Qed.

Lemma digit_value (k : Z) :
  0 <= k <= 9 -> Z.of_nat (nat_of_ascii (digitChar k)) - 48 = k.
Proof.
  intros H. apply digit_cases in H.
  repeat (destruct H as [-> | H]); try subst k; reflexivity.
Qed.

Lemma digit_not_minus (k : Z) : 0 <= k <= 9 -> digitChar k <> "-"%char.
Proof.
  intros H. apply digit_cases in H.
  repeat (destruct H as [-> | H]); try subst k; discriminate.
Qed.

Lemma readDigits_digit (k a : Z) (r : string) :
  0 <= k <= 9 ->
  Spec.readDigits (String (digitChar k) r) a = Spec.readDigits r (a * 10 + k).
Proof. intros H. cbn [Spec.readDigits]. now rewrite digit_value. Qed.

(** A numeral reads back as its number, the fuel being enough. *)
Lemma digitsOf_read (f : nat) :
  forall n acc, 0 <= n < 2 ^ (Z.of_nat f + 1) ->
    Spec.readDigits (digitsOf f n acc) 0 = Spec.readDigits acc n.
Proof.
  induction f as [| f IH]; intros n acc Hn.
  - cbn [digitsOf]. change (2 ^ (Z.of_nat 0 + 1)) with 2 in Hn.
    rewrite readDigits_digit by (Z.div_mod_to_equations; lia).
    f_equal. Z.div_mod_to_equations; lia.
  - cbn [digitsOf]. destruct (Z.ltb_spec n 10) as [Hs | Hb].
    + rewrite readDigits_digit by (Z.div_mod_to_equations; lia).
      f_equal. Z.div_mod_to_equations; lia.
    + assert (Hp : 2 ^ (Z.of_nat (S f) + 1) = 2 * 2 ^ (Z.of_nat f + 1)).
      { replace (Z.of_nat (S f) + 1) with (Z.succ (Z.of_nat f + 1)) by lia.
        apply Z.pow_succ_r. lia. }
      rewrite IH by (rewrite Hp in Hn; Z.div_mod_to_equations; lia).
      rewrite readDigits_digit by (Z.div_mod_to_equations; lia).
      f_equal. Z.div_mod_to_equations; lia.
Qed.

Lemma digitsOf_head (f : nat) :
  forall n acc, exists k r, 0 <= k <= 9 /\ digitsOf f n acc = String (digitChar k) r.
Proof.
  induction f as [| f IH]; intros n acc.
  - exists (n mod 10), acc. split; [Z.div_mod_to_equations; lia | reflexivity].
  - cbn [digitsOf]. destruct (n <? 10); [| apply IH].
    exists (n mod 10), acc. split; [Z.div_mod_to_equations; lia | reflexivity].
Qed.

Lemma numeral_read (n : Z) :
  0 <= n -> Spec.readDigits (digitsOf (Z.to_nat (Z.log2 n)) n "") 0 = n.
Proof.
  intros H. rewrite digitsOf_read; [reflexivity |].
  rewrite Z2Nat.id by apply Z.log2_nonneg.
  split; [exact H |]. destruct (Z.eq_dec n 0) as [-> | Hne]; [reflexivity |].
  replace (Z.log2 n + 1) with (Z.succ (Z.log2 n)) by lia.
  apply Z.log2_spec. lia.
Qed.

Lemma toString_inj (a b : Z) : toString a = toString b -> a = b.
Proof.
  unfold toString.
  destruct (Z.ltb_spec a 0) as [Ha | Ha], (Z.ltb_spec b 0) as [Hb | Hb]; intros E.
  - injection E as E. apply (f_equal (fun s => Spec.readDigits s 0)) in E.
    rewrite !numeral_read in E by lia. lia.
  - exfalso.
    destruct (digitsOf_head (Z.to_nat (Z.log2 b)) b "") as (k & r & Hk & E').
    rewrite E' in E. injection E as E _. now apply (digit_not_minus k Hk).
  - exfalso.
    destruct (digitsOf_head (Z.to_nat (Z.log2 a)) a "") as (k & r & Hk & E').
    rewrite E' in E. injection E as E _. now apply (digit_not_minus k Hk).
  - apply (f_equal (fun s => Spec.readDigits s 0)) in E.
    now rewrite !numeral_read in E by lia.
Qed.

Lemma twoDigits_inj (a b : Z) :
  0 <= a <= 99 -> 0 <= b <= 99 -> Spec.twoDigits a = Spec.twoDigits b -> a = b.
Proof.
  intros Ha Hb E. apply Z.compare_eq. rewrite <- (twoDigits_compare a b Ha Hb).
  rewrite E. generalize (Spec.twoDigits b) as s.
  induction s as [| c s IH]; [reflexivity |].
  now rewrite string_compare_cons, ascii_compare_refl.
Qed.

Lemma civil_inj (a b : Z) : civil a = civil b -> a = b.
Proof.
  intros E.
  assert (Hirr : forall x, ~ Spec.dateLt x x).
  { intros [[y m] d]. unfold Spec.dateLt. lia. }
  destruct (Z.lt_trichotomy a b) as [H | [H | H]]; [| assumption |]; exfalso.
  - apply civil_strict in H. rewrite E in H. now apply Hirr in H.
  - apply civil_strict in H. rewrite E in H. now apply Hirr in H.
Qed.

(** A label names one day, or one hour. *)
Lemma dateLabel_inj (a b : Z) : Spec.dateLabel a = Spec.dateLabel b -> a = b.
Proof.
  unfold Spec.dateLabel. intros E. apply civil_inj.
  pose proof (civil_range a) as Ra. pose proof (civil_range b) as Rb.
  destruct (civil a) as [[y1 m1] d1], (civil b) as [[y2 m2] d2].
  cbn [fst snd] in Ra, Rb.
  apply sapp_inj_tail in E as [Ey E]; [| reflexivity].
  apply toString_inj in Ey.
  unfold Spec.twoDigits in E. cbn [String.append] in E. injection E; intros.
  assert (Em : Spec.twoDigits m1 = Spec.twoDigits m2)
    by (unfold Spec.twoDigits; congruence).
  assert (Ed : Spec.twoDigits d1 = Spec.twoDigits d2)
    by (unfold Spec.twoDigits; congruence).
  apply twoDigits_inj in Em; [| lia | lia].
  apply twoDigits_inj in Ed; [| lia | lia].
  congruence.
Qed.

Lemma label_inj (g : Granularity) (p q : Z) : Spec.label g p = Spec.label g q -> p = q.
Proof.
  destruct g; cbn [Spec.label]; intros E; [| now apply dateLabel_inj].
  apply sapp_inj_tail in E as [Ed E]; [| reflexivity].
  apply dateLabel_inj in Ed.
  unfold Spec.twoDigits in E. cbn [String.append] in E. injection E; intros.
  assert (Eh : Spec.twoDigits (p mod 24) = Spec.twoDigits (q mod 24))
    by (unfold Spec.twoDigits; congruence).
  apply twoDigits_inj in Eh; [| Z.div_mod_to_equations; lia | Z.div_mod_to_equations; lia].
  rewrite (Z.div_mod p 24), (Z.div_mod q 24) by lia. congruence.
Qed.

Lemma dayKey_label (tz t : Z) : dayKey tz t = Spec.dateLabel (localDay tz t).
Proof.
  unfold dayKey, Spec.dateLabel, getFullYear, getMonth, getDate.
  pose proof (civil_range (localDay tz t)) as R.
  destruct (civil (localDay tz t)) as [[y m] d]. cbn [fst snd] in *.
  replace (m - 1 + 1) with m by lia.
  now rewrite !pad2_digits by lia.
Qed.

(** The key of a view is the label of its period. *)
Lemma bucketKey_label (tz : Z) (g : Granularity) (t : Z) :
  bucketKey tz g t = Spec.label g (Spec.period tz g t).
Proof.
  destruct g; cbn [bucketKey Spec.label Spec.period]; rewrite dayKey_label.
  - pose proof (getHours_range tz t) as Rh. rewrite pad2_digits by lia.
    unfold localDay, getHours, msPerDay, msPerHour.
    replace ((t + tz) / 3600000 / 24) with ((t + tz) / 86400000)
      by (Z.div_mod_to_equations; lia).
    replace ((t + tz) / 3600000 mod 24) with ((t + tz) mod 86400000 / 3600000)
      by (Z.div_mod_to_equations; lia).
    reflexivity.
  - reflexivity.
Qed.

Lemma bucketKey_period (tz : Z) (g : Granularity) (t : Z) (p : Z) :
  (bucketKey tz g t =? Spec.label g p)%string = (Spec.period tz g t =? p).
Proof.
  rewrite bucketKey_label.
  destruct (String.eqb_spec (Spec.label g (Spec.period tz g t)) (Spec.label g p)) as [E | N].
  - apply label_inj in E. symmetry. now apply Z.eqb_eq.
  - symmetry. apply Z.eqb_neq. intros E. apply N. now rewrite E.
Qed.

Lemma seriesWindow_start (tz now : Z) (range : string) :
  seriesWindow tz now range
  = (Spec.seriesStart tz now range,
     if (range =? "today")%string then Hour else Day).
Proof.
  unfold seriesWindow, Spec.seriesStart, Spec.periodStart, Spec.rangeLength,
    startOfDay, localDay, msPerDay.
  destruct (String.eqb_spec range "all") as [-> | Hall]; [reflexivity |].
  destruct (range =? "today")%string; [reflexivity |].
  destruct (range =? "30d")%string; reflexivity.
Qed.

End LabelFacts.

(** ** Time series *)

Section SeriesFacts.
Import Store Aggregate.

Variable tz : Z.

Lemma filter_perm_length (A : Type) (P : A -> bool) (l l' : list A) :
  Permutation l l' -> List.length (filter P l) = List.length (filter P l').
Proof.
  intros Hp. apply Permutation_length.
  induction Hp; simpl.
  - constructor.
  - destruct (P x); [now constructor | assumption].
  - destruct (P x), (P y); try reflexivity; now constructor.
  - now transitivity (filter P l').
Qed.

(** The fields of a bucket after the grouping loop ran over [l]. *)
Lemma bucket_fold (l : list PageView) (b : Bucket) :
  let b' := fold_left (fun acc pv => mkBucket (bViews acc + 1)
                                             (JS.setAdd (sessionId pv) (bSessions acc)))
                      l b in
  bViews b' = bViews b + count l
  /\ bSessions b' = fold_left (fun acc pv => JS.setAdd (sessionId pv) acc) l (bSessions b).
Proof.
  revert b. induction l as [| v l IH]; intros b; cbv zeta.
  - simpl. unfold count. simpl. split; [lia | reflexivity].
  - simpl fold_left. destruct (IH (mkBucket (bViews b + 1)
                                            (JS.setAdd (sessionId v) (bSessions b))))
      as [H1 H2].
    cbv zeta in *. rewrite H1, H2. cbn [bViews bSessions]. rewrite count_cons.
    split; [lia | reflexivity].
Qed.

Lemma buckets_NoDup (g : Granularity) (rows : list PageView) :
  NoDup (map fst (bucketsOf tz g rows)).
Proof.
  unfold bucketsOf, addToBucket.
  rewrite (group_keys (fun pv => bucketKey tz g (timestamp pv))
                      (fun _ => mkBucket 0 [])
                      (fun pv b => mkBucket (bViews b + 1)
                                            (JS.setAdd (sessionId pv) (bSessions b)))).
  apply fold_setAdd_NoDup. constructor.
Qed.

Lemma buckets_keys (g : Granularity) (rows : list PageView) (k : string) :
  In k (map fst (bucketsOf tz g rows))
  <-> exists v, In v rows /\ bucketKey tz g (timestamp v) = k.
Proof.
  unfold bucketsOf, addToBucket.
  rewrite (group_keys (fun pv => bucketKey tz g (timestamp pv))
                      (fun _ => mkBucket 0 [])
                      (fun pv b => mkBucket (bViews b + 1)
                                            (JS.setAdd (sessionId pv) (bSessions b)))).
  rewrite fold_setAdd_In. simpl. tauto.
Qed.

Lemma buckets_entry (g : Granularity) (rows : list PageView) (k : string) (b : Bucket) :
  In (k, b) (bucketsOf tz g rows) ->
  let l := Spec.bucketViews tz g rows k in
  l <> []
  /\ bViews b = count l
  /\ bSessions b = fold_left (fun acc pv => JS.setAdd (sessionId pv) acc) l [].
Proof.
  intros H l. apply (mapGet_In _ _ _ (buckets_NoDup g rows)) in H.
  unfold bucketsOf, addToBucket in H.
  rewrite (group_get (fun pv => bucketKey tz g (timestamp pv))
                     (fun _ => mkBucket 0 [])
                     (fun pv b => mkBucket (bViews b + 1)
                                           (JS.setAdd (sessionId pv) (bSessions b)))) in H.
  fold (Spec.bucketViews tz g rows k) in H. fold l in H.
  destruct l as [| x r] eqn:El; [discriminate |].
  split; [discriminate |].
  cbn [JS.mapGet] in H. injection H as <-.
  destruct (bucket_fold r (mkBucket 1 (JS.setAdd (sessionId x) []))) as [H1 H2].
  cbv zeta in *. cbv beta. rewrite H1, H2. cbn [bViews bSessions].
  rewrite count_cons. split; reflexivity.
Qed.

(** A point of the series, in terms of the in-range views. *)
Lemma series_point (now : Z) (queryRange : option string) (st : Store.t)
    (pt : SeriesPoint) :
  let w := seriesWindow tz now (JS.orElse queryRange "7d") in
  let vs := pageViewsSince (fst w) st in
  In pt (fst (getTimeSeriesHandler tz now queryRange st)) ->
  views pt = count (Spec.bucketViews tz (snd w) vs (time pt))
  /\ 1 <= views pt
  /\ visitors pt
     = count (JS.distinct (map sessionId (Spec.bucketViews tz (snd w) vs (time pt)))).
Proof.
  intros w vs. unfold getTimeSeriesHandler. cbv zeta. fold w.
  destruct w as [since g] eqn:Ew. cbn [fst snd] in *.
  rewrite sort_In, in_map_iff. intros [[k b] [<- Hin]]. cbn [fst snd time views visitors].
  destruct (buckets_entry g _ k b Hin) as (Hne & Hv & Hs). cbv zeta in *.
  assert (Hperm : Permutation (seriesRows since st) vs).
  { unfold seriesRows. apply sort_perm. }
  assert (Hlen : count (Spec.bucketViews tz g (seriesRows since st) k)
                 = count (Spec.bucketViews tz g vs k)).
  { unfold count, Spec.bucketViews. f_equal. now apply filter_perm_length. }
  split; [| split].
  - now rewrite Hv.
  - rewrite Hv. destruct (Spec.bucketViews tz g (seriesRows since st) k);
      [congruence |]. rewrite count_cons. unfold count. lia.
  - rewrite Hs. unfold count. f_equal.
    apply (NoDup_same_count (fun _ => true)).
    + apply fold_setAdd_NoDup. constructor.
    + apply distinct_NoDup.
    + intros y. rewrite (fold_setAdd_In sessionId), distinct_In, in_map_iff.
      unfold Spec.bucketViews. simpl. split.
      * intros [[] | [v [Hv' <-]]]. exists v. split; [reflexivity |].
        rewrite filter_In in *. destruct Hv' as [Hv1 Hv2]. split; [| assumption].
        eapply Permutation_in; eauto.
      * intros [v [<- Hv']]. right. exists v. split; [| reflexivity].
        rewrite filter_In in *. destruct Hv' as [Hv1 Hv2]. split; [| assumption].
        eapply Permutation_in; [symmetry |]; eauto.
Qed.

Lemma series_keys (now : Z) (queryRange : option string) (st : Store.t) :
  let w := seriesWindow tz now (JS.orElse queryRange "7d") in
  let vs := pageViewsSince (fst w) st in
  let series := fst (getTimeSeriesHandler tz now queryRange st) in
  NoDup (map time series)
  /\ forall k, In k (map time series)
               <-> exists v, In v vs /\ bucketKey tz (snd w) (timestamp v) = k.
Proof.
  intros w vs series. subst series. unfold getTimeSeriesHandler. cbv zeta. fold w.
  destruct w as [since g] eqn:Ew. cbn [fst snd] in *.
  set (pts := map _ (bucketsOf tz g (seriesRows since st))).
  assert (Hmap : map time pts = map fst (bucketsOf tz g (seriesRows since st))).
  { subst pts. rewrite map_map. apply map_ext. now intros [k b]. }
  assert (Hp : Permutation (map time (JS.sort (fun a b => String.leb (time a) (time b)) pts))
                           (map fst (bucketsOf tz g (seriesRows since st)))).
  { rewrite <- Hmap. apply Permutation_map, sort_perm. }
  split.
  - eapply Permutation_NoDup; [symmetry; exact Hp | apply buckets_NoDup].
  - intros k. transitivity (In k (map fst (bucketsOf tz g (seriesRows since st)))).
    + split; apply Permutation_in; [exact Hp | symmetry; exact Hp].
    + rewrite buckets_keys. unfold seriesRows.
      split; intros [v [Hv Hk]]; exists v; (split; [| assumption]).
      * now apply sort_In in Hv.
      * now apply sort_In.
Qed.

Lemma series_sorted (now : Z) (queryRange : option string) (st : Store.t) :
  StronglySorted (fun a b => String.ltb (time a) (time b) = true)
                 (fst (getTimeSeriesHandler tz now queryRange st)).
Proof.
  destruct (series_keys now queryRange st) as [Hnd _]. cbv zeta in Hnd.
  revert Hnd. unfold getTimeSeriesHandler. cbv zeta.
  destruct (seriesWindow tz now (JS.orElse queryRange "7d")) as [since g].
  cbn [fst].
  set (pts := map (fun kb : string * Bucket => mkPoint _ _ _) _).
  pose proof (sort_sorted (fun a b : SeriesPoint => String.leb (time a) (time b))
                (fun a b => String.leb_total (time a) (time b))
                (fun a b c => string_leb_trans (time a) (time b) (time c)) pts) as Hs.
  induction Hs as [| x l Hs IH Hall]; intros Hnd; [constructor |].
  simpl in Hnd. inversion Hnd as [| ? ? Hni Hnd']; subst.
  constructor; [now apply IH |].
  rewrite Forall_forall in *. intros y Hy.
  apply string_leb_ltb; [now apply Hall |].
  intros E. apply Hni. rewrite E. now apply in_map.
Qed.

End SeriesFacts.

Section SeriesOrder.
Import Store Aggregate.

Lemma StronglySorted_weaken_in (A : Type) (R R' : A -> A -> Prop) (l : list A) :
  (forall a b, In a l -> In b l -> R a b -> R' a b) ->
  StronglySorted R l -> StronglySorted R' l.
Proof.
  intros HR H. induction H as [| x l Hs IH Hall]; constructor.
  - apply IH. intros a b Ha Hb. apply HR; now right.
  - rewrite Forall_forall in *. intros y Hy.
    apply HR; [now left | now right | now apply Hall].
Qed.

Lemma series_chronological (tz now : Z) (queryRange : option string) (st : Store.t) :
  let w := seriesWindow tz now (JS.orElse queryRange "7d") in
  let vs := pageViewsSince (fst w) st in
  (forall v, In v vs -> Spec.fourDigitYear tz (timestamp v)) ->
  StronglySorted
    (fun a b => forall v1 v2,
         In v1 (Spec.bucketViews tz (snd w) vs (time a)) ->
         In v2 (Spec.bucketViews tz (snd w) vs (time b)) ->
         timestamp v1 < timestamp v2)
    (fst (getTimeSeriesHandler tz now queryRange st)).
Proof.
  intros w vs Hy.
  eapply StronglySorted_weaken; [| apply series_sorted].
  intros a b Hlt v1 v2 H1 H2. unfold Spec.bucketViews in H1, H2.
  apply filter_In in H1 as [Hv1 Hk1]. apply filter_In in H2 as [Hv2 Hk2].
  apply String.eqb_eq in Hk1, Hk2.
  destruct (Z.lt_ge_cases (timestamp v1) (timestamp v2)) as [Hok | Hge]; [assumption |].
  exfalso.
  pose proof (bucketKey_mono tz (snd w) _ _ (Hy _ Hv2) (Hy _ Hv1) Hge) as Hle.
  rewrite Hk1, Hk2 in Hle. apply string_ltb_not_leb in Hlt. congruence.
Qed.

End SeriesOrder.

(** C6: the time series has hourly buckets for the range today and daily
    ones for every other range, over the in-range page views: those since
    local midnight, 30 days, 90 days (range all) or 7 days before now.
    Every point stands for one hour or day of local time in which a view
    falls: it carries the label of that period (year, month and day, and
    the hour for an hour) and reports the number of in-range views in that
    period, which is at least one, and the number of distinct session ids
    among them.  Every in-range view is counted in the point of its
    period, no two points have the same label and no two periods the same
    label; the points are in strictly ascending order of their labels,
    which, the years being written with four digits, is the order of time.
    Views at 10:05, 10:55 and 11:02 of a day give, at noon and for today,
    the two points 10:00 with 2 views and 11:00 with 1 view; views of two
    days of the last seven give one point for each day, and the day they
    fall on is that of the zone of the server. *)
Theorem time_series_buckets
    (tz now : Z) (queryRange : option string) (st : Store.t) :
  let range := JS.orElse queryRange "7d" in
  let since := Spec.seriesStart tz now range in
  let vs := filter (fun v => since <=? Store.timestamp v) (Store.pageViews st) in
  let series := fst (Aggregate.getTimeSeriesHandler tz now queryRange st) in
  let g := snd (Aggregate.getTimeSeriesHandler tz now queryRange st) in
  let inPeriod p := filter (fun v => Spec.period tz g (Store.timestamp v) =? p) vs in
  g = (if (range =? "today")%string then Aggregate.Hour else Aggregate.Day)
  /\ (forall pt, In pt series ->
        exists p,
          Aggregate.time pt = Spec.label g p
          /\ Aggregate.views pt = Spec.size (inPeriod p)
          /\ 1 <= Aggregate.views pt
          /\ Aggregate.visitors pt
             = Spec.size (nodup string_dec (map Store.sessionId (inPeriod p))))
  /\ (forall v, In v vs ->
        In (Spec.label g (Spec.period tz g (Store.timestamp v)))
           (map Aggregate.time series))
  /\ NoDup (map Aggregate.time series)
  /\ (forall p q, Spec.label g p = Spec.label g q -> p = q)
  /\ StronglySorted
       (fun a b => String.ltb (Aggregate.time a) (Aggregate.time b) = true) series
  /\ ((forall v, In v vs -> Spec.fourDigitYear tz (Store.timestamp v)) ->
      StronglySorted
        (fun a b => forall p q,
             Aggregate.time a = Spec.label g p -> Aggregate.time b = Spec.label g q ->
             p < q)
        series)
  /\ Aggregate.getTimeSeriesHandler 0 Spec.morningNoon (Some "today")
       (Store.mkStore [] Spec.morningViews)
     = ([Aggregate.mkPoint "2024-03-15T10:00" 2 2;
         Aggregate.mkPoint "2024-03-15T11:00" 1 1], Aggregate.Hour)
  /\ Aggregate.getTimeSeriesHandler 0 Spec.morningNoon None
       (Store.mkStore [] Spec.dayViews)
     = ([Aggregate.mkPoint "2024-03-10" 3 2;
         Aggregate.mkPoint "2024-03-14" 1 1], Aggregate.Day)
  /\ Aggregate.getTimeSeriesHandler 3600000 Spec.morningNoon (Some "30d")
       (Store.mkStore [] Spec.dayViews)
     = ([Aggregate.mkPoint "2024-03-07" 1 1;
         Aggregate.mkPoint "2024-03-10" 2 1;
         Aggregate.mkPoint "2024-03-11" 1 1;
         Aggregate.mkPoint "2024-03-14" 1 1], Aggregate.Day).
Proof.
  intros range since vs series g inPeriod.
  pose proof (seriesWindow_start tz now range) as Hw.
  assert (Eg : g = snd (Aggregate.seriesWindow tz now range)).
  { subst g. unfold Aggregate.getTimeSeriesHandler. cbv zeta. fold range.
    now destruct (Aggregate.seriesWindow tz now range). }
  assert (Evs : Aggregate.pageViewsSince (fst (Aggregate.seriesWindow tz now range)) st
                = vs).
  { rewrite Hw. reflexivity. }
  assert (Hin : forall p, Spec.bucketViews tz g vs (Spec.label g p) = inPeriod p).
  { intros p. unfold Spec.bucketViews. subst inPeriod. cbv beta.
    apply filter_ext. intros v. apply bucketKey_period. }
  pose proof (series_keys tz now queryRange st) as [Hnd Hkeys].
  cbv zeta in Hnd, Hkeys. fold range in Hkeys. rewrite Evs, <- Eg in Hkeys.
  fold series in Hnd, Hkeys.
  split; [| split; [| split; [| split; [| split; [| split; [| split; [| split; [| split]]]]]]]].
  - rewrite Eg, Hw. reflexivity.
  - intros pt Hpt.
    assert (Hk : In (Aggregate.time pt) (map Aggregate.time series)) by now apply in_map.
    apply Hkeys in Hk as (v0 & Hv0 & Ek).
    exists (Spec.period tz g (Store.timestamp v0)).
    rewrite bucketKey_label in Ek.
    pose proof (series_point tz now queryRange st pt Hpt) as (P1 & P2 & P3).
    cbv zeta in P1, P3. fold range in P1, P3. rewrite Evs, <- Eg in P1, P3.
    rewrite <- Ek, Hin in P1, P3.
    split; [now symmetry | split; [exact P1 | split; [exact P2 |]]].
    rewrite P3. unfold Aggregate.count, Spec.size. f_equal.
    apply (NoDup_same_count (fun _ => true)).
    + apply distinct_NoDup.
    + apply NoDup_nodup.
    + intros x. rewrite distinct_In, nodup_In. tauto.
  - intros v Hv. apply Hkeys. exists v. split; [exact Hv | apply bucketKey_label].
  - exact Hnd.
  - apply label_inj.
  - apply series_sorted.
  - intros Hy.
    pose proof (series_chronological tz now queryRange st) as Hc.
    cbv zeta in Hc. fold range in Hc. rewrite Evs, <- Eg in Hc. fold series in Hc.
    specialize (Hc Hy).
    eapply StronglySorted_weaken_in; [| exact Hc].
    intros a b Ha Hb Hab p q Ea Eb. cbv beta in Hab.
    assert (Hka : In (Aggregate.time a) (map Aggregate.time series)) by now apply in_map.
    assert (Hkb : In (Aggregate.time b) (map Aggregate.time series)) by now apply in_map.
    apply Hkeys in Hka as (va & Hva & Eka). apply Hkeys in Hkb as (vb & Hvb & Ekb).
    assert (Hmem : forall v k, In v vs -> Aggregate.bucketKey tz g (Store.timestamp v) = k ->
                               In v (Spec.bucketViews tz g vs k)).
    { intros v k Hv Hk. unfold Spec.bucketViews. apply filter_In.
      split; [exact Hv | now apply String.eqb_eq]. }
    pose proof (Hab va vb (Hmem _ _ Hva Eka) (Hmem _ _ Hvb Ekb)) as Hlt.
    assert (Pa : Spec.period tz g (Store.timestamp va) = p).
    { apply (label_inj g). now rewrite <- bucketKey_label, Eka. }
    assert (Pb : Spec.period tz g (Store.timestamp vb) = q).
    { apply (label_inj g). now rewrite <- bucketKey_label, Ekb. }
    assert (Hle : p <= q).
    { rewrite <- Pa, <- Pb. clear - Hlt.
      destruct g; cbn [Spec.period]; apply Z.div_le_mono; lia. }
    assert (Hne : p <> q).
    { intros ->. assert (Eab : Aggregate.time a = Aggregate.time b) by congruence.
      pose proof (Hab vb va) as Hrev.
      assert (Timestamps : Store.timestamp vb < Store.timestamp va).
      { apply Hrev; apply Hmem; congruence. }
      lia. }
    lia.
  - vm_compute. reflexivity.
  - vm_compute. reflexivity.
  - vm_compute. reflexivity.
Qed.

(** ** Instances

    Each theorem above that has hypotheses, applied to a concrete store. *)

(** C2 on the store [Spec.busyWeeks] with range 7d: two visitors in
    either week, three sessions against two, five page views against
    three, a mean duration of 50 seconds against 15 and a bounce rate of
    33.3 per cent against 50. *)
Lemma stats_percentage_changes_witness :
  let data := Aggregate.getStatsHandler 0 Spec.statsNow (Some "7d") Spec.busyWeeks in
  In (JS.orElse (Some "7d") "7d") ["today"; "7d"; "30d"]
  /\ Aggregate.property "visitorsChange" data = Some (Aggregate.JNum 0)
  /\ Aggregate.property "sessionsChange" data = Some (Aggregate.JNum 50)
  /\ Aggregate.property "pageViewsChange" data
     = Some (Aggregate.JNum (JS.toDouble (667 # 10)))
  /\ Aggregate.property "avgDurationChange" data
     = Some (Aggregate.JNum (JS.toDouble (2333 # 10)))
  /\ Aggregate.property "bounceRateChange" data
     = Some (Aggregate.JNum (JS.toDouble (- (334) # 10)))
  /\ Aggregate.property "pagesPerSessionChange" data = None.
Proof.
  intros data.
  assert (H : In (JS.orElse (Some "7d") "7d") ["today"; "7d"; "30d"])
    by (simpl; tauto).
  split; [exact H |].
  pose proof (stats_percentage_changes 0 Spec.statsNow (Some "7d") Spec.busyWeeks H) as T.
  cbv zeta in T.
  destruct T as (_ & T1 & T2 & T3 & T4 & T5 & _ & T7 & _).
  split; [eapply eq_trans; [exact T1 | vm_compute; reflexivity] |].
  split; [eapply eq_trans; [exact T2 | vm_compute; reflexivity] |].
  split; [eapply eq_trans; [exact T3 | vm_compute; reflexivity] |].
  split; [eapply eq_trans; [exact T4 | vm_compute; reflexivity] |].
  split; [eapply eq_trans; [exact T5 | vm_compute; reflexivity] |].
  exact T7.
Defined.

(** C3: a [collect] 31 minutes after the last activity of session s1, by
    its visitor and with its id as candidate, opens session s2. *)
Lemma collect_reuses_open_session_witness :
  let rt := Ingest.mkRuntime (1000000 + 31 * 60 * 1000) "s2" "p2" in
  let request := Spec.collectOf "v1" (Some "s1") "/b" in
  ~ In "s2" (map Store.id (Store.sessions Spec.oneVisit))
  /\ ~ In "p2" (map Store.pvId (Store.pageViews Spec.oneVisit))
  /\ fst (Ingest.collectHandler Spec.noHostname Spec.noGeo rt request Spec.oneVisit)
     = Store.Returned (Ingest.mkReply 200 "ok" (Some "s2"))
  /\ "s2" <> "s1".
Proof.
  intros rt request.
  assert (H1 : ~ In (Ingest.newSessionId rt) (map Store.id (Store.sessions Spec.oneVisit))).
  { simpl. intros [H | []]. discriminate. }
  assert (H2 : ~ In (Ingest.newPageViewId rt)
                    (map Store.pvId (Store.pageViews Spec.oneVisit))).
  { simpl. intros [H | []]. discriminate. }
  assert (Hno : ~ Spec.openSession rt (Ingest.body request) Spec.oneVisit).
  { intros (s & Hin & _ & _ & _ & Hlast). simpl in Hin. destruct Hin as [<- | []].
    simpl in Hlast. lia. }
  pose proof (collect_reuses_open_session Spec.noHostname Spec.noGeo rt request
                Spec.oneVisit H1 H2) as T.
  cbv zeta in T. destruct T as (_ & _ & T). destruct (T Hno) as (T1 & _ & T3).
  split; [exact H1 | split; [exact H2 | split; [exact T1 |]]].
  apply (T3 "s1"); [reflexivity | simpl; now left].
Defined.

(** C4 on the store [Spec.returningVisit]: of the three views of /a the
    second row of the table is the most recent one; a heartbeat with depth
    50 at instant 1310000 updates it and no other row, and four heartbeats
    feeding 10, 40, 25 and 90 leave 90 on it. *)
Lemma heartbeat_scroll_ratchet_witness :
  let rt := Ingest.mkRuntime 1310000 "" "" in
  let st' := snd (Ingest.heartbeatHandler rt
                    (Ingest.mkHeartbeatBody "s1" (Some 50) (Some "/a"))
                    Spec.returningVisit) in
  let final := Ingest.run Spec.noHostname Spec.noGeo
                 (Spec.heartbeats "s1" "/a"
                    [(1310000, 10); (1320000, 40); (1330000, 25); (1340000, 90)])
                 Spec.returningVisit in
  "/a" <> ""
  /\ In "s1" (map Store.id (Store.sessions Spec.returningVisit))
  /\ NoDup (map Store.pvId (Store.pageViews Spec.returningVisit))
  /\ Spec.viewsOf "s1" "/a" Spec.returningVisit <> []
  /\ Forall2 (fun v v' =>
                (v = Spec.viewRow "p2" "s1" "/a" 1300000 None None ->
                 v' = Spec.viewRow "p2" "s1" "/a" 1300000 (Some 10) (Some 50))
                /\ (v <> Spec.viewRow "p2" "s1" "/a" 1300000 None None -> v' = v))
             (Store.pageViews Spec.returningVisit) (Store.pageViews st')
  /\ (exists lv', In lv' (Spec.viewsOf "s1" "/a" final)
                  /\ Store.pvId lv' = "p2" /\ Store.scrollDepth lv' = Some 90).
Proof.
  intros rt st' final.
  assert (H1 : "/a" <> "") by discriminate.
  assert (H2 : In "s1" (map Store.id (Store.sessions Spec.returningVisit)))
    by (simpl; now left).
  assert (H3 : NoDup (map Store.pvId (Store.pageViews Spec.returningVisit))).
  { simpl. repeat constructor; simpl; intuition discriminate. }
  assert (H4 : Spec.viewsOf "s1" "/a" Spec.returningVisit <> []) by discriminate.
  pose proof (heartbeat_scroll_ratchet Spec.noHostname Spec.noGeo rt "s1" "/a" 50
                Spec.returningVisit H1 H2 H3 H4) as T.
  cbv zeta in T. destruct T as (lv & (Hin & _ & Hp & Hmax) & HF & Hfeeds).
  assert (El : lv = Spec.viewRow "p2" "s1" "/a" 1300000 None None).
  { assert (M : Store.timestamp (Spec.viewRow "p2" "s1" "/a" 1300000 None None)
                <= Store.timestamp lv).
    { apply Hmax. vm_compute. tauto. }
    simpl in Hin. destruct Hin as [E | [E | [E | [E | []]]]]; subst lv;
      [simpl in M; lia | reflexivity | simpl in M; lia | discriminate Hp]. }
  subst lv.
  repeat (split; [assumption |]).
  split.
  { eapply Forall2_weaken; [| exact HF]. cbv beta. intros v v' [Ha Hb].
    split; [| exact Hb]. intros E. rewrite (Ha E), E. reflexivity. }
  destruct (Hfeeds [(1310000, 10); (1320000, 40); (1330000, 25); (1340000, 90)])
    as (lv' & (Hin' & _) & Hid & _ & _ & H90).
  exists lv'. split; [exact Hin' | split; [exact Hid | apply H90; reflexivity]].
Defined.

(** C8: a heartbeat for the unknown session s9. *)
Lemma heartbeat_creates_no_row_witness :
  let b := Ingest.mkHeartbeatBody "s9" (Some 50) (Some "/a") in
  ~ In "s9" (map Store.id (Store.sessions Spec.oneVisit))
  /\ Ingest.heartbeatHandler (Ingest.mkRuntime 1010000 "" "") b Spec.oneVisit
     = (Store.Returned (Ingest.mkReply 404 "not_found" None), Spec.oneVisit).
Proof.
  intros b.
  assert (H : ~ In (Ingest.hSessionId b) (map Store.id (Store.sessions Spec.oneVisit))).
  { simpl. intros [H | []]. discriminate. }
  split; [exact H |].
  apply (proj1 (heartbeat_creates_no_row (Ingest.mkRuntime 1010000 "" "") b Spec.oneVisit)).
  exact H.
Defined.

(** C6 on the views [Spec.dayViews], seen at noon of 2024-03-15 for the
    default range: the points of the two days stand in the order of the
    days, 19792 and 19796 days after the epoch. *)
Lemma time_series_buckets_witness :
  let st := Store.mkStore [] Spec.dayViews in
  let vs := filter (fun v => Spec.seriesStart 0 Spec.morningNoon "7d" <=? Store.timestamp v)
                   (Store.pageViews st) in
  (forall v, In v vs -> Spec.fourDigitYear 0 (Store.timestamp v))
  /\ fst (Aggregate.getTimeSeriesHandler 0 Spec.morningNoon None st)
     = [Aggregate.mkPoint "2024-03-10" 3 2; Aggregate.mkPoint "2024-03-14" 1 1]
  /\ Spec.label Aggregate.Day 19792 = "2024-03-10"
  /\ Spec.label Aggregate.Day 19796 = "2024-03-14"
  /\ (forall p q, "2024-03-10" = Spec.label Aggregate.Day p ->
                  "2024-03-14" = Spec.label Aggregate.Day q -> p < q).
Proof.
  intros st vs.
  assert (H : forall v, In v vs -> Spec.fourDigitYear 0 (Store.timestamp v)).
  { intros v Hv. vm_compute in Hv.
    destruct Hv as [<- | [<- | [<- | [<- | []]]]]; vm_compute; split; discriminate. }
  split; [exact H |].
  pose proof (time_series_buckets 0 Spec.morningNoon None st) as T.
  cbv zeta in T. unfold st in T. destruct T as (_ & _ & _ & _ & _ & _ & T & _ & E & _).
  specialize (T H). rewrite E in T. cbn [fst snd] in T.
  split; [unfold st; now rewrite E |].
  split; [reflexivity | split; [reflexivity |]].
  inversion T as [| a l _ Hall]; subst.
  inversion Hall as [| b l' Hab _]; subst.
  exact Hab.
Defined.

(** * Further properties *)

(** ** Traffic-source categorisation, continued *)

Section TaxonomyFacts.
Import Traffic.

Variable lowerOther : string -> string -> string -> string.

Lemma categorizeUtm_range (u : string) :
  In (categorizeUtm lowerOther u) Terms.utmCategories.
Proof.
  unfold categorizeUtm, Terms.utmCategories. cbv zeta.
  destruct (JS.arrayIncludes utmSearchEngines _); [simpl; tauto |].
  destruct (JS.arrayIncludes utmSocialPlatforms _); [simpl; tauto |].
  destruct (_ || _)%bool; [simpl; tauto |].
  destruct (_ || _)%bool; simpl; tauto.
Qed.

Lemma categorizeReferrer_range (r : option string) :
  In (categorizeReferrer lowerOther r) Terms.referrerCategories
  /\ (categorizeReferrer lowerOther r = "Direct" <-> JS.truthy r = false).
Proof.
  unfold categorizeReferrer, Terms.referrerCategories.
  destruct (JS.truthy r); cbn [negb].
  - destruct (existsb _ searchDomains).
    + split; [simpl; tauto | split; discriminate].
    + destruct (existsb _ socialDomains); (split; [simpl; tauto | split; discriminate]).
  - split; [simpl; tauto | split; reflexivity].
Qed.

Lemma lowerChar_idem (c : ascii) : JS.lowerChar (JS.lowerChar c) = JS.lowerChar c.
Proof.
  destruct c as [[] [] [] [] [] [] [] []]; reflexivity.
Qed.

Lemma lowerChar_ascii (c : ascii) : JS.isAscii c = true -> JS.isAscii (JS.lowerChar c) = true.
Proof.
  destruct c as [[] [] [] [] [] [] [] []]; intros H; try reflexivity; discriminate.
Qed.

Lemma asciiFold_idem (s : string) : Terms.asciiFold (Terms.asciiFold s) = Terms.asciiFold s.
Proof.
  induction s as [| c s IH]; simpl; [reflexivity |]. now rewrite lowerChar_idem, IH.
Qed.

Lemma asciiFold_ascii (s : string) :
  Terms.asciiText s = true -> Terms.asciiText (Terms.asciiFold s) = true.
Proof.
  induction s as [| c s IH]; simpl; [reflexivity |].
  intros H. apply andb_prop in H as [Hc Hs].
  now rewrite (lowerChar_ascii c Hc), IH.
Qed.

(** On text of ASCII characters lower-casing folds the letters, whatever
    the platform. *)
Lemma toLowerCase_ascii (s : string) :
  Terms.asciiText s = true -> JS.toLowerCase lowerOther s = Terms.asciiFold s.
Proof. intros H. unfold JS.toLowerCase. now apply lowerFrom_ascii. Qed.

Lemma toLowerCase_idem (s : string) :
  Terms.asciiText s = true ->
  JS.toLowerCase lowerOther (JS.toLowerCase lowerOther s) = JS.toLowerCase lowerOther s.
Proof.
  intros H. rewrite (toLowerCase_ascii s H).
  rewrite toLowerCase_ascii by now apply asciiFold_ascii.
  apply asciiFold_idem.
Qed.

Lemma toLowerCase_empty (s : string) :
  Terms.asciiText s = true ->
  (JS.toLowerCase lowerOther s =? "")%string = (s =? "")%string.
Proof.
  intros H. rewrite (toLowerCase_ascii s H). destruct s; reflexivity.
Qed.

Lemma prefix_app (d b : string) : String.prefix d (d ++ b) = true.
Proof.
  induction d as [| c d IH]; simpl; [now destruct b |].
  destruct (Ascii.ascii_dec c c); [assumption | contradiction].
Qed.

Lemma includes_prefix (s d : string) : String.prefix d s = true -> JS.includes s d = true.
Proof. intros H. destruct s; cbn [JS.includes]; now rewrite H. Qed.

Lemma includes_app (a d b : string) : JS.includes (a ++ d ++ b) d = true.
Proof.
  induction a as [| c a IH].
  - apply includes_prefix. cbn [String.append]. apply prefix_app.
  - change (String c a ++ d ++ b)%string with (String c (a ++ d ++ b)).
    cbn [JS.includes]. rewrite IH. now destruct (String.prefix d _).
Qed.

End TaxonomyFacts.

(** X1: The category is always one of the seven of the taxonomy: one of the
    five campaign categories when a UTM source is present, one of Direct,
    Organic Search, Social Media and Referral when none is; and it is
    "Direct" exactly when there is neither a UTM source nor a referrer
    domain. *)
Theorem category_taxonomy (lowerOther : string -> string -> string -> string)
    (ref utm : option string) :
  (JS.truthy utm = true ->
   In (Traffic.categorizeTrafficSource lowerOther ref utm) Terms.utmCategories)
  /\ (JS.truthy utm = false ->
      In (Traffic.categorizeTrafficSource lowerOther ref utm) Terms.referrerCategories)
  /\ (Traffic.categorizeTrafficSource lowerOther ref utm = "Direct"
      <-> JS.truthy utm = false /\ JS.truthy ref = false).
Proof.
  unfold Traffic.categorizeTrafficSource.
  destruct (categorizeReferrer_range lowerOther ref) as [Hr Hd].
  destruct (JS.truthy utm) eqn:E.
  - split; [intros _; apply categorizeUtm_range | split; [discriminate |]].
    split; [| intros [H _]; discriminate].
    intros H. pose proof (categorizeUtm_range lowerOther (JS.orElse utm "")) as Hin.
    rewrite H in Hin. simpl in Hin.
    repeat (destruct Hin as [Hin | Hin]; [discriminate |]). contradiction.
  - split; [discriminate | split; [intros _; exact Hr |]].
    rewrite Hd. tauto.
Qed.

(** X2: For a UTM source and a referrer domain of ASCII characters, the
    category does not depend on the case of the letters: lower-casing
    either input beforehand leaves the category as it is, on every
    platform. *)
Theorem category_ignores_case (lowerOther : string -> string -> string -> string)
    (ref utm : option string) :
  Terms.asciiOpt ref = true ->
  Terms.asciiOpt utm = true ->
  Traffic.categorizeTrafficSource lowerOther
    (Terms.lowerOpt lowerOther ref) (Terms.lowerOpt lowerOther utm)
  = Traffic.categorizeTrafficSource lowerOther ref utm.
Proof.
  intros Hr Hu. unfold Traffic.categorizeTrafficSource.
  assert (Ht : forall o, Terms.asciiOpt o = true ->
                         JS.truthy (Terms.lowerOpt lowerOther o) = JS.truthy o).
  { intros [x |] Hx; simpl; [| reflexivity]. now rewrite toLowerCase_empty. }
  assert (Hl : forall o, Terms.asciiOpt o = true ->
                 JS.toLowerCase lowerOther (JS.orElse (Terms.lowerOpt lowerOther o) "")
                 = JS.toLowerCase lowerOther (JS.orElse o "")).
  { intros [x |] Hx; simpl; [| reflexivity]. rewrite toLowerCase_empty by exact Hx.
    destruct (x =? "")%string; [reflexivity | now apply toLowerCase_idem]. }
  rewrite (Ht utm Hu). destruct (JS.truthy utm).
  - unfold Traffic.categorizeUtm. cbv zeta. now rewrite (Hl utm Hu).
  - unfold Traffic.categorizeReferrer. rewrite (Ht ref Hr).
    destruct (JS.truthy ref); cbn [negb]; [| reflexivity]. now rewrite (Hl ref Hr).
Qed.

(** X2 at the UTM source "FaceBook" and the referrer domain
    "News.Google.COM". *)
Lemma category_ignores_case_witness :
  Terms.asciiOpt (Some "News.Google.COM") = true
  /\ Terms.asciiOpt (Some "FaceBook") = true
  /\ Terms.lowerOpt JS.keepOther (Some "FaceBook") = Some "facebook"
  /\ Traffic.categorizeTrafficSource JS.keepOther
       (Some "news.google.com") (Some "facebook")
     = Traffic.categorizeTrafficSource JS.keepOther
         (Some "News.Google.COM") (Some "FaceBook").
Proof.
  assert (H1 : Terms.asciiOpt (Some "News.Google.COM") = true) by reflexivity.
  assert (H2 : Terms.asciiOpt (Some "FaceBook") = true) by reflexivity.
  split; [exact H1 | split; [exact H2 | split; [reflexivity |]]].
  exact (category_ignores_case JS.keepOther (Some "News.Google.COM") (Some "FaceBook")
           H1 H2).
Defined.

(** X3: Without a UTM source, every referrer domain that contains one of the
    listed search domains anywhere (a subdomain, a longer name) is
    "Organic Search", whatever else it contains. *)
Theorem search_domain_anywhere (lowerOther : string -> string -> string -> string)
    (before after d : string) (utm : option string) :
  In d Traffic.searchDomains ->
  JS.truthy utm = false ->
  Traffic.categorizeTrafficSource lowerOther (Some (before ++ d ++ after)%string) utm
  = "Organic Search".
Proof.
  intros Hd Hu. unfold Traffic.categorizeTrafficSource. rewrite Hu.
  unfold Traffic.categorizeReferrer.
  assert (Hne : ((before ++ d ++ after) =? "")%string = false).
  { destruct before; [| reflexivity]. simpl.
    destruct d; [| reflexivity].
    simpl in Hd. repeat (destruct Hd as [Hd | Hd]; [discriminate |]). contradiction. }
  cbn [JS.truthy JS.orElse]. rewrite Hne. cbn [negb].
  assert (Hlow : Terms.plainText d = true).
  { simpl in Hd. repeat (destruct Hd as [<- | Hd]; [reflexivity |]). contradiction. }
  assert (Hex : existsb (fun s => JS.includes
                                    (JS.toLowerCase lowerOther (before ++ d ++ after)) s)
                        Traffic.searchDomains = true).
  { apply existsb_exists. exists d. split; [assumption |].
    unfold JS.toLowerCase.
    destruct (lowerFrom_keeps lowerOther d after Hlow before "" "") as (P & T & E).
    rewrite E. apply includes_app. }
  now rewrite Hex.
Qed.

(** A domain that merely ends like a listed one is caught too. *)
Lemma search_domain_anywhere_witness :
  In "google.com" Traffic.searchDomains
  /\ JS.truthy (Some "") = false
  /\ Traffic.categorizeTrafficSource JS.keepOther
       (Some "news.notgoogle.com.example") (Some "")
     = "Organic Search".
Proof.
  assert (H1 : In "google.com" Traffic.searchDomains) by (simpl; tauto).
  assert (H2 : JS.truthy (Some "") = false) by reflexivity.
  split; [exact H1 | split; [exact H2 |]].
  exact (search_domain_anywhere JS.keepOther "news.not" ".example" "google.com"
           (Some "") H1 H2).
Defined.


(** ** Geolocation, client address and referrer domain *)

Section EnrichmentFacts.
Import Store Ingest.

Lemma orUndefined_truthy (o : option string) : orUndefined o <> Some "".
Proof.
  unfold orUndefined. destruct o as [s |]; simpl; [| discriminate].
  destruct (String.eqb_spec s ""); simpl; [discriminate |]. congruence.
Qed.

Lemma orUndefinedQ_nonzero (o : option Q) (q : Q) : orUndefinedQ o = Some q -> ~ (q == 0)%Q.
Proof.
  unfold orUndefinedQ. destruct o as [x |]; [| discriminate].
  destruct (Qeq_bool x 0) eqn:E; [discriminate |].
  intros H. injection H as <-. intros Hz. apply Qeq_bool_iff in Hz. congruence.
Qed.

Lemma firstField_app (a rest : string) :
  ~ In ","%char (list_ascii_of_string a) ->
  firstField (a ++ String "," rest) = a.
Proof.
  induction a as [| c a IH]; simpl; intros H; [reflexivity |].
  destruct (Ascii.eqb_spec c ","); [exfalso; apply H; now left |].
  rewrite IH; [reflexivity |]. intros Hin. apply H. now right.
Qed.

Lemma firstField_whole (a : string) :
  ~ In ","%char (list_ascii_of_string a) -> firstField a = a.
Proof.
  induction a as [| c a IH]; simpl; intros H; [reflexivity |].
  destruct (Ascii.eqb_spec c ","); [exfalso; apply H; now left |].
  rewrite IH; [reflexivity |]. intros Hin. apply H. now right.
Qed.

(** The first of the comma-separated fields of a header. *)
Lemma firstField_first (first rest : string) :
  ~ In ","%char (list_ascii_of_string first) ->
  rest = "" \/ (exists r, rest = String "," r) ->
  firstField (first ++ rest) = first.
Proof.
  intros Hc [-> | [r ->]].
  - rewrite sapp_nil_r. now apply firstField_whole.
  - now apply firstField_app.
Qed.

Lemma substring_all (s : string) : String.substring 0 (String.length s) s = s.
Proof. induction s as [| c s IH]; simpl; [reflexivity |]. now rewrite IH. Qed.

Lemma stripWww_www (rest : string) : stripWww ("www." ++ rest) = rest.
Proof.
  unfold stripWww. rewrite prefix_app.
  cbn [String.append String.length Nat.sub String.substring].
  rewrite Nat.sub_0_r. apply substring_all.
Qed.

End EnrichmentFacts.

(** X4: [geoLookup] never yields an empty country, code, city, region or time
    zone, nor a latitude or longitude of 0 (a value of 0 from the service
    is dropped like a missing one).  For the empty address, 127.0.0.1, ::1
    and every address that starts with 192.168. or 10. it yields the fixed
    record Local / LO / Localhost whatever the service would answer, and
    for every address it yields no field at all when the service fails. *)
Theorem geoLookup_fields (ipapi : string -> option Ingest.GeoData) (ip : string) :
  let g := Ingest.geoLookup ipapi ip in
  let localGeo := Ingest.mkGeo (Some "Local") (Some "LO") (Some "Localhost")
                               None None None None in
  (Ingest.gCountry g <> Some "" /\ Ingest.gCountryCode g <> Some ""
   /\ Ingest.gCity g <> Some "" /\ Ingest.gRegion g <> Some ""
   /\ Ingest.gTimezone g <> Some ""
   /\ (forall q, Ingest.gLatitude g = Some q -> ~ (q == 0)%Q)
   /\ (forall q, Ingest.gLongitude g = Some q -> ~ (q == 0)%Q))
  /\ (ip = "" \/ ip = "127.0.0.1" \/ ip = "::1"
      \/ (exists rest, ip = ("192.168." ++ rest)%string)
      \/ (exists rest, ip = ("10." ++ rest)%string) ->
      g = localGeo)
  /\ (ipapi ip = None ->
      g = localGeo \/ g = Ingest.mkGeo None None None None None None None).
Proof.
  intros g localGeo. subst g localGeo. unfold Ingest.geoLookup.
  split; [| split].
  - destruct (_ || _)%bool.
    + cbn. repeat split; try discriminate.
    + destruct (ipapi ip) as [data |]; cbn.
      * repeat split; try apply orUndefined_truthy; intros q; apply orUndefinedQ_nonzero.
      * repeat split; discriminate.
  - intros [-> | [-> | [-> | [[rest ->] | [rest ->]]]]]; try reflexivity.
    + rewrite (prefix_app "192.168." rest), !orb_true_r. reflexivity.
    + rewrite (prefix_app "10." rest), !orb_true_r. reflexivity.
  - intros H. destruct (_ || _)%bool; [now left | right]. now rewrite H.
Qed.

(** X5: The client address is never empty.  It is the first of the
    comma-separated fields of the X-Forwarded-For header (the whole header
    when it has no comma), trimmed of white space, when that is not empty.
    When the header is absent or its first field is blank, it is the
    address of the connection if there is one (and it is not empty), and
    127.0.0.1 otherwise, in which case the geography is the Local record.
    White space is the white space of ECMAScript: a no-break space and a
    line separator around an address are trimmed like spaces. *)
Theorem client_address (ipapi : string -> option Ingest.GeoData)
    (request : Ingest.CollectRequest) :
  let firstIs first :=
    exists rest,
      Ingest.xForwardedFor request = Some (first ++ rest)%string
      /\ ~ In ","%char (list_ascii_of_string first)
      /\ (rest = "" \/ exists r, rest = String "," r) in
  let noHeader :=
    Ingest.xForwardedFor request = None
    \/ exists first, firstIs first /\ JS.trim first = "" in
  Ingest.clientIpOf request <> ""
  /\ (forall first, firstIs first -> JS.trim first <> "" ->
        Ingest.clientIpOf request = JS.trim first)
  /\ (noHeader ->
      forall i, Ingest.requestIp request = Some i -> i <> "" ->
        Ingest.clientIpOf request = i)
  /\ (noHeader ->
      Ingest.requestIp request = None \/ Ingest.requestIp request = Some "" ->
      Ingest.clientIpOf request = "127.0.0.1"
      /\ Ingest.gCountry (Ingest.geoLookup ipapi (Ingest.clientIpOf request))
         = Some "Local")
  /\ (JS.trim (JS.utf8 160 ++ " 203.0.113.7" ++ JS.utf8 8232) = "203.0.113.7"
      /\ JS.trim (JS.utf8 160) = ""
      /\ JS.trim "10.0.0.1 , 10.0.0.2" = "10.0.0.1 , 10.0.0.2").
Proof.
  intros firstIs noHeader. unfold Ingest.clientIpOf.
  assert (Hfall : noHeader ->
            JS.orElse
              (option_map (fun h => JS.trim (Ingest.firstField h))
                          (Ingest.xForwardedFor request))
              (JS.orElse (Ingest.requestIp request) "127.0.0.1")
            = JS.orElse (Ingest.requestIp request) "127.0.0.1").
  { intros [Hn | (first & (rest & Hh & Hc & Hr) & Ht)].
    - now rewrite Hn.
    - rewrite Hh. cbn [option_map]. rewrite (firstField_first _ _ Hc Hr), Ht.
      reflexivity. }
  split; [| split; [| split; [| split]]].
  - destruct (Ingest.xForwardedFor request) as [h |]; simpl.
    + destruct (String.eqb_spec (JS.trim (Ingest.firstField h)) ""); [| assumption].
      destruct (Ingest.requestIp request) as [i |]; simpl; [| discriminate].
      destruct (String.eqb_spec i ""); [discriminate | assumption].
    + destruct (Ingest.requestIp request) as [i |]; simpl; [| discriminate].
      destruct (String.eqb_spec i ""); [discriminate | assumption].
  - intros first (rest & Hh & Hc & Hr) Ht. rewrite Hh. cbn [option_map].
    rewrite (firstField_first _ _ Hc Hr). now apply orElse_Some.
  - intros Hn i Hi Hne. rewrite (Hfall Hn), Hi. now apply orElse_Some.
  - intros Hn Hi. rewrite (Hfall Hn).
    assert (E : JS.orElse (Ingest.requestIp request) "127.0.0.1" = "127.0.0.1")
      by (destruct Hi as [-> | ->]; reflexivity).
    rewrite E. split; reflexivity.
  - repeat split; vm_compute; reflexivity.
Qed.

(** X6: The referrer domain is absent when the referrer is missing or empty
    or does not parse as a URL; otherwise it is the host name of the URL
    with one leading "www." removed (one only: www.www.example.com gives
    www.example.com), so that a host and its www. form give the same
    domain. *)
Theorem referrer_domain (urlHostname : string -> option string)
    (referrer : option string) :
  (JS.truthy referrer = false -> Ingest.extractReferrerDomain urlHostname referrer = None)
  /\ (forall u, referrer = Some u -> u <> "" -> urlHostname u = None ->
        Ingest.extractReferrerDomain urlHostname referrer = None)
  /\ (forall u host, referrer = Some u -> u <> "" -> urlHostname u = Some host ->
        (String.prefix "www." host = false ->
         Ingest.extractReferrerDomain urlHostname referrer = Some host)
        /\ (forall rest, host = ("www." ++ rest)%string ->
              Ingest.extractReferrerDomain urlHostname referrer = Some rest)).
Proof.
  unfold Ingest.extractReferrerDomain. split; [| split].
  - intros H. now rewrite H.
  - intros u -> Hu Hn. rewrite (proj2 (truthy_Some u) Hu). cbn [negb].
    now rewrite (orElse_Some _ _ Hu), Hn.
  - intros u host -> Hu Hh. rewrite (proj2 (truthy_Some u) Hu). cbn [negb].
    rewrite (orElse_Some _ _ Hu), Hh. cbn [option_map]. split.
    + intros Hp. unfold Ingest.stripWww. now rewrite Hp.
    + intros rest ->. now rewrite stripWww_www.
Qed.



(** ** The store under [collect] and [heartbeat] *)

Section StoreFacts.
Import Store Ingest Spec Terms.

Variable urlHostname : string -> option string.
Variable ipapi : string -> option GeoData.

Lemma hasPageView_false (i : string) (st : Store.t) :
  hasPageView i st = false <-> ~ In i (map pvId (pageViews st)).
Proof.
  rewrite <- hasPageView_In. destruct (hasPageView i st); split; congruence.
Qed.

(** Every way a [collect] call can end. *)
Lemma collect_cases (rt : Runtime) (request : CollectRequest) (st : Store.t) :
  let b := body request in
  let out := collectHandler urlHostname ipapi rt request st in
  let failed := Returned (mkReply 500 "error" None) in
  let touched s :=
    map (fun x => if (id x =? id s)%string then collectUpdate rt b x else x)
        (sessions st) in
  let row := newSessionRow rt b (extractReferrerDomain urlHostname (bReferrer b))
                           (geoLookup ipapi (clientIpOf request)) in
  (exists s, JS.truthy (bSessionId b) = true
             /\ find (candidateFilter rt b) (sessions st) = Some s
             /\ ((In (newPageViewId rt) (map pvId (pageViews st))
                  /\ out = (failed, mkStore (touched s) (pageViews st)))
                 \/ (~ In (newPageViewId rt) (map pvId (pageViews st))
                     /\ out = (Returned (mkReply 200 "ok" (Some (id s))),
                               mkStore (touched s)
                                 (pageViews st
                                  ++ [newPageViewRow rt (id s) (bPath b) (bTitle b)
                                                     (bReferrer b)])))))
  \/ ((JS.truthy (bSessionId b) = false
       \/ find (candidateFilter rt b) (sessions st) = None)
      /\ ((In (newSessionId rt) (map id (sessions st)) /\ out = (failed, st))
          \/ (~ In (newSessionId rt) (map id (sessions st))
              /\ In (newPageViewId rt) (map pvId (pageViews st))
              /\ out = (failed, mkStore (sessions st ++ [row]) (pageViews st)))
          \/ (~ In (newSessionId rt) (map id (sessions st))
              /\ ~ In (newPageViewId rt) (map pvId (pageViews st))
              /\ out = (Returned (mkReply 200 "ok" (Some (newSessionId rt))),
                        mkStore (sessions st ++ [row])
                          (pageViews st
                           ++ [newPageViewRow rt (newSessionId rt) (bPath b) (bTitle b)
                                              None]))))).
Proof.
  intros b out failed touched row.
  assert (Hfirst :
    (if JS.truthy (bSessionId b)
     then sessionFindFirst (JS.orElse (bSessionId b) "") (bVisitorId b)
                           (now rt - 30 * 60 * 1000)
     else ret None) st
    = (Returned (if JS.truthy (bSessionId b)
                 then option_map id (find (candidateFilter rt b) (sessions st))
                 else None), st)).
  { destruct (JS.truthy (bSessionId b)); reflexivity. }
  subst out. unfold collectHandler, tryCatch, bind. cbv zeta. fold b. rewrite Hfirst.
  destruct (JS.truthy (bSessionId b)) eqn:Ht;
    [destruct (find (candidateFilter rt b) (sessions st)) as [s |] eqn:Hf |].
  - left. exists s. split; [reflexivity | split; [reflexivity |]].
    assert (Hs : hasSession (id s) st = true).
    { apply hasSession_In, in_map. now apply find_some in Hf. }
    cbn [option_map]. unfold sessionUpdate, pageViewCreate, ret. rewrite Hs.
    unfold hasPageView. cbn [pageViews pvId newPageViewRow].
    fold (hasPageView (newPageViewId rt) st).
    destruct (hasPageView (newPageViewId rt) st) eqn:Hp.
    + left. split; [now apply hasPageView_In | reflexivity].
    + right. split; [now apply hasPageView_false | reflexivity].
  - right. split; [now right |].
    cbn [option_map]. unfold sessionCreate, pageViewCreate, ret.
    cbn [id newSessionRow]. fold row.
    replace (id row) with (newSessionId rt) by reflexivity.
    destruct (hasSession (newSessionId rt) st) eqn:Hs.
    + left. split; [now apply hasSession_In | reflexivity].
    + right. apply hasSession_false in Hs.
      unfold hasPageView. cbn [pageViews pvId newPageViewRow].
      fold (hasPageView (newPageViewId rt) st).
      destruct (hasPageView (newPageViewId rt) st) eqn:Hp.
      * left. split; [assumption | split; [now apply hasPageView_In | reflexivity]].
      * right. split; [assumption | split; [now apply hasPageView_false | reflexivity]].
  - right. split; [now left |].
    unfold sessionCreate, pageViewCreate, ret.
    cbn [id newSessionRow]. fold row.
    replace (id row) with (newSessionId rt) by reflexivity.
    destruct (hasSession (newSessionId rt) st) eqn:Hs.
    + left. split; [now apply hasSession_In | reflexivity].
    + right. apply hasSession_false in Hs.
      unfold hasPageView. cbn [pageViews pvId newPageViewRow].
      fold (hasPageView (newPageViewId rt) st).
      destruct (hasPageView (newPageViewId rt) st) eqn:Hp.
      * left. split; [assumption | split; [now apply hasPageView_In | reflexivity]].
      * right. split; [assumption | split; [now apply hasPageView_false | reflexivity]].
Qed.

(** The two ways a [heartbeat] call can end. *)
Lemma heartbeat_cases (rt : Runtime) (b : HeartbeatBody) (st : Store.t) :
  (~ In (hSessionId b) (map id (sessions st))
   /\ heartbeatHandler rt b st = (Returned (mkReply 404 "not_found" None), st))
  \/ (exists s,
        find (fun x => (id x =? hSessionId b)%string) (sessions st) = Some s
        /\ heartbeatHandler rt b st
           = (Returned (mkReply 200 "ok" None),
              mkStore (map (fun x => if (id x =? hSessionId b)%string
                                     then heartbeatUpdate rt
                                            (JS.floorDiv (now rt - startedAt s) 1000) x
                                     else x)
                           (sessions st))
                      (afterHeartbeat rt b st))).
Proof.
  destruct (hasSession (hSessionId b) st) eqn:Hs.
  - right. destruct (proj1 (find_id_hasSession _ _) Hs) as [s Hf]. exists s.
    split; [assumption |].
    unfold heartbeatHandler, tryCatch, bind, sessionFindUnique, sessionUpdate,
      pageViewFindFirst, pageViewUpdate, ret, afterHeartbeat. cbv zeta.
    rewrite Hf. cbn [fst snd]. rewrite Hs.
    destruct (hScrollDepth b) as [depth |]; [| reflexivity].
    destruct (JS.truthy (hPath b)); [| reflexivity].
    cbn [pageViews sessions].
    change (filter (fun v => ((sessionId v =? hSessionId b)%string
                              && (path v =? JS.orElse (hPath b) "")%string)%bool)
                   (pageViews st))
      with (viewsOf (hSessionId b) (JS.orElse (hPath b) "") st).
    destruct (latest (viewsOf (hSessionId b) (JS.orElse (hPath b) "") st))
      as [lv |] eqn:El; [| reflexivity].
    assert (Hlv : In lv (pageViews st)).
    { apply latest_In in El as [Hl _]. unfold viewsOf in Hl.
      now apply filter_In in Hl. }
    unfold hasPageView. cbn [pageViews].
    assert (Hex : existsb (fun v => (pvId v =? pvId lv)%string) (pageViews st) = true).
    { apply existsb_exists. exists lv. split; [assumption | apply String.eqb_refl]. }
    rewrite Hex. reflexivity.
  - left. apply hasSession_false in Hs. split; [assumption |].
    now apply heartbeat_unknown_session.
Qed.

Lemma NoDup_snoc (A : Type) (l : list A) (x : A) :
  NoDup l -> ~ In x l -> NoDup (l ++ [x]).
Proof.
  intros Hl Hx. induction Hl as [| a l Ha Hl IH]; simpl.
  - constructor; [intros [] | constructor].
  - constructor.
    + rewrite in_app_iff. simpl. intros [H | [H | []]]; [contradiction |].
      subst. apply Hx. now left.
    + apply IH. intros H. apply Hx. now right.
Qed.

Lemma Forall2_map_In (A : Type) (R : A -> A -> Prop) (f : A -> A) (l : list A) :
  (forall x, In x l -> R x (f x)) -> Forall2 R l (map f l).
Proof.
  induction l as [| a l IH]; intros H; simpl; constructor.
  - apply H. now left.
  - apply IH. intros x Hx. apply H. now right.
Qed.

Lemma Forall2_chain (A : Type) (R S T : A -> A -> Prop) (l1 l2 l3 : list A) :
  (forall x y z, R x y -> S y z -> T x z) ->
  Forall2 R l1 l2 -> Forall2 S l2 l3 -> Forall2 T l1 l3.
Proof.
  intros HR H12. revert l3. induction H12; intros l3 H23; inversion H23; subst.
  - constructor.
  - constructor; eauto.
Qed.

Lemma filter_key_length (A : Type) (key : A -> string) (p : string -> bool)
    (l : list A) :
  List.length (filter (fun x => p (key x)) l) = List.length (filter p (map key l)).
Proof.
  induction l as [| a l IH]; simpl; [reflexivity |].
  destruct (p (key a)); simpl; now rewrite IH.
Qed.

Lemma afterHeartbeat_shape (rt : Runtime) (b : HeartbeatBody) (st : Store.t) :
  afterHeartbeat rt b st = pageViews st
  \/ exists depth lv, afterHeartbeat rt b st = map (ratchet rt depth lv) (pageViews st).
Proof.
  unfold afterHeartbeat. destruct (hScrollDepth b) as [depth |]; [| now left].
  destruct (JS.truthy (hPath b)); [| now left].
  destruct (latest _) as [lv |]; [| now left].
  right. now exists depth, lv.
Qed.

Lemma afterHeartbeat_keys (rt : Runtime) (b : HeartbeatBody) (st : Store.t) :
  map pvId (afterHeartbeat rt b st) = map pvId (pageViews st)
  /\ map sessionId (afterHeartbeat rt b st) = map sessionId (pageViews st).
Proof.
  destruct (afterHeartbeat_shape rt b st) as [-> | (depth & lv & ->)];
    [split; reflexivity |].
  rewrite !map_map.
  split; apply map_ext; intros v;
    now destruct (ratchet_keeps rt depth lv v) as (H1 & H2 & _).
Qed.

Lemma viewsOfSession_keys (st st' : Store.t) (sid : string) :
  map sessionId (pageViews st') = map sessionId (pageViews st) ->
  viewsOfSession st' sid = viewsOfSession st sid.
Proof.
  intros H. unfold viewsOfSession, Aggregate.count.
  rewrite (filter_key_length _ sessionId (fun k => (k =? sid)%string) (pageViews st')).
  rewrite (filter_key_length _ sessionId (fun k => (k =? sid)%string) (pageViews st)).
  now rewrite H.
Qed.

Lemma viewsOfSession_snoc (ss ss' : list AnalyticsSession) (pvs : list PageView)
    (v : PageView) (sid : string) :
  viewsOfSession (mkStore ss' (pvs ++ [v])) sid
  = viewsOfSession (mkStore ss pvs) sid
    + (if (sessionId v =? sid)%string then 1 else 0).
Proof.
  unfold viewsOfSession, Aggregate.count. cbn [pageViews].
  rewrite filter_app, length_app. cbn [filter].
  destruct (sessionId v =? sid)%string; cbn [List.length]; lia.
Qed.

Lemma failed_replied (r : Reply) (st : Store.t) :
  code r = 500 -> replied (Returned r, st) 500.
Proof. intros H. exists r. now split. Qed.

Lemma handle_well_formed (c : Call) (st : Store.t) :
  wellFormed st -> wellFormed (snd (handle urlHostname ipapi c st)).
Proof.
  intros (Hs & Hp & Hr). destruct c as [rt request | rt b]; cbn [handle].
  - pose proof (collect_cases rt request st) as H. cbv zeta in H.
    assert (Hids : forall s,
      map id (map (fun x => if (id x =? id s)%string
                            then collectUpdate rt (body request) x else x)
                  (sessions st)) = map id (sessions st)).
    { intros s. apply (map_update_ids _ id (id s)). reflexivity. }
    destruct H as [(s & Ht & Hf & [[Hin E] | [Hnin E]])
                  | [Hno [[Hin E] | [(Hns & Hin & E) | (Hns & Hnp & E)]]]];
      rewrite E; cbn [snd]; unfold wellFormed; cbn [sessions pageViews].
    + rewrite Hids. auto.
    + rewrite Hids, map_app. cbn [map pvId newPageViewRow].
      split; [assumption | split; [now apply NoDup_snoc |]].
      intros v Hv. apply in_app_or in Hv as [Hv | [<- | []]]; [now apply Hr |].
      cbn [sessionId newPageViewRow]. apply in_map. now apply find_some in Hf.
    + auto.
    + rewrite map_app. cbn [map id newSessionRow].
      split; [now apply NoDup_snoc | split; [assumption |]].
      intros v Hv. apply in_or_app. left. now apply Hr.
    + rewrite !map_app. cbn [map id newSessionRow pvId newPageViewRow].
      split; [now apply NoDup_snoc | split; [now apply NoDup_snoc |]].
      intros v Hv. apply in_or_app.
      apply in_app_or in Hv as [Hv | [<- | []]]; [left; now apply Hr |].
      right. now left.
  - destruct (heartbeat_cases rt b st) as [[_ E] | (s & Hf & E)]; rewrite E; cbn [snd];
      [now repeat split |].
    unfold wellFormed. cbn [sessions pageViews].
    destruct (afterHeartbeat_keys rt b st) as [Hk1 Hk2].
    rewrite (map_update_ids _ id (hSessionId b)) by reflexivity. rewrite Hk1.
    split; [assumption | split; [assumption |]].
    intros v Hv. apply (in_map sessionId) in Hv. rewrite Hk2 in Hv.
    apply in_map_iff in Hv as (v0 & <- & Hv0). now apply Hr.
Qed.

(** X7: Whatever calls arrive, and however each of them ends, the store stays
    well formed: session ids and page-view ids remain unique, and every
    page view belongs to a session of the store. *)
Theorem store_stays_well_formed (calls : list Call) (st : Store.t) :
  wellFormed st -> wellFormed (run urlHostname ipapi calls st).
Proof.
  unfold run. revert st.
  induction calls as [| c calls IH]; intros st H; cbn [fold_left]; [assumption |].
  apply IH. now apply handle_well_formed.
Qed.

Lemma handle_surplus (c : Call) (st : Store.t) :
  ~ replied (handle urlHostname ipapi c st) 500 ->
  grown (fun s s' => id s' = id s
                     /\ surplus (snd (handle urlHostname ipapi c st)) s' = surplus st s)
        (sessions st) (sessions (snd (handle urlHostname ipapi c st))).
Proof.
  intros Hok. destruct c as [rt request | rt b]; cbn [handle] in *.
  - pose proof (collect_cases rt request st) as H. cbv zeta in H.
    destruct H as [(s & Ht & Hf & [[Hin E] | [Hnin E]])
                  | [Hno [[Hin E] | [(Hns & Hin & E) | (Hns & Hnp & E)]]]];
      rewrite E in *; cbn [snd sessions];
      try (exfalso; apply Hok; now apply failed_replied).
    + exists (map (fun x => if (id x =? id s)%string
                            then collectUpdate rt (body request) x else x)
                  (sessions st)), [].
      split; [now rewrite app_nil_r |].
      apply Forall2_map_self. intros x. unfold surplus.
      destruct (String.eqb_spec (id x) (id s)) as [Heq | Hne].
      * cbn [id pageViewCount collectUpdate]. split; [reflexivity |].
        rewrite (viewsOfSession_snoc (sessions st)). cbn [sessionId newPageViewRow].
        rewrite Heq, String.eqb_refl. destruct st; cbn. lia.
      * split; [reflexivity |].
        rewrite (viewsOfSession_snoc (sessions st)). cbn [sessionId newPageViewRow].
        destruct (String.eqb_spec (id s) (id x)) as [Heq | _];
          [symmetry in Heq; contradiction |].
        destruct st; cbn. lia.
    + exists (sessions st), [newSessionRow rt (body request)
                (extractReferrerDomain urlHostname (bReferrer (body request)))
                (geoLookup ipapi (clientIpOf request))].
      split; [reflexivity |].
      rewrite <- (map_id (sessions st)) at 2. apply Forall2_map_In.
      intros x Hx. split; [reflexivity |]. unfold surplus.
      rewrite (viewsOfSession_snoc (sessions st)). cbn [sessionId newPageViewRow].
      destruct (String.eqb_spec (newSessionId rt) (id x)) as [Heq | _].
      * exfalso. apply Hns. rewrite Heq. now apply in_map.
      * destruct st; cbn. lia.
  - destruct (heartbeat_cases rt b st) as [[_ E] | (s & Hf & E)]; rewrite E; cbn [snd].
    + exists (sessions st), []. split; [now rewrite app_nil_r |].
      apply Forall2_same. now split.
    + cbn [sessions]. eexists _, []. split; [now rewrite app_nil_r |].
      apply Forall2_map_self. intros x.
      assert (Hv : forall ss sid,
        viewsOfSession (mkStore ss (afterHeartbeat rt b st)) sid = viewsOfSession st sid).
      { intros ss sid. apply viewsOfSession_keys. cbn [pageViews].
        apply afterHeartbeat_keys. }
      unfold surplus.
      destruct (id x =? hSessionId b)%string;
        cbn [id pageViewCount heartbeatUpdate]; rewrite Hv; now split.
Qed.

(** X8: As long as no call is answered with status 500, the page-view counter
    of every session moves with the page views of that session: after
    the run, each session that was in the store before is still there,
    in place and under its id, and its counter exceeds the number of its
    page views by what it did before. *)
Theorem counter_tracks_views (calls : list Call) (st : Store.t) :
  noFailure (handle urlHostname ipapi) calls st ->
  grown (fun s s' => id s' = id s
                     /\ surplus (run urlHostname ipapi calls st) s' = surplus st s)
        (sessions st) (sessions (run urlHostname ipapi calls st)).
Proof.
  unfold run. revert st.
  induction calls as [| c calls IH]; intros st H; cbn [fold_left].
  - exists (sessions st), []. split; [now rewrite app_nil_r |].
    apply Forall2_same. now split.
  - destruct H as [Hc Hrest].
    destruct (handle_surplus c st Hc) as (k1 & a1 & E1 & F1).
    destruct (IH _ Hrest) as (k2 & a2 & E2 & F2).
    rewrite E1 in F2. apply Forall2_app_inv_l in F2 as (ka & kb & Fa & Fb & ->).
    exists ka, (kb ++ a2). split; [now rewrite E2, app_assoc |].
    refine (Forall2_chain _ _ _ _ _ _ _ _ F1 Fa).
    intros x y z [H1 H2] [H3 H4]. split; congruence.
Qed.

(** Every row of the table that has the id [sid] was last active at [t]. *)
Lemma touched_rows (f : AnalyticsSession -> AnalyticsSession) (sid : string) (t : Z)
    (l : list AnalyticsSession) (x : AnalyticsSession) :
  (forall y, id (f y) = id y /\ lastActiveAt (f y) = t) ->
  In x (map (fun y => if (id y =? sid)%string then f y else y) l) ->
  id x = sid -> lastActiveAt x = t.
Proof.
  intros Hf Hin Hid. apply in_map_iff in Hin as (y & <- & _).
  destruct (String.eqb_spec (id y) sid) as [_ | Hne].
  - apply Hf.
  - contradiction.
Qed.

(** X9: The window of a session slides: once [collect] has found a session
    open, whatever the outcome of the call, the same session is open for
    the next call of that visitor exactly when that call comes no more
    than 30 minutes after this one. *)
Theorem collect_slides_window (rt rt' : Runtime) (request : CollectRequest)
    (b' : CollectBody) (st : Store.t) :
  openSession rt (body request) st ->
  bSessionId b' = bSessionId (body request) ->
  bVisitorId b' = bVisitorId (body request) ->
  (openSession rt' b' (snd (collectHandler urlHostname ipapi rt request st))
   <-> now rt' - 30 * 60 * 1000 <= now rt).
Proof.
  intros Hopen Hsid Hvis.
  apply openSession_find in Hopen as (Ht & s0 & Hf0).
  pose proof (collect_cases rt request st) as H. cbv zeta in H.
  destruct H as [(s & _ & Hf & Hcase) | [[Hno | Hno] _]];
    [| congruence | congruence].
  pose proof (find_some _ _ Hf) as [Hin Hcand].
  apply (candidateFilter_true rt (body request) s Ht) in Hcand as (Hc1 & Hc2 & Hc3).
  assert (Hss : sessions (snd (collectHandler urlHostname ipapi rt request st))
                = map (fun x => if (id x =? id s)%string
                                then collectUpdate rt (body request) x else x)
                      (sessions st)).
  { destruct Hcase as [[_ E] | [_ E]]; now rewrite E. }
  unfold openSession. rewrite Hss, Hsid, Hvis, Hc1. split.
  - intros (x & Hx & _ & Hid & _ & Hle).
    rewrite (touched_rows (collectUpdate rt (body request)) (id s) (now rt)
               (sessions st) x) in Hle;
      [assumption | now split | assumption | congruence].
  - intros Hle. exists (collectUpdate rt (body request) s).
    split; [| cbn [id visitorId lastActiveAt collectUpdate]; rewrite <- Hc1; auto].
    apply in_map_iff. exists s. now rewrite String.eqb_refl.
Qed.

(** X10: A heartbeat keeps a session open: after a heartbeat for a session of
    the store, that session is open for a [collect] call of its visitor
    exactly when the call comes no more than 30 minutes after the
    heartbeat. *)
Theorem heartbeat_slides_window (rt rt' : Runtime) (b : HeartbeatBody)
    (b' : CollectBody) (st : Store.t) (s : AnalyticsSession) :
  In s (sessions st) ->
  id s = hSessionId b ->
  JS.truthy (bSessionId b') = true ->
  bSessionId b' = Some (id s) ->
  bVisitorId b' = visitorId s ->
  (openSession rt' b' (snd (heartbeatHandler rt b st))
   <-> now rt' - 30 * 60 * 1000 <= now rt).
Proof.
  intros Hin Hid Ht Hsid Hvis.
  destruct (heartbeat_cases rt b st) as [[Hnone _] | (s0 & _ & E)].
  { exfalso. apply Hnone. rewrite <- Hid. now apply in_map. }
  rewrite E. cbn [snd]. unfold openSession. cbn [sessions].
  rewrite Hsid in Ht. rewrite Hsid, Hvis.
  set (d := JS.floorDiv (now rt - startedAt s0) 1000).
  split.
  - intros (x & Hx & _ & Hix & _ & Hle).
    rewrite (touched_rows (heartbeatUpdate rt d) (hSessionId b) (now rt)
               (sessions st) x) in Hle;
      [assumption | now split | assumption | congruence].
  - intros Hle. exists (heartbeatUpdate rt d s).
    split; [| cbn [id visitorId lastActiveAt heartbeatUpdate]; auto].
    apply in_map_iff. exists s. rewrite Hid, String.eqb_refl. now split.
Qed.

(** X11: What a heartbeat records about the session: in a store whose session
    ids are unique, the session it names gets the instant of the call as
    its last activity and, as its duration, the whole seconds elapsed
    since it started; every other session is left as it was. *)
Theorem heartbeat_duration (rt : Runtime) (b : HeartbeatBody) (st : Store.t) :
  NoDup (map id (sessions st)) ->
  Forall2 (fun s s' =>
             if (id s =? hSessionId b)%string
             then lastActiveAt s' = now rt
                  /\ 1000 * duration s' <= now rt - startedAt s < 1000 * duration s' + 1000
                  /\ heartbeatFrame s' = heartbeatFrame s
             else s' = s)
          (sessions st) (sessions (snd (heartbeatHandler rt b st))).
Proof.
  intros Hnd.
  destruct (heartbeat_cases rt b st) as [[Hnone E] | (s0 & Hf & E)]; rewrite E;
    cbn [snd sessions].
  - rewrite <- (map_id (sessions st)) at 2. apply Forall2_map_In. intros x Hx.
    destruct (String.eqb_spec (id x) (hSessionId b)) as [Heq | _]; [| reflexivity].
    exfalso. apply Hnone. rewrite <- Heq. now apply in_map.
  - apply Forall2_map_In. intros x Hx.
    destruct (String.eqb_spec (id x) (hSessionId b)) as [Heq | _]; [| reflexivity].
    apply find_some in Hf as [Hin0 Hid0]. apply String.eqb_eq in Hid0.
    assert (x = s0) as ->.
    { apply (NoDup_key_eq _ id (sessions st)); [assumption .. | congruence]. }
    cbn [lastActiveAt duration heartbeatUpdate]. split; [reflexivity |].
    split; [unfold JS.floorDiv; Z.div_mod_to_equations; lia | reflexivity].
Qed.

(** X12: A heartbeat that carries no scroll depth, or no path, or names a
    session and path without a page view, leaves every page view as it
    was. *)
Theorem heartbeat_without_scroll (rt : Runtime) (b : HeartbeatBody) (st : Store.t) :
  hScrollDepth b = None \/ JS.truthy (hPath b) = false
  \/ viewsOf (hSessionId b) (JS.orElse (hPath b) "") st = [] ->
  pageViews (snd (heartbeatHandler rt b st)) = pageViews st.
Proof.
  intros H.
  destruct (heartbeat_cases rt b st) as [[_ E] | (s0 & _ & E)]; rewrite E;
    cbn [snd pageViews]; [reflexivity |].
  unfold afterHeartbeat.
  destruct H as [-> | [-> | ->]]; [reflexivity | now destruct (hScrollDepth b) |].
  destruct (hScrollDepth b); [| reflexivity].
  destruct (JS.truthy (hPath b)); reflexivity.
Qed.

(** X13: What an answered [collect] leaves behind: the session id of the reply
    is the id of a session of the store that belongs to the visitor of
    the request and has the path of the request as its exit page, and
    the page views are those of before followed by one new view, of that
    session and path, with the title of the request. *)
Theorem collect_reply_names_session (rt : Runtime) (request : CollectRequest)
    (st : Store.t) (r : Reply) :
  let b := body request in
  let st' := snd (collectHandler urlHostname ipapi rt request st) in
  fst (collectHandler urlHostname ipapi rt request st) = Returned r ->
  code r = 200 ->
  exists sid v,
    replySessionId r = Some sid
    /\ (exists s, In s (sessions st') /\ id s = sid
                  /\ visitorId s = bVisitorId b /\ exitPage s = Some (bPath b))
    /\ pageViews st' = pageViews st ++ [v]
    /\ sessionId v = sid /\ path v = bPath b /\ title v = bTitle b.
Proof.
  intros b st' Hr Hcode. subst st'.
  pose proof (collect_cases rt request st) as H. cbv zeta in H. fold b in H.
  destruct H as [(s & Ht & Hf & [[Hin E] | [Hnin E]])
                | [Hno [[Hin E] | [(Hns & Hin & E) | (Hns & Hnp & E)]]]];
    rewrite E in *; cbn [fst snd sessions pageViews] in *;
    injection Hr as <-; try discriminate Hcode.
  - pose proof (find_some _ _ Hf) as [Hs Hcand].
    apply (candidateFilter_true rt b s Ht) in Hcand as (Hc1 & Hc2 & Hc3).
    eexists _, _. split; [reflexivity |]. split; [| now repeat split].
    exists (collectUpdate rt b s). split; [| now repeat split].
    apply in_map_iff. exists s. now rewrite String.eqb_refl.
  - eexists _, _. split; [reflexivity |]. split; [| now repeat split].
    eexists. split; [apply in_or_app; right; now left | now repeat split].
Qed.

End StoreFacts.


(** ** Grouping loops in general *)

Section TallyFacts.
Context {A V : Type}.
Variable key : A -> string.
Variable fresh : A -> V.
Variable step : A -> V -> V.

Lemma groups_NoDup (items : list A) :
  NoDup (map fst
           (fold_left (fun acc x => JS.upsert (key x) (fresh x) (step x) acc)
                      items [])).
Proof.
  rewrite (group_keys key fresh step items []). apply fold_setAdd_NoDup. constructor.
Qed.

Lemma groups_keys (items : list A) (k : string) :
  In k (map fst
          (fold_left (fun acc x => JS.upsert (key x) (fresh x) (step x) acc)
                     items []))
  <-> exists x, In x items /\ key x = k.
Proof.
  rewrite (group_keys key fresh step items []), fold_setAdd_In. simpl.
  split; [intros [[] | H]; exact H | now right].
Qed.

Lemma groups_entry (items : list A) (k : string) (v : V) :
  In (k, v) (fold_left (fun acc x => JS.upsert (key x) (fresh x) (step x) acc) items []) ->
  exists x r, filter (fun y => (key y =? k)%string) items = x :: r
              /\ v = fold_left (fun a y => step y a) (x :: r) (fresh x).
Proof.
  intros H. apply (mapGet_In k v _ (groups_NoDup items)) in H.
  rewrite group_get in H.
  destruct (filter (fun y => (key y =? k)%string) items) as [| x r]; [discriminate |].
  simpl JS.mapGet in H. injection H as <-. eauto.
Qed.

Lemma fold_measure (cnt : V -> Z) (w : A -> Z) :
  (forall y v, cnt (step y v) = cnt v + w y) ->
  forall l v0, cnt (fold_left (fun a y => step y a) l v0)
               = cnt v0 + Aggregate.sumZ (map w l).
Proof.
  intros H. induction l as [| y l IH]; intros v0; cbn [fold_left map].
  - unfold Aggregate.sumZ. simpl. lia.
  - rewrite IH, H, sumZ_cons. lia.
Qed.

Lemma fold_members (vis : V -> list string) (who : A -> string) :
  (forall y v, vis (step y v) = JS.setAdd (who y) (vis v)) ->
  forall l v0, vis (fold_left (fun a y => step y a) l v0)
               = fold_left (fun acc y => JS.setAdd (who y) acc) l (vis v0).
Proof.
  intros H. induction l as [| y l IH]; intros v0; cbn [fold_left]; [reflexivity |].
  now rewrite IH, H.
Qed.

Lemma fold_keeps (B : Type) (g : V -> B) :
  (forall y v, g (step y v) = g v) ->
  forall l v0, g (fold_left (fun a y => step y a) l v0) = g v0.
Proof.
  intros H. induction l as [| y l IH]; intros v0; cbn [fold_left]; [reflexivity |].
  now rewrite IH, H.
Qed.

Lemma upsert_sum (cnt : V -> Z) (k : string) (fr : V) (f : V -> V) (c : Z)
    (m : list (string * V)) :
  cnt fr = 0 -> (forall v, cnt (f v) = cnt v + c) ->
  Aggregate.sumZ (map (fun e => cnt (snd e)) (JS.upsert k fr f m))
  = Aggregate.sumZ (map (fun e => cnt (snd e)) m) + c.
Proof.
  intros H0 Hf. induction m as [| [k' v] m IH]; cbn [JS.upsert map snd].
  - rewrite sumZ_cons, Hf, H0. unfold Aggregate.sumZ. simpl. lia.
  - destruct (k' =? k)%string; cbn [map snd]; rewrite !sumZ_cons; [rewrite Hf | rewrite IH];
      lia.
Qed.

Lemma groups_sum (cnt : V -> Z) (w : A -> Z) :
  (forall x, cnt (fresh x) = 0) ->
  (forall y v, cnt (step y v) = cnt v + w y) ->
  forall items,
    Aggregate.sumZ
      (map (fun e => cnt (snd e))
           (fold_left (fun acc x => JS.upsert (key x) (fresh x) (step x) acc)
                      items []))
    = Aggregate.sumZ (map w items).
Proof.
  intros H0 Hs items.
  enough (G : forall m,
    Aggregate.sumZ (map (fun e => cnt (snd e))
      (fold_left (fun acc x => JS.upsert (key x) (fresh x) (step x) acc) items m))
    = Aggregate.sumZ (map (fun e => cnt (snd e)) m) + Aggregate.sumZ (map w items)).
  { rewrite G. unfold Aggregate.sumZ at 1. simpl. lia. }
  induction items as [| x items IH]; intros m; cbn [fold_left map].
  - unfold Aggregate.sumZ at 3. simpl. lia.
  - rewrite IH, (upsert_sum cnt _ _ _ (w x)), sumZ_cons; [lia | apply H0 |].
    intros v. apply Hs.
Qed.

End TallyFacts.

Lemma sumZ_ones (A : Type) (l : list A) :
  Aggregate.sumZ (map (fun _ => 1) l) = Aggregate.count l.
Proof.
  induction l as [| x l IH]; [reflexivity |].
  cbn [map]. rewrite sumZ_cons, count_cons, IH. lia.
Qed.

Lemma sumZ_perm (l l' : list Z) :
  Permutation l l' -> Aggregate.sumZ l = Aggregate.sumZ l'.
Proof.
  intros H. induction H; rewrite ?sumZ_cons; lia.
Qed.

(** The members of a [Set] filled in a loop are the distinct values added. *)
Lemma members_size (A : Type) (who : A -> string) (l : list A) :
  Aggregate.count (fold_left (fun acc y => JS.setAdd (who y) acc) l [])
  = JS.setSize (map who l).
Proof.
  unfold Aggregate.count, JS.setSize. f_equal.
  apply (NoDup_same_count (fun _ => true)).
  - apply fold_setAdd_NoDup. constructor.
  - apply distinct_NoDup.
  - intros x. rewrite fold_setAdd_In, distinct_In, in_map_iff. simpl.
    split.
    + intros [[] | (y & Hy & <-)]. eauto.
    + intros (y & <- & Hy). right. eauto.
Qed.

Lemma distinct_length (l : list string) :
  (List.length (JS.distinct l) <= List.length l)%nat.
Proof.
  induction l as [| x l IH]; simpl; [lia |].
  pose proof (filter_length_le (fun y => negb (y =? x)%string) (JS.distinct l)). lia.
Qed.

Lemma setSize_range (l : list string) :
  l <> [] -> 1 <= JS.setSize l <= Aggregate.count l.
Proof.
  intros H. unfold JS.setSize, Aggregate.count.
  pose proof (distinct_length l). destruct l as [| x l]; [contradiction |].
  simpl in *. lia.
Qed.

Lemma members_range (A : Type) (who : A -> string) (l : list A) :
  l <> [] -> 1 <= JS.setSize (map who l) <= Aggregate.count l.
Proof.
  intros H. destruct (setSize_range (map who l)) as [H1 H2].
  - destruct l; [contradiction | discriminate].
  - unfold Aggregate.count in *. rewrite length_map in H2. lia.
Qed.

Section RankingFacts.
Context {A V R : Type}.
Variable key : A -> string.
Variable fresh : A -> V.
Variable step : A -> V -> V.
Variable cnt : V -> Z.
Variable row : string * V -> R.
Variable name : R -> string.
Variable rcnt : R -> Z.
Variable items : list A.
Hypothesis name_row :
  forall e,
    In e (fold_left (fun acc x => JS.upsert (key x) (fresh x) (step x) acc) items []) ->
    name (row e) = fst e.
Hypothesis rcnt_row : forall e, rcnt (row e) = cnt (snd e).
Hypothesis cnt_fresh : forall x, cnt (fresh x) = 0.
Hypothesis cnt_step : forall y v, cnt (step y v) = cnt v + 1.

Lemma ranked_entry (r : R) :
  In r (JS.sort (fun a b => rcnt b <=? rcnt a)
          (map row
             (fold_left (fun acc x => JS.upsert (key x) (fresh x) (step x) acc)
                        items []))) ->
  exists k v,
    r = row (k, v)
    /\ In (k, v)
          (fold_left (fun acc x => JS.upsert (key x) (fresh x) (step x) acc) items []).
Proof.
  intros H. apply sort_In, in_map_iff in H as ([k v] & <- & H). eauto.
Qed.

Lemma ranked_descending :
  StronglySorted (fun a b => rcnt b <= rcnt a)
    (JS.sort (fun a b => rcnt b <=? rcnt a)
       (map row
          (fold_left (fun acc x => JS.upsert (key x) (fresh x) (step x) acc)
                     items []))).
Proof.
  apply StronglySorted_weaken with (R := fun a b => (rcnt b <=? rcnt a) = true).
  - intros a b. apply Z.leb_le.
  - apply sort_sorted.
    + intros a b. rewrite !Z.leb_le. lia.
    + intros a b c. rewrite !Z.leb_le. lia.
Qed.

Lemma ranked_names :
  Permutation
    (map name
       (JS.sort (fun a b => rcnt b <=? rcnt a)
          (map row
             (fold_left (fun acc x => JS.upsert (key x) (fresh x) (step x) acc)
                        items []))))
    (map fst
       (fold_left (fun acc x => JS.upsert (key x) (fresh x) (step x) acc) items [])).
Proof.
  rewrite (sort_perm _ (map row _)). rewrite map_map.
  erewrite map_ext_in; [reflexivity |]. intros e He. now apply name_row.
Qed.

Lemma tallies_ranked :
  Terms.tallies name rcnt key items
    (JS.sort (fun a b => rcnt b <=? rcnt a)
       (map row
          (fold_left (fun acc x => JS.upsert (key x) (fresh x) (step x) acc)
                     items []))).
Proof.
  split; [| split; [| split; [| split]]].
  - eapply Permutation_NoDup; [symmetry; apply ranked_names |].
    apply groups_NoDup.
  - intros r Hr. apply ranked_entry in Hr as (k & v & -> & Hin).
    rewrite (name_row _ Hin), rcnt_row.
    apply groups_entry in Hin as (x & l & Hf & ->).
    cbn [fst snd]. rewrite Hf.
    rewrite (fold_measure step cnt (fun _ => 1) cnt_step), cnt_fresh, sumZ_ones.
    rewrite count_cons. unfold Aggregate.count. lia.
  - intros x Hx. eapply Permutation_in; [symmetry; apply ranked_names |].
    apply groups_keys. eauto.
  - rewrite (sumZ_perm _ (map rcnt (map row
               (fold_left (fun acc x => JS.upsert (key x) (fresh x) (step x) acc)
                          items [])))).
    + rewrite map_map. erewrite map_ext; [| intros e; apply rcnt_row].
      rewrite (groups_sum key fresh step cnt (fun _ => 1) cnt_fresh cnt_step).
      apply sumZ_ones.
    + apply Permutation_map, sort_perm.
  - apply ranked_descending.
Qed.

End RankingFacts.

(** ** The dashboards *)

Section DashboardFacts.
Import Store Dashboards Terms.

Lemma orElse_falsy (o : option string) (d : string) :
  JS.truthy o = false -> JS.orElse o d = d.
Proof.
  unfold JS.truthy, JS.orElse. destruct o as [x |]; [| reflexivity].
  destruct (x =? "")%string; [reflexivity | discriminate].
Qed.

(** A percentage of the dashboards lies between 0 and 100, and is the
    double nearest to a number of tenths that is within one half (and
    what the doubles lose) of a thousand times the share. *)
Lemma share_range (part total : Z) :
  0 <= part <= total ->
  (0 <= share part total)%Q /\ (share part total <= 100)%Q.
Proof.
  intros H. unfold share. destruct (Z.gtb_spec total 0) as [Hpos | _];
    [| split; discriminate].
  unfold Aggregate.quot. now apply permille_range.
Qed.

Lemma share_tenths (part total : Z) :
  0 <= part <= total -> 0 < total ->
  Terms.tenthsOf (share part total) (inject_Z part / inject_Z total)%Q.
Proof.
  intros H Hpos. unfold share, Terms.tenthsOf.
  destruct (Z.gtb_spec total 0) as [_ | Hn]; [| lia].
  eexists. split; [reflexivity |].
  unfold Aggregate.quot, JS.div.
  set (a := (inject_Z part / inject_Z total)%Q).
  assert (Ha : (0 <= a)%Q /\ (a <= 1)%Q).
  { assert (Ht : (0 < inject_Z total)%Q)
      by (change 0%Q with (inject_Z 0); now rewrite <- Zlt_Qlt).
    unfold a. split.
    - apply Qle_shift_div_l; [exact Ht |]. rewrite Qmult_0_l.
      change 0%Q with (inject_Z 0). rewrite <- Zle_Qle. lia.
    - apply Qle_shift_div_r; [exact Ht |]. rewrite Qmult_1_l.
      rewrite <- Zle_Qle. lia. }
  pose proof (toDouble_near a) as Hq.
  pose proof (permille_near a (JS.toDouble a) _ Hq) as Hn.
  rewrite (Qabs_pos a) in Hn by tauto.
  eapply Qle_trans; [exact Hn |]. unfold JS.ulpHalf, JS.tiny. lra.
Qed.

Lemma distribution_tallies (key : AnalyticsSession -> string) (total : Z)
    (ss : list AnalyticsSession) :
  tallies distName distCount key ss (toDistribution total (tally key ss)).
Proof.
  unfold toDistribution, tally.
  apply (tallies_ranked key (fun _ => 0) (fun _ n => n + 1) (fun n => n)
           (fun e => mkDistRow (fst e) (snd e) (share (snd e) total))
           distName distCount); intros; reflexivity.
Qed.

Lemma distribution_share (key : AnalyticsSession -> string) (ss : list AnalyticsSession)
    (r : DistRow) :
  In r (toDistribution (Aggregate.count ss) (tally key ss)) ->
  distPercentage r = share (distCount r) (Aggregate.count ss)
  /\ ((0 <= distPercentage r)%Q /\ (distPercentage r <= 100)%Q)
  /\ tenthsOf (distPercentage r)
              (inject_Z (distCount r) / inject_Z (Aggregate.count ss))%Q.
Proof.
  intros Hr.
  destruct (distribution_tallies key (Aggregate.count ss) ss) as (_ & Hc & _).
  destruct (Hc r Hr) as [Hcnt Hpos].
  assert (E : distPercentage r = share (distCount r) (Aggregate.count ss)).
  { unfold toDistribution in Hr. apply sort_In, in_map_iff in Hr as (e & <- & _).
    reflexivity. }
  assert (Hle : distCount r <= Aggregate.count ss)
    by (rewrite Hcnt; apply count_filter_le).
  split; [exact E |]. rewrite E.
  split; [apply share_range; lia | apply share_tenths; lia].
Qed.

(** X14: The device, browser and operating-system distributions each tally the
    sessions of the range: one row per value that occurs (a missing or
    empty value counted under unknown), with the number of sessions that
    have it, the counts adding up to the reported total, in descending
    order of count; and every percentage is the rounded share of the
    total and lies between 0 and 100. *)
Theorem devices_distributions (tz now : Z) (queryRange : option string)
    (st : Store.t) :
  let ss := sessionsOfRange tz now queryRange st in
  let d := getDevicesHandler tz now queryRange st in
  devicesTotal d = Aggregate.count ss
  /\ tallies distName distCount deviceOf ss (devices d)
  /\ tallies distName distCount browserOf ss (browsers d)
  /\ tallies distName distCount osOf ss (osList d)
  /\ (forall r, In r (devices d ++ browsers d ++ osList d) ->
        distPercentage r = share (distCount r) (devicesTotal d)
        /\ ((0 <= distPercentage r)%Q /\ (distPercentage r <= 100)%Q)
        /\ tenthsOf (distPercentage r)
                    (inject_Z (distCount r) / inject_Z (devicesTotal d))%Q)
  /\ (forall s, In s ss ->
        (JS.truthy (deviceType s) = false -> In "unknown" (map distName (devices d)))
        /\ (JS.truthy (browser s) = false -> In "Unknown" (map distName (browsers d)))
        /\ (JS.truthy (os s) = false -> In "Unknown" (map distName (osList d))))
  /\ share 23 80 = JS.toDouble (287 # 10).
Proof.
  intros ss d. subst d. unfold getDevicesHandler. cbv zeta. fold ss.
  cbn [devicesTotal devices browsers osList].
  pose proof (distribution_tallies deviceOf (Aggregate.count ss) ss) as Td.
  pose proof (distribution_tallies browserOf (Aggregate.count ss) ss) as Tb.
  pose proof (distribution_tallies osOf (Aggregate.count ss) ss) as To.
  split; [reflexivity |].
  split; [exact Td |]. split; [exact Tb |]. split; [exact To |].
  split; [| split; [| vm_compute; reflexivity]].
  - intros r Hr. apply in_app_or in Hr as [Hr | Hr];
      [| apply in_app_or in Hr as [Hr | Hr]]; eapply distribution_share; exact Hr.
  - intros s Hs.
    destruct Td as (_ & _ & Kd & _), Tb as (_ & _ & Kb & _), To as (_ & _ & Ko & _).
    specialize (Kd s Hs). specialize (Kb s Hs). specialize (Ko s Hs).
    unfold deviceOf in Kd. unfold browserOf in Kb. unfold osOf in Ko.
    split; [| split]; intros Hf.
    + now rewrite (orElse_falsy _ _ Hf) in Kd.
    + now rewrite (orElse_falsy _ _ Hf) in Kb.
    + now rewrite (orElse_falsy _ _ Hf) in Ko.
Qed.

Lemma fold_left_filter (A B : Type) (p : A -> bool) (g : B -> A -> B) (l : list A)
    (b : B) :
  fold_left (fun acc x => if p x then g acc x else acc) l b
  = fold_left g (filter p l) b.
Proof.
  revert b. induction l as [| x l IH]; intros b; cbn [fold_left filter]; [reflexivity |].
  destruct (p x); cbn [fold_left]; apply IH.
Qed.

Lemma firstn_slice (A : Type) (n : Z) (l : list A) :
  0 <= n -> JS.slice0 (Some n) l = firstn (Z.to_nat n) l.
Proof.
  intros H. unfold JS.slice0. destruct (Z.ltb_spec n 0); [lia | reflexivity].
Qed.

Lemma source_tallies (key : AnalyticsSession -> string) (total : Z)
    (ss : list AnalyticsSession) :
  tallies srcName srcSessions key ss
    (rankedSources total
       (fold_left (fun m s => JS.upsert (key s) (mkSourceAgg 0 []) (addToSource s) m)
                  ss [])).
Proof.
  unfold rankedSources.
  apply (tallies_ranked key (fun _ => mkSourceAgg 0 []) addToSource srcCount
           (sourceRow total) srcName srcSessions); intros; reflexivity.
Qed.

(** The visitors and the percentage of a row of a source ranking. *)
Lemma source_row (key : AnalyticsSession -> string) (ss : list AnalyticsSession)
    (r : SourceRow) :
  In r (rankedSources (Aggregate.count ss)
          (fold_left (fun m s => JS.upsert (key s) (mkSourceAgg 0 []) (addToSource s) m)
                     ss [])) ->
  (exists s, In s ss /\ key s = srcName r)
  /\ srcRowVisitors r = Aggregate.count (visitorsOf key ss (srcName r))
  /\ 1 <= srcRowVisitors r <= srcSessions r
  /\ srcPercentage r = share (srcSessions r) (Aggregate.count ss)
  /\ ((0 <= srcPercentage r)%Q /\ (srcPercentage r <= 100)%Q)
  /\ tenthsOf (srcPercentage r)
              (inject_Z (srcSessions r) / inject_Z (Aggregate.count ss))%Q.
Proof.
  intros Hr.
  destruct (source_tallies key (Aggregate.count ss) ss) as (_ & Hc & _).
  destruct (Hc r Hr) as [Hcnt Hpos].
  unfold rankedSources in Hr.
  apply (ranked_entry key (fun _ => mkSourceAgg 0 []) addToSource
           (sourceRow (Aggregate.count ss)) srcSessions) in Hr as (k & v & -> & Hin).
  cbn [srcName srcSessions srcRowVisitors srcPercentage sourceRow fst snd] in *.
  assert (Hle : srcCount v <= Aggregate.count ss)
    by (rewrite Hcnt; apply count_filter_le).
  pose proof (in_map fst _ _ Hin) as Hk. cbn [fst] in Hk.
  apply (groups_keys key (fun _ => mkSourceAgg 0 []) addToSource) in Hk.
  apply groups_entry in Hin as (x & l & Hf & ->).
  rewrite (fold_members addToSource srcVisitors visitorId (fun _ _ => eq_refl)).
  cbn [srcVisitors]. rewrite members_size. unfold visitorsOf. rewrite Hf.
  split; [exact Hk |]. split; [reflexivity |].
  split.
  - rewrite Hcnt, Hf. apply members_range. discriminate.
  - split; [reflexivity |].
    split; [apply share_range; lia | apply share_tenths; lia].
Qed.

(** X15: The traffic sources of the referrer view tally the sessions of the
    range by category: one row for each of the seven categories that
    occurs, with its number of sessions, the counts adding up to the
    number of sessions, in descending order; a row reports the distinct
    visitors of its sessions, never more than its sessions, and the
    rounded share of all sessions as its percentage. *)
Theorem referrer_sources (lowerOther : string -> string -> string -> string)
    (tz now : Z) (queryRange : option string) (st : Store.t) :
  let ss := sessionsOfRange tz now queryRange st in
  let sourceOf := fun s =>
    Traffic.categorizeTrafficSource lowerOther (referrerDomain s) (utmSource s) in
  let sources := fst (getReferrersHandler tz lowerOther now queryRange st) in
  tallies srcName srcSessions sourceOf ss sources
  /\ (forall r, In r sources ->
        In (srcName r) (utmCategories ++ referrerCategories)
        /\ srcRowVisitors r = Aggregate.count (visitorsOf sourceOf ss (srcName r))
        /\ 1 <= srcRowVisitors r <= srcSessions r
        /\ srcPercentage r = share (srcSessions r) (Aggregate.count ss)
        /\ ((0 <= srcPercentage r)%Q /\ (srcPercentage r <= 100)%Q)
        /\ tenthsOf (srcPercentage r)
                    (inject_Z (srcSessions r) / inject_Z (Aggregate.count ss))%Q).
Proof.
  intros ss sourceOf sources. subst sources. unfold getReferrersHandler. cbv zeta.
  fold ss. cbn [fst]. unfold sourceMap.
  change (Dashboards.sourceOf lowerOther) with sourceOf.
  split; [apply source_tallies |].
  intros r Hr. destruct (source_row sourceOf ss r Hr) as ((s & _ & Hs) & Hrest).
  split; [| exact Hrest].
  rewrite <- Hs. unfold sourceOf, Traffic.categorizeTrafficSource.
  apply in_or_app. destruct (JS.truthy (utmSource s)).
  - left. apply categorizeUtm_range.
  - right. apply categorizeReferrer_range.
Qed.

(** X16: The referrers of the referrer view are the first 20 rows of the
    ranking of the raw referrer domains: sessions without a referrer
    domain are left out, every other session is counted under its
    domain, the rows are in descending order of sessions, and the
    percentage of a row is its share of all sessions of the range, with
    or without a referrer. *)
Theorem referrer_domains (lowerOther : string -> string -> string -> string)
    (tz now : Z) (queryRange : option string) (st : Store.t) :
  let ss := sessionsOfRange tz now queryRange st in
  let domainOf := fun s => JS.orElse (referrerDomain s) "" in
  let referred := filter (fun s => JS.truthy (referrerDomain s)) ss in
  let ranking := rankedSources (Aggregate.count ss) (referrerMap ss) in
  let rows := snd (getReferrersHandler tz lowerOther now queryRange st) in
  rows = firstn 20 ranking
  /\ (List.length rows <= 20)%nat
  /\ tallies srcName srcSessions domainOf referred ranking
  /\ (forall r, In r ranking ->
        srcName r <> ""
        /\ (exists s, In s ss /\ referrerDomain s = Some (srcName r))
        /\ srcRowVisitors r = Aggregate.count (visitorsOf domainOf referred (srcName r))
        /\ 1 <= srcRowVisitors r <= srcSessions r
        /\ srcPercentage r = share (srcSessions r) (Aggregate.count ss)
        /\ ((0 <= srcPercentage r)%Q /\ (srcPercentage r <= 100)%Q)
        /\ tenthsOf (srcPercentage r)
                    (inject_Z (srcSessions r) / inject_Z (Aggregate.count ss))%Q)
  /\ StronglySorted (fun a b => srcSessions b <= srcSessions a) rows.
Proof.
  intros ss domainOf referred ranking rows.
  assert (Hmap : referrerMap ss
                 = fold_left (fun m s => JS.upsert (domainOf s) (mkSourceAgg 0 [])
                                                   (addToSource s) m)
                             referred []).
  { unfold referrerMap, referred. apply fold_left_filter. }
  assert (Hrows : rows = firstn 20 ranking).
  { subst rows ranking. unfold getReferrersHandler. cbv zeta. fold ss. cbn [snd].
    now rewrite firstn_slice by lia. }
  pose proof (source_tallies domainOf (Aggregate.count ss) referred) as T.
  rewrite <- Hmap in T. fold ranking in T.
  split; [exact Hrows |].
  split; [rewrite Hrows; apply firstn_le_length |].
  split; [exact T |].
  split.
  - intros r Hr.
    destruct T as (_ & Hc & _). destruct (Hc r Hr) as [Hcnt Hpos].
    subst ranking. rewrite Hmap in Hr. unfold rankedSources in Hr.
    apply (ranked_entry domainOf (fun _ => mkSourceAgg 0 []) addToSource
             (sourceRow (Aggregate.count ss)) srcSessions) in Hr as (k & v & -> & Hin).
    cbn [srcName srcSessions srcRowVisitors srcPercentage sourceRow fst snd] in *.
    assert (Hle : srcCount v <= Aggregate.count ss).
    { rewrite Hcnt. etransitivity; [apply count_filter_le |]. apply count_filter_le. }
    pose proof (in_map fst _ _ Hin) as Hk. cbn [fst] in Hk.
    apply (groups_keys domainOf (fun _ => mkSourceAgg 0 []) addToSource) in Hk
      as (s & Hs & Hks).
    apply filter_In in Hs as [Hs Ht].
    assert (Hdom : referrerDomain s = Some k /\ k <> "").
    { subst domainOf. cbv beta in Hks. unfold JS.truthy, JS.orElse in *.
      destruct (referrerDomain s) as [d |]; [| discriminate].
      destruct (String.eqb_spec d ""); [discriminate |]. subst. now split. }
    apply groups_entry in Hin as (x & l & Hf & ->).
    rewrite (fold_members addToSource srcVisitors visitorId (fun _ _ => eq_refl)).
    cbn [srcVisitors]. rewrite members_size. unfold visitorsOf. rewrite Hf.
    split; [apply Hdom |]. split; [exists s; split; [exact Hs | apply Hdom] |].
    split; [reflexivity |].
    split; [rewrite Hcnt, Hf; apply members_range; discriminate |].
    split; [reflexivity |].
    split; [apply share_range; lia | apply share_tenths; lia].
  - rewrite Hrows. apply firstn_sorted. apply T.
Qed.

Lemma addToCountry_cities (l : list AnalyticsSession) (c : CountryAgg) :
  coCities (fold_left (fun a y => addToCountry y a) l c)
  = fold_left (fun m s =>
                 if JS.truthy (city s)
                 then JS.upsert (JS.orElse (city s) "") (mkCityAgg 0 [])
                        (fun ci => mkCityAgg (ciSessions ci + 1)
                                             (JS.setAdd (visitorId s) (ciVisitors ci)))
                        m
                 else m)
              l (coCities c).
Proof.
  revert c. induction l as [| y l IH]; intros c; cbn [fold_left]; [reflexivity |].
  now rewrite IH.
Qed.

(** What the loop of the geography view leaves under a country code. *)
Lemma country_entry (ss : list AnalyticsSession) (k : string) (c : CountryAgg) :
  In (k, c) (countryMap ss) ->
  exists first rest,
    filter (fun s => (JS.orElse (countryCode s) "XX" =? k)%string) ss = first :: rest
    /\ coCountryCode c = k
    /\ coCountry c = JS.orElse (country first) "Unknown"
    /\ coSessions c = Aggregate.count (first :: rest)
    /\ coTotalDuration c = Aggregate.sumZ (map duration (first :: rest))
    /\ Aggregate.count (coVisitors c) = JS.setSize (map visitorId (first :: rest))
    /\ coCities c
       = fold_left (fun m s => JS.upsert (JS.orElse (city s) "") (mkCityAgg 0 [])
                                 (fun ci => mkCityAgg (ciSessions ci + 1)
                                              (JS.setAdd (visitorId s) (ciVisitors ci)))
                                 m)
                   (filter (fun s => JS.truthy (city s)) (first :: rest)) [].
Proof.
  intros H. unfold countryMap in H.
  apply (groups_entry (fun s => JS.orElse (countryCode s) "XX") newCountry addToCountry)
    in H as (x & l & Hf & ->).
  exists x, l. split; [exact Hf |].
  assert (Hx : In x (filter (fun s => (JS.orElse (countryCode s) "XX" =? k)%string) ss)).
  { rewrite Hf. now left. }
  apply filter_In in Hx as [_ Hx]. apply String.eqb_eq in Hx.
  split.
  { rewrite (fold_keeps addToCountry _ coCountryCode (fun _ _ => eq_refl)). exact Hx. }
  split.
  { now rewrite (fold_keeps addToCountry _ coCountry (fun _ _ => eq_refl)). }
  split.
  { rewrite (fold_measure addToCountry coSessions (fun _ => 1) (fun _ _ => eq_refl)).
    rewrite sumZ_ones. cbn [coSessions newCountry]. lia. }
  split.
  { rewrite (fold_measure addToCountry coTotalDuration duration (fun _ _ => eq_refl)).
    cbn [coTotalDuration newCountry]. lia. }
  split.
  { rewrite (fold_members addToCountry coVisitors visitorId (fun _ _ => eq_refl)).
    cbn [coVisitors newCountry]. apply members_size. }
  rewrite addToCountry_cities. cbn [coCities newCountry].
  apply (fold_left_filter _ _ (fun s => JS.truthy (city s))
           (fun m s => JS.upsert (JS.orElse (city s) "") (mkCityAgg 0 [])
                         (fun ci => mkCityAgg (ciSessions ci + 1)
                                      (JS.setAdd (visitorId s) (ciVisitors ci))) m)).
Qed.

(** X17: The geography view ranks the countries of the sessions of the range
    and keeps the first 50: one row per country code that occurs (a
    missing or empty code counted under XX), with its number of
    sessions, the counts adding up to the number of sessions, in
    descending order.  A row takes its country name from the first
    session with its code, reports the distinct visitors of its sessions
    and the rounded mean of their durations, and lists at most five
    cities, the first of the ranking of the cities named by its
    sessions. *)
Theorem geo_countries (tz now : Z) (queryRange : option string) (st : Store.t) :
  let ss := sessionsOfRange tz now queryRange st in
  let codeOf := fun s => JS.orElse (countryCode s) "XX" in
  let cityOf := fun s => JS.orElse (city s) "" in
  let ranking := rankedCountries ss in
  let rows := getGeoHandler tz now queryRange st in
  rows = firstn 50 ranking
  /\ (List.length rows <= 50)%nat
  /\ tallies rowCountryCode rowSessions codeOf ss ranking
  /\ StronglySorted (fun a b => rowSessions b <= rowSessions a) rows
  /\ (forall r, In r ranking ->
        exists first rest cities,
          filter (fun s => (codeOf s =? rowCountryCode r)%string) ss = first :: rest
          /\ rowCountry r = JS.orElse (country first) "Unknown"
          /\ rowVisitors r = Aggregate.count (visitorsOf codeOf ss (rowCountryCode r))
          /\ 1 <= rowVisitors r <= rowSessions r
          /\ rowAvgDuration r
             = JS.round (Aggregate.quot (Aggregate.sumZ (map duration (first :: rest)))
                                        (Aggregate.count (first :: rest)))
          /\ rowPercentage r = share (rowSessions r) (Aggregate.count ss)
          /\ ((0 <= rowPercentage r)%Q /\ (rowPercentage r <= 100)%Q)
          /\ tenthsOf (rowPercentage r)
                      (inject_Z (rowSessions r) / inject_Z (Aggregate.count ss))%Q
          /\ rowTopCities r = firstn 5 cities
          /\ tallies cityName citySessions cityOf
                     (filter (fun s => JS.truthy (city s)) (first :: rest)) cities).
Proof.
  intros ss codeOf cityOf ranking rows.
  assert (T : tallies rowCountryCode rowSessions codeOf ss ranking).
  { subst ranking. unfold rankedCountries, countryMap.
    apply (tallies_ranked codeOf newCountry addToCountry coSessions
             (fun e => countryRow (Aggregate.count ss) (snd e))
             rowCountryCode rowSessions); try (intros; reflexivity).
    intros [k c] He. apply country_entry in He as (x & l & _ & Hk & _).
    exact Hk. }
  assert (Hrows : rows = firstn 50 ranking).
  { subst rows ranking. unfold getGeoHandler. fold ss. now rewrite firstn_slice by lia. }
  split; [exact Hrows |].
  split; [rewrite Hrows; apply firstn_le_length |].
  split; [exact T |].
  split; [rewrite Hrows; apply firstn_sorted; apply T |].
  intros r Hr.
  destruct T as (_ & Hc & _). destruct (Hc r Hr) as [Hcnt Hpos].
  subst ranking. unfold rankedCountries in Hr.
  apply sort_In, in_map_iff in Hr as ([k c] & <- & Hin).
  cbn [snd countryRow rowCountry rowCountryCode rowVisitors rowSessions rowPercentage
       rowAvgDuration rowTopCities] in *.
  assert (Hbound : coSessions c <= Aggregate.count ss)
    by (rewrite Hcnt; apply count_filter_le).
  apply country_entry in Hin as (x & l & Hf & Hk & Hn & Hs & Hd & Hv & Hci).
  exists x, l.
  exists (JS.sort (fun a b => citySessions b <=? citySessions a)
                  (map cityRow (coCities c))).
  subst codeOf. cbv beta. rewrite Hk.
  split; [exact Hf |]. split; [exact Hn |].
  split; [rewrite Hv; unfold visitorsOf; now rewrite Hf |].
  split; [rewrite Hv, Hs; apply members_range; discriminate |].
  split.
  { rewrite Hs, Hd. destruct (Z.gtb_spec (Aggregate.count (x :: l)) 0) as [_ | Hle];
      [reflexivity |]. rewrite count_cons in Hle. unfold Aggregate.count in Hle. lia. }
  split; [reflexivity |].
  split; [apply share_range; lia |].
  split; [apply share_tenths; lia |].
  split; [unfold topCities; now rewrite firstn_slice by lia |].
  rewrite Hci.
  apply (tallies_ranked cityOf (fun _ => mkCityAgg 0 [])
           (fun s ci => mkCityAgg (ciSessions ci + 1)
                                  (JS.setAdd (visitorId s) (ciVisitors ci)))
           ciSessions cityRow cityName citySessions); intros; reflexivity.
Qed.

Lemma sumZ_firstn (n : nat) (l : list Z) :
  Forall (fun x => 0 <= x) l -> Aggregate.sumZ (firstn n l) <= Aggregate.sumZ l.
Proof.
  intros H. revert n. induction H as [| x l Hx Hl IH]; intros [| n]; cbn [firstn];
    rewrite ?sumZ_cons; try reflexivity.
  - change (Aggregate.sumZ []) with 0.
    assert (0 <= Aggregate.sumZ l) by (specialize (IH 0%nat); exact IH). lia.
  - specialize (IH n). lia.
Qed.

(** X18: The realtime view counts the sessions whose last activity is no more
    than five minutes before now, never more distinct visitors than
    sessions and at least one when there is a session, and lists the
    first ten rows of the tally of these sessions by exit page (a
    session without one counted under the root path), whose counts add
    up to no more than the number of active sessions. *)
Theorem realtime_activity (now : Z) (st : Store.t) :
  let active := activeSessionsAt now st in
  let d := getRealtimeHandler now st in
  (forall s, In s active <-> In s (sessions st) /\ now - lastActiveAt s <= 300000)
  /\ activeSessions d = Aggregate.count active
  /\ activeVisitors d <= activeSessions d
  /\ (active <> [] -> 1 <= activeVisitors d)
  /\ activePages d = firstn 10 (rankedActivePages active)
  /\ tallies apPage apCount pageOf active (rankedActivePages active)
  /\ Aggregate.sumZ (map apCount (activePages d)) <= activeSessions d
  /\ (forall s, In s active -> JS.truthy (exitPage s) = false ->
                In "/" (map apPage (rankedActivePages active))).
Proof.
  intros active d.
  assert (T : tallies apPage apCount pageOf active (rankedActivePages active)).
  { unfold rankedActivePages, tally.
    apply (tallies_ranked pageOf (fun _ => 0) (fun _ n => n + 1) (fun n => n)
             (fun e => mkActivePage (fst e) (snd e)) apPage apCount);
      intros; reflexivity. }
  assert (Hpages : activePages d = firstn 10 (rankedActivePages active)).
  { subst d. unfold getRealtimeHandler. cbv zeta. fold active. cbn [activePages].
    now rewrite firstn_slice by lia. }
  split.
  { intros s. subst active. unfold activeSessionsAt. rewrite filter_In, Z.leb_le.
    split; intros [H1 H2]; (split; [exact H1 | lia]). }
  split; [reflexivity |].
  split.
  { subst d. unfold getRealtimeHandler. cbv zeta. fold active.
    cbn [activeVisitors activeSessions]. unfold JS.setSize, Aggregate.count.
    pose proof (distinct_length (map visitorId active)) as H.
    rewrite length_map in H. lia. }
  split.
  { intros Hne. subst d. unfold getRealtimeHandler. cbv zeta. fold active.
    cbn [activeVisitors]. now apply members_range. }
  split; [exact Hpages |].
  split; [exact T |].
  split.
  { rewrite Hpages. destruct T as (_ & Hc & _ & Hsum & _).
    change (activeSessions d) with (Aggregate.count active). rewrite <- Hsum.
    rewrite <- firstn_map. apply sumZ_firstn.
    apply Forall_forall. intros n Hn. apply in_map_iff in Hn as (r & <- & Hr).
    destruct (Hc r Hr). lia. }
  intros s Hs Hf. destruct T as (_ & _ & Hk & _).
  specialize (Hk s Hs). unfold pageOf in Hk. now rewrite (orElse_falsy _ _ Hf) in Hk.
Qed.

(** X19: Activity shows in the realtime view: a session that has just sent a
    heartbeat, or that [collect] has just found open, is among the
    active sessions of every instant up to five minutes later, and after
    [collect] its page is the path of the request. *)
Theorem activity_shows_in_realtime (urlHostname : string -> option string)
    (ipapi : string -> option Ingest.GeoData) (rt : Ingest.Runtime) (later : Z)
    (st : Store.t) :
  later - 300000 <= Ingest.now rt ->
  (forall b s,
      In s (sessions st) -> id s = Ingest.hSessionId b ->
      exists s', In s' (activeSessionsAt later (snd (Ingest.heartbeatHandler rt b st)))
                 /\ id s' = id s /\ visitorId s' = visitorId s
                 /\ exitPage s' = exitPage s)
  /\ (forall request,
        Spec.openSession rt (Ingest.body request) st ->
        exists s', In s' (activeSessionsAt later
                            (snd (Ingest.collectHandler urlHostname ipapi rt request st)))
                   /\ Ingest.bSessionId (Ingest.body request) = Some (id s')
                   /\ visitorId s' = Ingest.bVisitorId (Ingest.body request)
                   /\ exitPage s' = Some (Ingest.bPath (Ingest.body request))).
Proof.
  intros Hlater. split.
  - intros b s Hin Hid.
    destruct (heartbeat_cases rt b st) as [[Hnone _] | (s0 & _ & E)].
    { exfalso. apply Hnone. rewrite <- Hid. now apply in_map. }
    rewrite E. cbn [snd].
    exists (Ingest.heartbeatUpdate rt
              (JS.floorDiv (Ingest.now rt - startedAt s0) 1000) s).
    split; [| now repeat split].
    unfold activeSessionsAt. cbn [sessions]. apply filter_In. split.
    + apply in_map_iff. exists s. now rewrite Hid, String.eqb_refl.
    + cbn [lastActiveAt Ingest.heartbeatUpdate]. apply Z.leb_le. lia.
  - intros request Hopen.
    apply openSession_find in Hopen as (Ht & s0 & Hf0).
    pose proof (collect_cases urlHostname ipapi rt request st) as H. cbv zeta in H.
    destruct H as [(s & _ & Hf & Hcase) | [[Hno | Hno] _]];
      [| congruence | congruence].
    pose proof (find_some _ _ Hf) as [Hin Hcand].
    apply (candidateFilter_true rt (Ingest.body request) s Ht) in Hcand
      as (Hc1 & Hc2 & Hc3).
    exists (Ingest.collectUpdate rt (Ingest.body request) s).
    split; [| now repeat split].
    unfold activeSessionsAt. apply filter_In. split.
    + destruct Hcase as [[_ E] | [_ E]]; rewrite E; cbn [snd sessions];
        apply in_map_iff; exists s; now rewrite String.eqb_refl.
    + cbn [lastActiveAt Ingest.collectUpdate]. apply Z.leb_le. lia.
Qed.

End DashboardFacts.


(** ** Conservation of views *)

Section ViewFacts.
Import Store Aggregate Spec.
Variable tz : Z.

Lemma length_le_sum (l : list Z) :
  Forall (fun x => 1 <= x) l -> Z.of_nat (List.length l) <= sumZ l.
Proof.
  intros H. induction H as [| x l Hx Hl IH]; [reflexivity |].
  rewrite sumZ_cons. cbn [List.length]. lia.
Qed.

Lemma last_cons (A : Type) (a d : A) (l : list A) : last (a :: l) d = last l a.
Proof.
  revert a d. induction l as [| b l IH]; intros a d; [reflexivity |].
  change (last (a :: b :: l) d) with (last (b :: l) d). now rewrite !IH.
Qed.

Lemma title_fold (l : list PageView) (a : PageAgg) :
  aTitle (fold_left (fun acc v => addView v acc) l a)
  = last (map (fun v => JS.orElse (title v) "")
              (filter (fun v => JS.truthy (title v)) l))
         (aTitle a).
Proof.
  revert a. induction l as [| y l IH]; intros a; cbn [fold_left filter]; [reflexivity |].
  rewrite IH. cbn [aTitle addView].
  destruct (JS.truthy (title y)); [| reflexivity].
  cbn [map]. now rewrite last_cons.
Qed.

(** X20: No view is lost or counted twice in the time series: the views of
    the points add up to the number of views of the range; a point has
    at least one visitor and no more visitors than views; and there are
    no more points than views. *)
Theorem series_conserves_views (now : Z) (queryRange : option string) (st : Store.t) :
  let since := fst (seriesWindow tz now (JS.orElse queryRange "7d")) in
  let vs := pageViewsSince since st in
  let series := fst (getTimeSeriesHandler tz now queryRange st) in
  sumZ (map views series) = count vs
  /\ (forall pt, In pt series -> 1 <= visitors pt <= views pt)
  /\ Z.of_nat (List.length series) <= count vs.
Proof.
  intros since vs series.
  assert (Hpt : forall pt, In pt series -> 1 <= visitors pt <= views pt).
  { intros pt Hin. pose proof (series_point tz now queryRange st pt Hin) as H.
    cbv zeta in H. destruct H as (Hv & Hone & Hvis).
    set (l := bucketViews tz _ _ (time pt)) in *.
    rewrite Hvis, Hv. split.
    - apply distinct_nonempty. intros E. apply (f_equal (@List.length _)) in E.
      rewrite length_map in E. rewrite Hv in Hone. unfold count in Hone.
      simpl in E. lia.
    - unfold count. pose proof (distinct_length (map sessionId l)) as H.
      rewrite length_map in H. lia. }
  assert (Hsum : sumZ (map views series) = count vs).
  { subst series vs since. unfold getTimeSeriesHandler. cbv zeta.
    destruct (seriesWindow tz now (JS.orElse queryRange "7d")) as [since g].
    cbn [fst].
    rewrite (sumZ_perm _ (map views
               (map (fun kb => mkPoint (fst kb) (bViews (snd kb))
                                       (count (bSessions (snd kb))))
                    (bucketsOf tz g (seriesRows since st)))))
      by apply Permutation_map, sort_perm.
    rewrite map_map. cbn [views]. unfold bucketsOf, addToBucket.
    pose proof (groups_sum (fun pv => bucketKey tz g (timestamp pv))
                  (fun _ => mkBucket 0 [])
                  (fun pv b => mkBucket (bViews b + 1)
                                        (JS.setAdd (sessionId pv) (bSessions b)))
                  bViews (fun _ => 1) (fun _ => eq_refl) (fun _ _ => eq_refl)
                  (seriesRows since st)) as G.
    cbv beta in G. rewrite G, sumZ_ones. unfold seriesRows, count. f_equal.
    apply Permutation_length, sort_perm. }
  split; [exact Hsum |]. split; [exact Hpt |].
  rewrite <- Hsum. rewrite <- (length_map views). apply length_le_sum.
  apply Forall_forall. intros n Hn. apply in_map_iff in Hn as (pt & <- & Hin).
  destruct (Hpt pt Hin). lia.
Qed.

(** X21: No view is lost or counted twice in the ranking of the top pages
    either: the views of its rows add up to the number of views of the
    range, a row has no more distinct visitors than views, and its title
    is the title of the last of its views that has one, or else its
    path. *)
Theorem top_pages_conserve_views (now : Z) (queryRange : option string)
    (st : Store.t) :
  let vs := pageViewsSince (pagesSince tz now (JS.orElse queryRange "7d")) st in
  let ranked := rankedPages vs in
  sumZ (map rViews ranked) = count vs
  /\ (forall r, In r ranked ->
        1 <= rUniqueVisitors r <= rViews r
        /\ rTitle r
           = last (map (fun v => JS.orElse (title v) "")
                       (filter (fun v => JS.truthy (title v))
                               (viewsOfPath vs (rPath r))))
                  (rPath r)).
Proof.
  intros vs ranked. split.
  - subst ranked. unfold rankedPages.
    rewrite (sumZ_perm _ (map rViews (map (pageRow vs) (pageMap vs))))
      by apply Permutation_map, sort_perm.
    rewrite map_map.
    rewrite (map_ext _ (fun e => aViews (snd e))) by (intros [p a]; reflexivity).
    unfold pageMap, addToPage.
    pose proof (groups_sum path emptyAgg addView aViews (fun _ => 1)
                  (fun _ => eq_refl) (fun _ _ => eq_refl) vs) as G.
    cbv beta in G. rewrite G. apply sumZ_ones.
  - intros r Hr. destruct (ranked_row vs r Hr) as (agg & Hin & Er).
    destruct (pageRow_spec vs (rPath r) agg Hin) as (_ & Hv & _ & Hu & Hone & _).
    cbv zeta in *. rewrite <- Er in Hv, Hu, Hone.
    split.
    + split; [exact Hone |]. rewrite Hu, Hv. unfold sessionsOfPath, count.
      pose proof (distinct_length (map sessionId (viewsOfPath vs (rPath r)))) as H.
      rewrite length_map in H. lia.
    + destruct (pageMap_entry vs (rPath r) agg Hin) as (x & l & Ev & Ea).
      rewrite Er at 1. cbn [rTitle pageRow]. rewrite Ea, title_fold, Ev.
      assert (Hx : path x = rPath r).
      { assert (Hx : In x (viewsOfPath vs (rPath r))) by (rewrite Ev; now left).
        apply filter_In in Hx as [_ Hx]. now apply String.eqb_eq in Hx. }
      cbn [filter aTitle emptyAgg]. destruct (JS.truthy (title x)) eqn:Et.
      * cbn [map]. now rewrite !last_cons.
      * now rewrite (orElse_falsy _ _ Et), Hx.
Qed.

Lemma gtQ_inject (n : Z) : gtQ (inject_Z n) 0 = (0 <? n).
Proof.
  unfold gtQ, Qle_bool, inject_Z. cbn [Qnum Qden]. rewrite Z.mul_1_r.
  change (0 * 1) with 0. now rewrite Z.ltb_antisym.
Qed.

(** X22: The summary of all time has no previous period: every change is 100
    when the current figure is positive and 0 otherwise, so that the
    sessions and the visitors show a change of 100 as soon as there is a
    session, and every change is 0 when there is none. *)
Theorem stats_of_all_time (now : Z) (st : Store.t) :
  let cur := sessionsSince 0 st in
  let curViews := count (pageViewsSince 0 st) in
  let data := getStatsHandler tz now (Some "all") st in
  let jumps key (curr : Q) :=
    property key data = Some (JNum (if gtQ curr 0 then 100 else 0)%Q) in
  property "sessions" data = Some (JNum (inject_Z (count cur)))
  /\ property "pageViews" data = Some (JNum (inject_Z curViews))
  /\ jumps "visitorsChange" (inject_Z (uniqueVisitors cur))
  /\ jumps "sessionsChange" (inject_Z (count cur))
  /\ jumps "pageViewsChange" (inject_Z curViews)
  /\ jumps "avgDurationChange" (inject_Z (avgDuration cur))
  /\ jumps "bounceRateChange" (bounceRate cur)
  /\ (cur <> [] ->
      property "sessionsChange" data = Some (JNum 100)
      /\ property "visitorsChange" data = Some (JNum 100))
  /\ (cur = [] ->
      forall key, In key ["visitorsChange"; "sessionsChange"; "avgDurationChange";
                          "bounceRateChange"] ->
                  property key data = Some (JNum 0)).
Proof.
  intros cur curViews data jumps.
  assert (J1 : jumps "visitorsChange" (inject_Z (uniqueVisitors cur))) by reflexivity.
  assert (J2 : jumps "sessionsChange" (inject_Z (count cur))) by reflexivity.
  assert (J3 : jumps "pageViewsChange" (inject_Z curViews)) by reflexivity.
  assert (J4 : jumps "avgDurationChange" (inject_Z (avgDuration cur))) by reflexivity.
  assert (J5 : jumps "bounceRateChange" (bounceRate cur)) by reflexivity.
  split; [reflexivity |]. split; [reflexivity |].
  split; [exact J1 |]. split; [exact J2 |]. split; [exact J3 |].
  split; [exact J4 |]. split; [exact J5 |].
  subst jumps. cbv beta in *. split.
  - intros Hne. rewrite J1, J2, !gtQ_inject.
    assert (H1 : 1 <= count cur).
    { destruct cur; [contradiction |]. rewrite count_cons. unfold count. lia. }
    assert (H2 : 1 <= uniqueVisitors cur).
    { unfold uniqueVisitors. apply members_range. exact Hne. }
    destruct (Z.ltb_spec 0 (count cur)); [| lia].
    destruct (Z.ltb_spec 0 (uniqueVisitors cur)); [| lia]. now split.
  - intros Hnil key Hkey. rewrite Hnil in J1, J2, J4, J5.
    simpl in Hkey. destruct Hkey as [<- | [<- | [<- | [<- | []]]]]; assumption.
Qed.

(** X23: A range that is none of today, 30d and all is read as seven days by
    every view; the summary is the one of seven days in every figure,
    and gives back the range as it was asked. *)
Theorem unknown_range_is_seven_days
    (lowerOther : string -> string -> string -> string)
    (now : Z) (queryRange : option string) (st : Store.t) :
  ~ In (JS.orElse queryRange "7d") ["today"; "30d"; "all"] ->
  getTimeSeriesHandler tz now queryRange st = getTimeSeriesHandler tz now None st
  /\ (forall limit, getTopPagesHandler tz now queryRange limit st
                    = getTopPagesHandler tz now None limit st)
  /\ Dashboards.getGeoHandler tz now queryRange st = Dashboards.getGeoHandler tz now None st
  /\ Dashboards.getDevicesHandler tz now queryRange st
     = Dashboards.getDevicesHandler tz now None st
  /\ Dashboards.getReferrersHandler tz lowerOther now queryRange st
     = Dashboards.getReferrersHandler tz lowerOther now None st
  /\ (forall key, key <> "range" ->
                  property key (getStatsHandler tz now queryRange st)
                  = property key (getStatsHandler tz now None st))
  /\ property "range" (getStatsHandler tz now queryRange st)
     = Some (JStr (JS.orElse queryRange "7d"))
  /\ fst (seriesWindow tz now (JS.orElse queryRange "7d")) = now - 7 * 86400000.
Proof.
  intros Hr. set (r := JS.orElse queryRange "7d") in *.
  assert (H1 : (r =? "today")%string = false).
  { apply String.eqb_neq. intros E. apply Hr. rewrite E. simpl. tauto. }
  assert (H2 : (r =? "30d")%string = false).
  { apply String.eqb_neq. intros E. apply Hr. rewrite E. simpl. tauto. }
  assert (H3 : (r =? "all")%string = false).
  { apply String.eqb_neq. intros E. apply Hr. rewrite E. simpl. tauto. }
  assert (Ws : seriesWindow tz now r = seriesWindow tz now "7d").
  { unfold seriesWindow. now rewrite H1, H2, H3. }
  assert (Wp : pagesSince tz now r = pagesSince tz now "7d").
  { unfold pagesSince. now rewrite H1, H2, H3. }
  assert (Wt : statsWindow tz now r = statsWindow tz now "7d").
  { unfold statsWindow. now rewrite H1, H2, H3. }
  split.
  { unfold getTimeSeriesHandler. cbv zeta. fold r.
    change (JS.orElse None "7d") with "7d". now rewrite Ws. }
  split.
  { intros limit. unfold getTopPagesHandler. cbv zeta. fold r.
    change (JS.orElse None "7d") with "7d". now rewrite Wp. }
  split.
  { unfold Dashboards.getGeoHandler, Dashboards.sessionsOfRange. fold r.
    change (JS.orElse None "7d") with "7d". now rewrite Wp. }
  split.
  { unfold Dashboards.getDevicesHandler, Dashboards.sessionsOfRange. fold r.
    change (JS.orElse None "7d") with "7d". now rewrite Wp. }
  split.
  { unfold Dashboards.getReferrersHandler, Dashboards.sessionsOfRange. fold r.
    change (JS.orElse None "7d") with "7d". now rewrite Wp. }
  split.
  { intros key Hkey. unfold getStatsHandler. cbv zeta. fold r.
    change (JS.orElse None "7d") with "7d". rewrite Wt, H3.
    change ("7d" =? "all")%string with false.
    cbn [property].
    repeat (destruct (String.eqb _ key); [reflexivity |]).
    destruct (String.eqb_spec "range" key) as [E | _]; [| reflexivity].
    now elim Hkey. }
  split; [reflexivity |].
  now rewrite Ws.
Qed.

(** X24: Today's series has one point per hour of today: when no view is
    later than now, every point of the series of range today carries the
    date of now and an hour no later than the hour of now. *)
Theorem today_series_hours (now : Z) (st : Store.t) (pt : SeriesPoint) :
  (forall v, In v (pageViews st) -> timestamp v <= now) ->
  In pt (fst (getTimeSeriesHandler tz now (Some "today") st)) ->
  snd (getTimeSeriesHandler tz now (Some "today") st) = Hour
  /\ exists h, 0 <= h <= JSDate.getHours tz now
               /\ time pt = (dayKey tz now ++ "T" ++ JSDate.pad2 h ++ ":00")%string.
Proof.
  intros Hpast Hin. split; [reflexivity |].
  destruct (series_keys tz now (Some "today") st) as [_ Hk]. cbv zeta in Hk.
  apply (in_map time) in Hin. apply Hk in Hin as (v & Hv & Hkey).
  change (seriesWindow tz now (JS.orElse (Some "today") "7d"))
    with (JSDate.startOfDay tz now, Hour) in Hv, Hkey.
  cbn [fst snd] in Hv, Hkey.
  unfold pageViewsSince in Hv. apply filter_In in Hv as [Hv Hsince].
  apply Z.leb_le in Hsince. specialize (Hpast v Hv).
  assert (Hday : JSDate.localDay tz (timestamp v) = JSDate.localDay tz now).
  { unfold JSDate.startOfDay, JSDate.localDay, JSDate.msPerDay in *.
    Z.div_mod_to_equations. lia. }
  exists (JSDate.getHours tz (timestamp v)).
  split.
  - split; [apply getHours_range | now apply getHours_mono].
  - rewrite <- Hkey. cbn [bucketKey].
    unfold dayKey, JSDate.getFullYear, JSDate.getMonth, JSDate.getDate.
    now rewrite Hday.
Qed.

End ViewFacts.


(** ** Instances of the further properties *)

(** A page view of /b in the open session of [Spec.oneVisit], then a
    heartbeat of that session. *)
Lemma store_stays_well_formed_witness :
  let calls :=
    [ Ingest.Collect (Ingest.mkRuntime 1010000 "s2" "p2")
                     (Spec.collectOf "v1" (Some "s1") "/b");
      Ingest.Heartbeat (Ingest.mkRuntime 1020000 "" "")
                       (Ingest.mkHeartbeatBody "s1" (Some 40) (Some "/b")) ] in
  Terms.wellFormed Spec.oneVisit
  /\ Terms.wellFormed (Ingest.run Spec.noHostname Spec.noGeo calls Spec.oneVisit).
Proof.
  intros calls.
  assert (H : Terms.wellFormed Spec.oneVisit).
  { split; [| split]; simpl.
    - constructor; [simpl; tauto | constructor].
    - constructor; [simpl; tauto | constructor].
    - intros v [<- | []]. simpl. now left. }
  split; [exact H |].
  apply (store_stays_well_formed Spec.noHostname Spec.noGeo calls Spec.oneVisit H).
Defined.

Lemma counter_tracks_views_witness :
  let calls :=
    [ Ingest.Collect (Ingest.mkRuntime 1010000 "s2" "p2")
                     (Spec.collectOf "v1" (Some "s1") "/b");
      Ingest.Collect (Ingest.mkRuntime 1020000 "s3" "p3")
                     (Spec.collectOf "v2" None "/a") ] in
  let st' := Ingest.run Spec.noHostname Spec.noGeo calls Spec.oneVisit in
  Terms.noFailure (Ingest.handle Spec.noHostname Spec.noGeo) calls Spec.oneVisit
  /\ Spec.grown (fun s s' => Store.id s' = Store.id s
                             /\ Terms.surplus st' s' = Terms.surplus Spec.oneVisit s)
                (Store.sessions Spec.oneVisit) (Store.sessions st').
Proof.
  intros calls st'.
  assert (H : Terms.noFailure (Ingest.handle Spec.noHostname Spec.noGeo) calls
                              Spec.oneVisit).
  { split; [| split; [| exact I]]; intros (r & E & C); vm_compute in E;
      injection E as <-; discriminate C. }
  split; [exact H |].
  apply (counter_tracks_views Spec.noHostname Spec.noGeo calls Spec.oneVisit H).
Defined.

Lemma collect_slides_window_witness :
  let rt := Ingest.mkRuntime 1010000 "s2" "p2" in
  let rt' := Ingest.mkRuntime (1010000 + 30 * 60 * 1000) "s3" "p3" in
  let request := Spec.collectOf "v1" (Some "s1") "/b" in
  let b' := Ingest.body (Spec.collectOf "v1" (Some "s1") "/c") in
  Spec.openSession rt (Ingest.body request) Spec.oneVisit
  /\ Spec.openSession rt' b'
       (snd (Ingest.collectHandler Spec.noHostname Spec.noGeo rt request Spec.oneVisit)).
Proof.
  intros rt rt' request b'.
  assert (H : Spec.openSession rt (Ingest.body request) Spec.oneVisit).
  { eexists. split; [left; reflexivity |]. simpl. repeat split. lia. }
  split; [exact H |].
  apply (collect_slides_window Spec.noHostname Spec.noGeo rt rt' request b'
           Spec.oneVisit H eq_refl eq_refl).
  simpl. lia.
Defined.

Lemma heartbeat_slides_window_witness :
  let rt := Ingest.mkRuntime 1010000 "" "" in
  let rt' := Ingest.mkRuntime (1010000 + 30 * 60 * 1000 + 1) "s3" "p3" in
  let b := Ingest.mkHeartbeatBody "s1" None None in
  let b' := Ingest.body (Spec.collectOf "v1" (Some "s1") "/c") in
  let s := Spec.sessionRow "s1" "v1" 1000000 1000000 0 1 true in
  In s (Store.sessions Spec.oneVisit)
  /\ ~ Spec.openSession rt' b' (snd (Ingest.heartbeatHandler rt b Spec.oneVisit)).
Proof.
  intros rt rt' b b' s.
  assert (H : In s (Store.sessions Spec.oneVisit)) by (left; reflexivity).
  split; [exact H |].
  intros Hopen.
  apply (heartbeat_slides_window rt rt' b b' Spec.oneVisit s H eq_refl eq_refl eq_refl
           eq_refl) in Hopen.
  simpl in Hopen. lia.
Defined.

Lemma heartbeat_duration_witness :
  let rt := Ingest.mkRuntime 1012345 "" "" in
  let b := Ingest.mkHeartbeatBody "s1" None None in
  NoDup (map Store.id (Store.sessions Spec.oneVisit))
  /\ Forall2 (fun s s' =>
                if (Store.id s =? "s1")%string
                then Store.lastActiveAt s' = 1012345
                     /\ 1000 * Store.duration s' <= 1012345 - Store.startedAt s
                        < 1000 * Store.duration s' + 1000
                     /\ Spec.heartbeatFrame s' = Spec.heartbeatFrame s
                else s' = s)
             (Store.sessions Spec.oneVisit)
             (Store.sessions (snd (Ingest.heartbeatHandler rt b Spec.oneVisit))).
Proof.
  intros rt b.
  assert (H : NoDup (map Store.id (Store.sessions Spec.oneVisit))).
  { simpl. constructor; [simpl; tauto | constructor]. }
  split; [exact H |].
  apply (heartbeat_duration rt b Spec.oneVisit H).
Defined.

Lemma heartbeat_without_scroll_witness :
  let rt := Ingest.mkRuntime 1012345 "" "" in
  let b := Ingest.mkHeartbeatBody "s1" (Some 40) (Some "/elsewhere") in
  Spec.viewsOf "s1" "/elsewhere" Spec.oneVisit = []
  /\ Store.pageViews (snd (Ingest.heartbeatHandler rt b Spec.oneVisit))
     = Store.pageViews Spec.oneVisit.
Proof.
  intros rt b.
  assert (H : Spec.viewsOf "s1" "/elsewhere" Spec.oneVisit = []) by reflexivity.
  split; [exact H |].
  apply (heartbeat_without_scroll rt b Spec.oneVisit). right. right. exact H.
Defined.

Lemma collect_reply_names_session_witness :
  let rt := Ingest.mkRuntime 1010000 "s2" "p2" in
  let request := Spec.collectOf "v2" None "/b" in
  let out := Ingest.collectHandler Spec.noHostname Spec.noGeo rt request Spec.oneVisit in
  fst out = Store.Returned (Ingest.mkReply 200 "ok" (Some "s2"))
  /\ exists sid v,
       Some "s2" = Some sid
       /\ (exists s, In s (Store.sessions (snd out)) /\ Store.id s = sid
                     /\ Store.visitorId s = "v2" /\ Store.exitPage s = Some "/b")
       /\ Store.pageViews (snd out) = Store.pageViews Spec.oneVisit ++ [v]
       /\ Store.sessionId v = sid /\ Store.path v = "/b" /\ Store.title v = None.
Proof.
  intros rt request out.
  assert (H : fst out = Store.Returned (Ingest.mkReply 200 "ok" (Some "s2")))
    by reflexivity.
  split; [exact H |].
  apply (collect_reply_names_session Spec.noHostname Spec.noGeo rt request Spec.oneVisit
           (Ingest.mkReply 200 "ok" (Some "s2")) H eq_refl).
Defined.

Lemma activity_shows_in_realtime_witness :
  let rt := Ingest.mkRuntime 1010000 "" "" in
  let b := Ingest.mkHeartbeatBody "s1" None None in
  let s := Spec.sessionRow "s1" "v1" 1000000 1000000 0 1 true in
  1010000 + 300000 - 300000 <= Ingest.now rt
  /\ exists s', In s' (Dashboards.activeSessionsAt (1010000 + 300000)
                         (snd (Ingest.heartbeatHandler rt b Spec.oneVisit)))
                /\ Store.id s' = "s1" /\ Store.visitorId s' = "v1"
                /\ Store.exitPage s' = Store.exitPage s.
Proof.
  intros rt b s.
  assert (H : 1010000 + 300000 - 300000 <= Ingest.now rt) by (simpl; lia).
  split; [exact H |].
  apply (proj1 (activity_shows_in_realtime Spec.noHostname Spec.noGeo rt
                  (1010000 + 300000) Spec.oneVisit H) b s);
    [left; reflexivity | reflexivity].
Defined.

Lemma unknown_range_is_seven_days_witness :
  ~ In (JS.orElse (Some "1y") "7d") ["today"; "30d"; "all"]
  /\ Aggregate.property "range"
       (Aggregate.getStatsHandler 0 Spec.statsNow (Some "1y") Spec.twoWeeks)
     = Some (Aggregate.JStr "1y")
  /\ fst (Aggregate.seriesWindow 0 Spec.statsNow "1y") = Spec.statsNow - 7 * 86400000.
Proof.
  assert (H : ~ In (JS.orElse (Some "1y") "7d") ["today"; "30d"; "all"]).
  { simpl. intros [E | [E | [E | []]]]; discriminate E. }
  split; [exact H |].
  apply (unknown_range_is_seven_days 0 JS.keepOther Spec.statsNow (Some "1y")
           Spec.twoWeeks H).
Defined.

Lemma today_series_hours_witness :
  let st := Store.mkStore [] Spec.morningViews in
  let pt := Aggregate.mkPoint "2024-03-15T10:00" 2 2 in
  (forall v, In v (Store.pageViews st) -> Store.timestamp v <= Spec.morningNoon)
  /\ In pt (fst (Aggregate.getTimeSeriesHandler 0 Spec.morningNoon (Some "today") st))
  /\ exists h, 0 <= h <= JSDate.getHours 0 Spec.morningNoon
               /\ Aggregate.time pt
                  = (Aggregate.dayKey 0 Spec.morningNoon ++ "T" ++ JSDate.pad2 h
                     ++ ":00")%string.
Proof.
  intros st pt.
  assert (H1 : forall v, In v (Store.pageViews st) ->
                         Store.timestamp v <= Spec.morningNoon).
  { intros v [<- | [<- | [<- | []]]]; unfold Spec.morningNoon; simpl; lia. }
  assert (H2 : In pt (fst (Aggregate.getTimeSeriesHandler 0 Spec.morningNoon
                             (Some "today") st))).
  { vm_compute. left. reflexivity. }
  split; [exact H1 |]. split; [exact H2 |].
  apply (today_series_hours 0 Spec.morningNoon st pt H1 H2).
Defined.

